(** * Nine-picture grid: the storage service, the grid component and the
      upload slot, embedded from the TypeScript sources.

    - [lib/supabase-service] ([SupabaseService]): [ensureBucketExists],
      [uploadImage], [getGridImages], [deleteImage].
    - [components/nine-picture-grid] ([NinePictureGrid]): the nine-slot
      [images] array and its handlers.
    - [components/image-upload-slot] ([ImageUploadSlot]): [processImageToSquare].

    The JavaScript values the code touches are modelled as the language
    defines them: numbers that are integers (or NaN, or an infinity), strings
    of 8-bit characters, objects as ordered property lists, arrays as lists.
    Calls that leave the program (auth, storage) go through one primitive
    that records the call and lets every call answer, fail or throw. *)

From Stdlib Require Import ZArith QArith Ascii String List Lia Bool.
From stdpp Require Import base list.
Import ListNotations.

Local Open Scope string_scope.
Local Open Scope Z_scope.

(** ** JavaScript numbers and strings *)

Module JS.

(** The numbers of this program are integer-valued doubles: slot indexes,
    [Date.now()], the results of [Number.parseInt]. [Int z] stands for the
    double whose value is the integer [z]. *)
Inductive number : Type :=
| NaN
| Infinity (negative : bool)
| Int (z : Z).

Definition isNaN (x : number) : bool :=
  match x with NaN => true | _ => false end.

(** [x >= z] and [x < z] against an integer literal. *)
Definition geb (x : number) (z : Z) : bool :=
  match x with
  | Int y => z <=? y
  | Infinity negative => negb negative
  | NaN => false
  end.

Definition ltb (x : number) (z : Z) : bool :=
  match x with
  | Int y => y <? z
  | Infinity negative => negative
  | NaN => false
  end.

(** The array index a non-negative integer selects in [a[x]]. *)
Definition index (x : number) : nat :=
  match x with
  | Int y => Z.to_nat y
  | _ => O
  end.

(** *** Characters *)

Definition code (c : ascii) : Z := Z.of_nat (nat_of_ascii c).

(** [\d] without the unicode flag: the ten ASCII digits. *)
Definition is_digit (c : ascii) : bool := (48 <=? code c) && (code c <=? 57).

Definition digit_value (c : ascii) : Z := code c - 48.

Definition digit_char (d : Z) : ascii := ascii_of_nat (Z.to_nat (48 + d)).

(** White space that [parseInt] skips (the 8-bit part of StrWhiteSpaceChar). *)
Definition is_white (c : ascii) : bool :=
  let n := code c in
  ((9 <=? n) && (n <=? 13)) || (n =? 32) || (n =? 160).

Fixpoint trim_start (s : string) : string :=
  match s with
  | String c r => if is_white c then trim_start r else s
  | EmptyString => s
  end.

(** The longest prefix of digits, and what follows it. *)
Fixpoint take_digits (s : string) : string :=
  match s with
  | String c r => if is_digit c then String c (take_digits r) else EmptyString
  | EmptyString => EmptyString
  end.

Fixpoint drop_digits (s : string) : string :=
  match s with
  | String c r => if is_digit c then drop_digits r else s
  | EmptyString => EmptyString
  end.

(** The mathematical value of a string of digits, radix 10. *)
Fixpoint digits_value_from (acc : Z) (s : string) : Z :=
  match s with
  | String c r => digits_value_from (10 * acc + digit_value c) r
  | EmptyString => acc
  end.

Definition digits_value (s : string) : Z := digits_value_from 0 s.

(** *** Rounding to a double *)

(** Round a non-negative integer to the nearest integer with a 53-bit
    significand, ties to even. Integers below [2^53] are their own double. *)
Definition round_to_double (z : Z) : Z :=
  if z <? 2 ^ 53 then z
  else
    let e := Z.log2 z - 52 in
    let q := z / 2 ^ e in
    let r := z mod 2 ^ e in
    let half := 2 ^ (e - 1) in
    let q' :=
      if r <? half then q
      else if half <? r then q + 1
      else if Z.even q then q else q + 1 in
    q' * 2 ^ e.

(** The Number value of a mathematical integer: beyond the largest double the
    rounding gives an infinity. *)
Definition to_double (z : Z) : number :=
  let m := round_to_double (Z.abs z) in
  if 2 ^ 1024 <=? m then Infinity (z <? 0) else Int (Z.sgn z * m).

(** *** [Number.parseInt(s, 10)] *)

(** Skip white space, read a sign, read the longest prefix of digits; no digit
    gives NaN. The digits are read exactly and rounded once. *)
Definition parseInt (s : string) : number :=
  let s1 := trim_start s in
  let '(neg, s2) :=
    match s1 with
    | String "-" r => (true, r)
    | String "+" r => (false, r)
    | _ => (false, s1)
    end in
  match take_digits s2 with
  | EmptyString => NaN
  | d => to_double ((if neg : bool then -1 else 1) * digits_value d)
  end.

(** *** Number to string *)

(** Decimal digits of a non-negative integer, most significant first. *)
Fixpoint decimal_from (fuel : nat) (z : Z) (acc : string) : string :=
  let acc' := String (digit_char (z mod 10)) acc in
  match fuel with
  | O => acc'
  | S f => if z <? 10 then acc' else decimal_from f (z / 10) acc'
  end.

Definition decimal (z : Z) : string :=
  decimal_from (Z.to_nat (Z.log2 z)) z EmptyString.

Definition ndigits (z : Z) : Z := Z.of_nat (String.length (decimal z)).

Fixpoint zeros (n : nat) : string :=
  match n with
  | O => EmptyString
  | S m => String "0" (zeros m)
  end.

(** [x] reads back as the double [v]. *)
Definition round_trips (v x : Z) : bool := round_to_double x =? v.

(** The shortest digits [s] (with [k] digits) such that [s * 10^(n-k)] reads
    back as [v]; of two candidates with the same [k] the closer one, and the
    even one on a tie. At [k = n] the candidate is [v] itself, so the search
    ends at the latest there. *)
Fixpoint shortest_from (fuel : nat) (k n v : Z) : Z * Z :=
  match fuel with
  | O => (v, n)
  | S f =>
      let p := 10 ^ (n - k) in
      let lo := v / p in
      let hi := lo + 1 in
      let ok_lo := (10 ^ (k - 1) <=? lo) && round_trips v (lo * p) in
      let ok_hi := (hi <? 10 ^ k) && round_trips v (hi * p) in
      if ok_lo && ok_hi then
        let dl := v - lo * p in
        let dh := hi * p - v in
        if dl <? dh then (lo, k)
        else if dh <? dl then (hi, k)
        else if Z.even lo then (lo, k) else (hi, k)
      else if ok_lo then (lo, k)
      else if ok_hi then (hi, k)
      else shortest_from f (k + 1) n v
  end.

(** [(s, k, n)] of Number::toString for a double [v > 0] with an integer value:
    [10^(k-1) <= s < 10^k] and [s * 10^(n-k)] reads back as [v], [k] least. *)
Definition shortest (v : Z) : Z * Z * Z :=
  let nd := ndigits v in
  if round_trips v (10 ^ nd) then (1, 1, nd + 1)
  else let '(s, k) := shortest_from (Z.to_nat nd) 1 nd v in (s, k, nd).

(** Number::toString of a double [v > 0] with an integer value: the digits
    of [s] padded with zeros up to [10^21], the exponent form from there on. *)
Definition string_by_shortest (v : Z) : string :=
  let '(s, k, n) := shortest v in
  let ds := decimal s in
  if n <=? 21 then ds ++ zeros (Z.to_nat (n - k))
  else
    match ds with
    | String d EmptyString => String d ("e+" ++ decimal (n - 1))
    | String d rest => String d ("." ++ rest ++ "e+" ++ decimal (n - 1))
    | EmptyString => EmptyString
    end.

(** An integer below [2^53] is the only number that reads back as itself,
    so its shortest digits are all its digits: it prints as [decimal]. *)
Definition string_of_nonneg (v : Z) : string :=
  if v <? 2 ^ 53 then decimal v else string_by_shortest v.

(** [String(x)], the property name under which [obj[x]] is stored. An integer
    below [2^53] prints with all its digits; from [10^21] on the exponent
    form is used. *)
Definition number_to_string (x : number) : string :=
  match x with
  | NaN => "NaN"
  | Infinity false => "Infinity"
  | Infinity true => "-Infinity"
  | Int z => if z <? 0 then "-" ++ string_of_nonneg (- z) else string_of_nonneg z
  end.

(** *** String methods *)

(** [s.startsWith(p)] *)
Definition startsWith (s p : string) : bool := String.prefix p s.

(** [s.includes(p)] *)
Fixpoint includes (s p : string) : bool :=
  String.prefix p s ||
  match s with
  | String _ r => includes r p
  | EmptyString => false
  end.

End JS.

(** The two ways of printing agree on integers below [2^53]. *)
Example safe_integers_print_with_all_digits :
  forallb (fun v => String.eqb (JS.string_by_shortest v) (JS.decimal v))
    [ 1; 8; 9; 10; 12; 100; 120; 1024; 65535; 1700000000000; 4294967295;
      123456789012345; 9007199254740991; 9000000000000000; 2 ^ 52 + 1 ] = true.
Proof. vm_compute. reflexivity. Qed.

(** Printing beyond [2^53]: rounding shows, and from [10^21] on the exponent. *)
Example printing_large_numbers :
  JS.number_to_string (JS.parseInt "9007199254740993") = "9007199254740992" /\
  JS.number_to_string (JS.Int (2 ^ 69)) = "590295810358705700000" /\
  JS.number_to_string (JS.Int (10 ^ 21 - 2 ^ 17)) = "999999999999999900000" /\
  JS.number_to_string (JS.Int (10 ^ 21)) = "1e+21" /\
  JS.number_to_string (JS.parseInt "100000000000000000000000") = "1e+23" /\
  JS.number_to_string (JS.parseInt "123456789012345678901234567890")
  = "1.2345678901234568e+29".
Proof. repeat split; vm_compute; reflexivity. Qed.

Example parseInt_reads_a_prefix :
  JS.parseInt "1e+21" = JS.Int 1 /\ JS.parseInt "007" = JS.Int 7 /\
  JS.parseInt "  -12px" = JS.Int (-12) /\ JS.parseInt "Infinity" = JS.NaN /\
  JS.parseInt "" = JS.NaN.
Proof. repeat split; vm_compute; reflexivity. Qed.

(** ** File names, objects and arrays *)

(** [s] without the prefix [p], when it starts with it. *)
Fixpoint strip_prefix (p s : string) : option string :=
  match p, s with
  | EmptyString, _ => Some s
  | String a p', String b s' => if Ascii.eqb a b then strip_prefix p' s' else None
  | String _ _, EmptyString => None
  end.

(** [name.match(/^slot-(\d+)-/)]: the first capture group, when the name
    matches. [\d+] is greedy and [-] is no digit, so the group is the whole
    run of digits after [slot-], which must be non-empty and followed by [-]. *)
Definition match_slot (name : string) : option string :=
  match strip_prefix "slot-" name with
  | Some r =>
      match JS.take_digits r, JS.drop_digits r with
      | String c d, String "-" _ => Some (String c d)
      | _, _ => None
      end
  | None => None
  end.

(** An object used as a map, [{ [key: number]: string }]: its own properties
    in creation order. Property names are strings. *)
Module Obj.

Definition t : Type := list (string * string).

Definition empty : t := [].

(** [o[k] = v]: an existing property keeps its place. *)
Fixpoint set (o : t) (k v : string) : t :=
  match o with
  | [] => [(k, v)]
  | (k', v') :: r => if String.eqb k' k then (k', v) :: r else (k', v') :: set r k v
  end.

(** [o[k]] *)
Fixpoint get (o : t) (k : string) : option string :=
  match o with
  | [] => None
  | (k', v') :: r => if String.eqb k' k then Some v' else get r k
  end.

(** An array index is a canonical numeric string below [2^32 - 1]. *)
Definition array_index (k : string) : option Z :=
  match k with
  | EmptyString => None
  | _ =>
      let v := JS.digits_value k in
      if String.eqb (JS.take_digits k) k && (v <? 2 ^ 32 - 1)
         && String.eqb (JS.decimal v) k
      then Some v else None
  end.

Fixpoint insert_index (i : Z) (e : string * string) (l : list (Z * (string * string)))
  : list (Z * (string * string)) :=
  match l with
  | [] => [(i, e)]
  | (j, e') :: r => if i <? j then (i, e) :: l else (j, e') :: insert_index i e r
  end.

Fixpoint index_entries (o : t) : list (Z * (string * string)) :=
  match o with
  | [] => []
  | (k, v) :: r =>
      match array_index k with
      | Some i => insert_index i (k, v) (index_entries r)
      | None => index_entries r
      end
  end.

Definition is_index (e : string * string) : bool :=
  match array_index (fst e) with Some _ => true | None => false end.

(** [Object.entries(o)]: array indexes in ascending order, then the other
    names in creation order. *)
Definition entries (o : t) : list (string * string) :=
  List.map snd (index_entries o) ++ List.filter (fun e => negb (is_index e)) o.

(** [Object.keys(o).length] *)
Definition size (o : t) : nat := List.length o.

End Obj.

(** [a[i] = x] on an array of strings. Inside the array the element is
    replaced; beyond it the array grows, and the holes in between read as
    [undefined], which every use in this program (truthiness, [src]) treats
    like the empty string. *)
Definition array_set (a : list string) (i : nat) (x : string) : list string :=
  if (i <? List.length a)%nat then <[i := x]> a
  else a ++ List.repeat EmptyString (i - List.length a) ++ [x].

(** [a[i]] read as a string ([undefined] reads as the empty string). *)
Definition array_get (a : list string) (i : nat) : string :=
  List.nth i a EmptyString.

(** ** The world outside the program *)

(** [LogLevel] of the log context. *)
Inductive level : Type := Info | Warning | Error | Success.

(** A [LogEntry] without its id, time stamp and free-form details. *)
Record log_entry : Type := { message : string; severity : level }.

Record bucket_info : Type :=
  { bucket_name : string; bucket_public : bool; fileSizeLimit : option Z }.

Record blob : Type := { blob_bytes : string; blob_type : string }.

(** A canvas: its size and the images drawn on it. [drawImage(img, sx, sy, sw,
    sh, dx, dy, dw, dh)] is kept as it was called. *)
Record draw : Type :=
  { img_src : string; sx : Q; sy : Q; sw : Q; sh : Q; dx : Q; dy : Q; dw : Q; dh : Q }.

Record canvas : Type := { width : Z; height : Z; drawn : list draw }.

(** The calls that leave the program. *)
Inductive call : Type :=
| AuthGetSession
| StorageListBuckets
| StorageCreateBucket (name : string) (public : bool) (limit : Z)
| StorageList (bucket : string)
| StorageUpload (bucket name : string) (body : blob) (upsert : bool) (contentType : string)
| StorageRemove (bucket : string) (names : list string).

Definition is_storage_call (c : call) : bool :=
  match c with AuthGetSession => false | _ => true end.

Definition is_bucket_call (c : call) : bool :=
  match c with
  | StorageListBuckets | StorageCreateBucket _ _ _ => true
  | _ => false
  end.

Definition is_remove (c : call) : bool :=
  match c with StorageRemove _ _ => true | _ => false end.

(** How a call ended: it resolved with data, it resolved with
    [{ data: null, error }], or it threw. *)
Inductive outcome : Type :=
| Resolved
| Rejected (e : string)
| Threw (e : string).

Definition succeeded (o : outcome) : bool :=
  match o with Resolved => true | _ => false end.

(** What the network does to a call: the provider answers it from its state,
    or the call fails with an error, or it throws. *)
Inductive fault : Type :=
| Answers
| Fails (e : string)
| Throws (e : string).

(** What the program reads but never changes: the configuration, the auth
    session, the clock, the network and the browser. [faults] and [clock] are
    indexed by the number of calls made before. *)
Record environment : Type := {
  has_config : bool;                    (* both NEXT_PUBLIC_SUPABASE_* variables are set *)
  session : option string;              (* the user id of the active session *)
  public_url : string -> string -> string;  (* getPublicUrl: bucket, path *)
  clock : nat -> Z;                     (* Date.now() *)
  faults : nat -> fault;
  decode : string -> option (Z * Z);    (* width and height once an <img> has loaded the data URL *)
  context2d : bool;                     (* canvas.getContext("2d") is not null *)
  toDataURL : canvas -> string -> Q -> string;
  atob : string -> option string        (* None: InvalidCharacterError *)
}.

(** The provider's buckets and objects; an object is (bucket, name), and the
    list is in the order in which the objects were stored. *)
Record store : Type :=
  { buckets : list bucket_info; objects : list (string * string) }.

(** The object store as the program uses it (spec, External interfaces; the
    row-level policies of [setup-storage-policies.sql]: reading is public,
    inserting, updating and deleting need a signed-in user). *)
Module Storage.

Record response (A : Type) : Type := { data : option A; error : option string }.
Arguments data {A} _.
Arguments error {A} _.
Arguments Build_response {A} _ _.

Definition ok {A} (a : A) : response A := {| data := Some a; error := None |}.
Definition failed {A} (e : string) : response A := {| data := None; error := Some e |}.

Definition outcome_of {A} (r : response A) : outcome :=
  match error r with
  | Some e => Rejected e
  | None => Resolved
  end.

Definition has_bucket (st : store) (b : string) : bool :=
  existsb (fun i => String.eqb (bucket_name i) b) (buckets st).

(** The names of the objects of bucket [b], as stored. *)
Definition names (st : store) (b : string) : list string :=
  List.map snd (List.filter (fun o => String.eqb (fst o) b) (objects st)).

(** [sortBy: { column: "name", order: "asc" }]: the names in ascending
    order, compared character by character. *)
Fixpoint insert (n : string) (l : list string) : list string :=
  match l with
  | [] => [n]
  | m :: r => if String.leb n m then n :: m :: r else m :: insert n r
  end.

Definition sortBy_name (l : list string) : list string := fold_right insert [] l.

(** [limit: 100] *)
Definition limit : nat := 100.

(** What [list()] returns for bucket [b]. The program passes no options, so
    the library sends its defaults, [{ limit: 100, offset: 0, sortBy:
    { column: "name", order: "asc" } }]: the first hundred names in
    ascending order. *)
Definition listing (st : store) (b : string) : list string :=
  firstn limit (sortBy_name (names st b)).

Definition has_object (st : store) (b n : string) : bool :=
  existsb (fun o => String.eqb (fst o) b && String.eqb (snd o) n) (objects st).

(** [listBuckets()] *)
Definition listBuckets (E : environment) (st : store)
  : response (list bucket_info) * store :=
  (ok (buckets st), st).

(** [createBucket(name, { public, fileSizeLimit })] *)
Definition createBucket (name : string) (public : bool) (limit : Z)
    (E : environment) (st : store) : response string * store :=
  if has_bucket st name then (failed "The resource already exists", st)
  else (ok name,
        {| buckets := buckets st ++ [{| bucket_name := name; bucket_public := public;
                                        fileSizeLimit := Some limit |}];
           objects := objects st |}).

(** [from(b).list()] *)
Definition listObjects (b : string) (E : environment) (st : store)
  : response (list string) * store :=
  if has_bucket st b then (ok (listing st b), st) else (failed "Bucket not found", st).

(** [from(b).upload(n, body, { upsert })] *)
Definition upload (b n : string) (upsert : bool) (E : environment) (st : store)
  : response string * store :=
  if negb (has_bucket st b) then (failed "Bucket not found", st)
  else match session E with
       | None => (failed "new row violates row-level security policy", st)
       | Some _ =>
           if has_object st b n then
             if upsert then (ok n, st) else (failed "The resource already exists", st)
           else (ok n, {| buckets := buckets st; objects := objects st ++ [(b, n)] |})
       end.

Definition removed (b : string) (names : list string) (o : string * string) : bool :=
  String.eqb (fst o) b && existsb (String.eqb (snd o)) names.

(** [from(b).remove(names)] *)
Definition remove (b : string) (names : list string) (E : environment) (st : store)
  : response (list string) * store :=
  match session E with
  | None => (ok [], st)
  | Some _ =>
      (ok (List.map snd (List.filter (removed b names) (objects st))),
       {| buckets := buckets st;
          objects := List.filter (fun o => negb (removed b names o)) (objects st) |})
  end.

End Storage.

(** ** The program state *)

(** The fields of a [SupabaseService]. The only logger ever installed is the
    log context's [addLog], so [logger] records whether one is installed. *)
Record service : Type :=
  { logger : bool; bucketName : string; bucketInitialized : bool }.

Definition DEFAULT_BUCKET_NAME : string := "nine-picture-grid-images".

(** [new SupabaseService()] *)
Definition new_service : service :=
  {| logger := false; bucketName := DEFAULT_BUCKET_NAME; bucketInitialized := false |}.

(** The state of [NinePictureGrid]. *)
Module Grid.
Record state : Type := {
  images : list string;
  text : string;
  zoomedImage : option string;
  isLoading : bool;
  error : option string
}.

(** The initial values of the [useState] hooks. *)
Definition initial : state :=
  {| images := List.repeat EmptyString 9; text := EmptyString; zoomedImage := None;
     isLoading := true; error := None |}.
End Grid.

(** The state of one [ImageUploadSlot]. *)
Module Slot.
Record state : Type := {
  isDragging : bool;
  isUploading : bool;
  uploadError : option string
}.

Definition initial : state :=
  {| isDragging := false; isUploading := false; uploadError := None |}.
End Slot.

Record state : Type := {
  remote : store;                       (* the provider's side *)
  trace : list (call * outcome);        (* the calls made so far, oldest first *)
  alerts : list string;                 (* window.alert *)
  logs : list log_entry;                (* the log context, newest first *)
  svc : service;                        (* supabaseService.current *)
  ui : Grid.state;
  slot_ui : list Slot.state             (* the nine ImageUploadSlot components *)
}.

Definition set_remote (s : state) (r : store) : state :=
  {| remote := r; trace := trace s; alerts := alerts s; logs := logs s;
     svc := svc s; ui := ui s; slot_ui := slot_ui s |}.
Definition set_trace (s : state) (t : list (call * outcome)) : state :=
  {| remote := remote s; trace := t; alerts := alerts s; logs := logs s;
     svc := svc s; ui := ui s; slot_ui := slot_ui s |}.
Definition set_alerts (s : state) (a : list string) : state :=
  {| remote := remote s; trace := trace s; alerts := a; logs := logs s;
     svc := svc s; ui := ui s; slot_ui := slot_ui s |}.
Definition set_logs (s : state) (l : list log_entry) : state :=
  {| remote := remote s; trace := trace s; alerts := alerts s; logs := l;
     svc := svc s; ui := ui s; slot_ui := slot_ui s |}.
Definition set_svc (s : state) (v : service) : state :=
  {| remote := remote s; trace := trace s; alerts := alerts s; logs := logs s;
     svc := v; ui := ui s; slot_ui := slot_ui s |}.
Definition set_ui (s : state) (g : Grid.state) : state :=
  {| remote := remote s; trace := trace s; alerts := alerts s; logs := logs s;
     svc := svc s; ui := g; slot_ui := slot_ui s |}.
Definition set_slot_ui (s : state) (l : list Slot.state) : state :=
  {| remote := remote s; trace := trace s; alerts := alerts s; logs := logs s;
     svc := svc s; ui := ui s; slot_ui := l |}.

(** A page that has just been created over the provider state [r]: a fresh
    service, the initial grid and nine idle slots. *)
Definition start (r : store) : state :=
  {| remote := r; trace := []; alerts := []; logs := []; svc := new_service;
     ui := Grid.initial; slot_ui := List.repeat Slot.initial 9 |}.

(** ** Computations: an environment, a state, and exceptions that keep the state *)

Inductive result (A : Type) : Type :=
| Normal (a : A)
| Thrown (e : string).
Arguments Normal {A} _.
Arguments Thrown {A} _.

Definition M (A : Type) : Type := environment -> state -> result A * state.

Definition ret {A} (a : A) : M A := fun _ s => (Normal a, s).

Definition throw {A} (e : string) : M A := fun _ s => (Thrown e, s).

Definition bind {A B} (m : M A) (k : A -> M B) : M B :=
  fun E s =>
    match m E s with
    | (Normal a, s') => k a E s'
    | (Thrown e, s') => (Thrown e, s')
    end.

(** [try { m } catch (e) { h e }] *)
Definition try_catch {A} (m : M A) (h : string -> M A) : M A :=
  fun E s =>
    match m E s with
    | (Normal a, s') => (Normal a, s')
    | (Thrown e, s') => h e E s'
    end.

(** [try { m } finally { f }] *)
Definition finally {A} (m : M A) (f : M unit) : M A :=
  fun E s =>
    match m E s with
    | (r, s') =>
        match f E s' with
        | (Normal _, s'') => (r, s'')
        | (Thrown e, s'') => (Thrown e, s'')
        end
    end.

(** A call of an async function whose promise nobody awaits: a rejection
    does not reach the caller. The callee runs to its end here before the
    caller goes on; in the browser the two interleave at the callee's first
    [await], on parts of the state that do not overlap. *)
Definition detached (m : M unit) : M unit :=
  fun E s => (Normal tt, snd (m E s)).

Declare Scope js_scope.
Delimit Scope js_scope with js.
Notation "'do' x <- m ; k" := (bind m (fun x => k))
  (at level 10, x name, m at level 100, k at level 200) : js_scope.
Notation "'run' m ; k" := (bind m (fun _ => k))
  (at level 10, m at level 100, k at level 200) : js_scope.
Local Open Scope js_scope.

Definition ask {A} (f : environment -> A) : M A := fun E s => (Normal (f E), s).
Definition get {A} (f : state -> A) : M A := fun _ s => (Normal (f s), s).
Definition read {A} (f : environment -> state -> A) : M A := fun E s => (Normal (f E s), s).
Definition modify (f : state -> state) : M unit := fun _ s => (Normal tt, f s).

(** [addLog(message, level)] of the log context: the new entry goes first. *)
Definition addLog (message : string) (l : level) : M unit :=
  modify (fun s => set_logs s ({| message := message; severity := l |} :: logs s)).

Definition record (c : call) (o : outcome) (s : state) : state :=
  set_trace s (trace s ++ [(c, o)]).

(** One call that leaves the program: the network lets the provider answer
    it, or fails it, or makes it throw; the call and how it ended are
    recorded. *)
Definition external {A} (c : call)
    (answer : environment -> store -> Storage.response A * store)
  : M (Storage.response A) :=
  fun E s =>
    match faults E (List.length (trace s)) with
    | Answers =>
        let '(r, st) := answer E (remote s) in
        (Normal r, record c (Storage.outcome_of r) (set_remote s st))
    | Fails e => (Normal (Storage.failed e), record c (Rejected e) s)
    | Throws e => (Thrown e, record c (Threw e) s)
    end.

(** [Date.now()] *)
Definition Date_now : M Z := read (fun E s => clock E (List.length (trace s))).

(** ** [SupabaseService] *)

Module SupabaseService.

(** [getSupabaseClient()]: throws when the configuration is missing. *)
Definition getClient : M unit :=
  fun E s =>
    if has_config E then (Normal tt, s)
    else (Thrown "Supabase URL or Anon Key is missing", s).

(** [this.log]: forwards to the logger when there is one. *)
Definition log (message : string) (l : level) : M unit :=
  do has <- get (fun s => logger (svc s));
  if has : bool then addLog message l else ret tt.

(** [setLogger(addLog)] *)
Definition setLogger : M unit :=
  run modify (fun s =>
    set_svc s {| logger := true; bucketName := bucketName (svc s);
                 bucketInitialized := bucketInitialized (svc s) |});
  log "Supabase service initialized" Info.

Definition set_bucketInitialized (b : bool) : M unit :=
  modify (fun s =>
    set_svc s {| logger := logger (svc s); bucketName := bucketName (svc s);
                 bucketInitialized := b |}).

Definition this_bucketName : M string := get (fun s => bucketName (svc s)).

(** [supabase.auth.getSession()], destructured to [data.session]; a failed
    call resolves with a null session. *)
Definition auth_getSession : M (option string) :=
  do r <- external AuthGetSession (fun E st => (Storage.ok (session E), st));
  ret (match Storage.data r with Some u => u | None => None end).

(** Reading a property of [data]: on null this is a TypeError. *)
Definition deref {A} (d : option A) : M A :=
  match d with
  | Some a => ret a
  | None => throw "TypeError: Cannot read properties of null"
  end.

(** [getPublicUrl(path).data.publicUrl]: computed locally, no request. *)
Definition getPublicUrl (path : string) : M string :=
  read (fun E s => public_url E (bucketName (svc s)) path).

Definition quoted (s : string) : string := "'" ++ s ++ "'".

Definition show_nat (n : nat) : string := JS.number_to_string (JS.Int (Z.of_nat n)).

Definition ensureBucketExists : M bool :=
  try_catch
    (do initialized <- get (fun s => bucketInitialized (svc s));
     if initialized : bool then ret true
     else
       run getClient;
       do name <- this_bucketName;
       run log ("Checking if bucket exists: " ++ quoted name) Info;
       do r <- external StorageListBuckets Storage.listBuckets;
       match Storage.error r with
       | Some listError =>
           run log "Error listing buckets" Error;
           throw listError
       | None =>
           do buckets <- deref (Storage.data r);
           let bucketExists :=
             existsb (fun b => String.eqb (bucket_name b) name) buckets in
           if bucketExists then
             run log ("Bucket " ++ quoted name ++ " already exists") Success;
             run set_bucketInitialized true;
             ret true
           else
             run log ("Bucket " ++ quoted name
                      ++ " not found, initiating bucket creation") Info;
             do c <- external (StorageCreateBucket name true 5242880)
                              (Storage.createBucket name true 5242880);
             match Storage.error c with
             | Some createError =>
                 run log ("Failed to create bucket " ++ quoted name) Error;
                 throw createError
             | None =>
                 run log ("Successfully created Supabase Storage bucket: "
                          ++ quoted name) Success;
                 run set_bucketInitialized true;
                 ret true
             end
       end)
    (fun error =>
       do name <- this_bucketName;
       run log ("Error ensuring bucket " ++ quoted name ++ " exists") Error;
       ret false).

(** [s.split(",")[1]] *)
Fixpoint upto_comma (s : string) : string :=
  match s with
  | String c r => if Ascii.eqb c "," then EmptyString else String c (upto_comma r)
  | EmptyString => EmptyString
  end.

Fixpoint split_comma_1 (s : string) : option string :=
  match s with
  | String c r => if Ascii.eqb c "," then Some (upto_comma r) else split_comma_1 r
  | EmptyString => None
  end.

(** [base64ToBlob]: the decoded bytes, cut in slices of 512 and put together
    again by the Blob constructor. [atob(undefined)] throws as well. *)
Definition base64ToBlob (base64 : option string) (contentType : string) : M blob :=
  do decoded <- ask (fun E => match base64 with
                              | Some b => atob E b
                              | None => None
                              end);
  match decoded with
  | Some bytes => ret {| blob_bytes := bytes; blob_type := contentType |}
  | None => throw "InvalidCharacterError"
  end.

Definition uploadImage (imageData : string) (slotNumber : JS.number) : M (option string) :=
  try_catch
    (run getClient;
     do session <- auth_getSession;
     match session with
     | None => throw "Authentication required to upload images"
     | Some _ =>
         do bucketExists <- ensureBucketExists;
         do name <- this_bucketName;
         if negb bucketExists then
           throw ("Cannot upload image: bucket " ++ quoted name
                  ++ " does not exist and could not be created")
         else
           do now <- Date_now;
           let fileName :=
             "slot-" ++ JS.number_to_string slotNumber ++ "-"
             ++ JS.number_to_string (JS.Int now) ++ ".jpg" in
           run log ("Attempting to upload image to bucket " ++ quoted name
                    ++ ", file: " ++ quoted fileName) Info;
           do body <- base64ToBlob (split_comma_1 imageData) "image/jpeg";
           do r <- external (StorageUpload name fileName body true "image/jpeg")
                            (Storage.upload name fileName true);
           match Storage.error r with
           | Some error =>
               run log ("Error uploading image to bucket " ++ quoted name) Error;
               throw error
           | None =>
               do publicUrl <- getPublicUrl fileName;
               run log ("Successfully uploaded image to bucket " ++ quoted name) Success;
               ret (Some publicUrl)
           end
     end)
    (fun error =>
       do name <- this_bucketName;
       run log ("Failed to upload image to bucket " ++ quoted name) Error;
       ret None).

(** The body of the [for (const file of files)] loop of [getGridImages]. *)
Definition add_file (bucket_url : string -> string) (slotImages : Obj.t) (name : string)
  : Obj.t :=
  match match_slot name with
  | Some digits =>
      let slotNumber := JS.parseInt digits in
      Obj.set slotImages (JS.number_to_string slotNumber) (bucket_url name)
  | None => slotImages
  end.

Definition collect (bucket_url : string -> string) (files : list string) : Obj.t :=
  fold_left (add_file bucket_url) files Obj.empty.

Definition getGridImages : M Obj.t :=
  try_catch
    (run getClient;
     do bucketExists <- ensureBucketExists;
     do name <- this_bucketName;
     if negb bucketExists then
       run log ("Cannot retrieve images: bucket " ++ quoted name ++ " does not exist") Error;
       ret Obj.empty
     else
       run log ("Listing files in bucket " ++ quoted name) Info;
       do r <- external (StorageList name) (Storage.listObjects name);
       match Storage.error r with
       | Some error =>
           run log ("Error listing files in bucket " ++ quoted name) Error;
           throw error
       | None =>
           match Storage.data r with
           | None | Some [] =>
               run log ("No files found in bucket " ++ quoted name) Info;
               ret Obj.empty
           | Some files =>
               run log ("Found " ++ show_nat (List.length files) ++ " files in bucket "
                        ++ quoted name) Success;
               do url <- read (fun E s => public_url E (bucketName (svc s)));
               let slotImages := collect url files in
               run log ("Processed image URLs for " ++ show_nat (Obj.size slotImages)
                        ++ " slots") Success;
               ret slotImages
           end
       end)
    (fun error =>
       do name <- this_bucketName;
       run log ("Error retrieving grid images from bucket " ++ quoted name) Error;
       ret Obj.empty).

Definition deleteImage (slotNumber : JS.number) : M bool :=
  let slot := JS.number_to_string slotNumber in
  try_catch
    (run getClient;
     do session <- auth_getSession;
     match session with
     | None => throw "Authentication required to delete images"
     | Some _ =>
         do bucketExists <- ensureBucketExists;
         do name <- this_bucketName;
         if negb bucketExists then
           run log ("Cannot delete image: bucket " ++ quoted name ++ " does not exist") Error;
           ret false
         else
           run log ("Listing files in bucket " ++ quoted name ++ " for slot " ++ slot) Info;
           do r <- external (StorageList name) (Storage.listObjects name);
           match Storage.error r with
           | Some listError =>
               run log ("Error listing files in bucket " ++ quoted name) Error;
               throw listError
           | None =>
               let filesToDelete :=
                 match Storage.data r with
                 | Some files =>
                     List.filter (fun f => JS.startsWith f ("slot-" ++ slot ++ "-")) files
                 | None => []
                 end in
               match filesToDelete with
               | [] =>
                   run log ("No files found for slot " ++ slot ++ " in bucket "
                            ++ quoted name) Info;
                   ret true
               | _ =>
                   run log ("Attempting to delete " ++ show_nat (List.length filesToDelete)
                            ++ " files for slot " ++ slot) Info;
                   do d <- external (StorageRemove name filesToDelete)
                                    (Storage.remove name filesToDelete);
                   match Storage.error d with
                   | Some deleteError =>
                       run log ("Error deleting files for slot " ++ slot) Error;
                       throw deleteError
                   | None =>
                       run log ("Successfully deleted files for slot " ++ slot) Success;
                       ret true
                   end
               end
           end
     end)
    (fun error =>
       run log ("Error deleting image for slot " ++ slot) Error;
       ret false).

(** *** [base64ToBlob], slice by slice *)

(** [s.charCodeAt(i)]: NaN beyond the end. *)
Definition charCodeAt (s : string) (i : nat) : JS.number :=
  match String.get i s with
  | Some c => JS.Int (JS.code c)
  | None => JS.NaN
  end.

(** [for (let i = 0; i < slice.length; i++) byteNumbers[i] = slice.charCodeAt(i)],
    from [i] on, [n] rounds. *)
Fixpoint byteNumbers_from (slice : string) (i n : nat) : list JS.number :=
  match n with
  | O => []
  | S m => charCodeAt slice i :: byteNumbers_from slice (S i) m
  end.

Definition byteNumbers (slice : string) : list JS.number :=
  byteNumbers_from slice 0 (String.length slice).

(** One element of [new Uint8Array(numbers)]: the number modulo 256, and 0
    for what is no finite number. *)
Definition ToUint8 (x : JS.number) : Z :=
  match x with
  | JS.Int z => z mod 256
  | _ => 0
  end.

Definition Uint8Array (numbers : list JS.number) : list Z := List.map ToUint8 numbers.

(** [for (let offset = 0; offset < byteCharacters.length; offset += 512)],
    from [offset] on; [fuel] bounds the number of rounds. *)
Fixpoint byteArrays_from (fuel : nat) (byteCharacters : string) (offset : nat)
  : list (list Z) :=
  match fuel with
  | O => []
  | S f =>
      if (offset <? String.length byteCharacters)%nat then
        let slice := String.substring offset 512 byteCharacters in
        Uint8Array (byteNumbers slice) :: byteArrays_from f byteCharacters (offset + 512)
      else []
  end.

(** The [byteArrays] of [base64ToBlob]: every round moves [offset] forward,
    so there are no more rounds than characters. *)
Definition byteArrays (byteCharacters : string) : list (list Z) :=
  byteArrays_from (String.length byteCharacters) byteCharacters 0.

(** [new Blob(byteArrays, { type })]: the arrays one after the other. *)
Definition Blob (arrays : list (list Z)) (contentType : string) : blob :=
  {| blob_bytes :=
       string_of_list_ascii
         (List.map (fun b => ascii_of_nat (Z.to_nat b)) (List.concat arrays));
     blob_type := contentType |}.

(** *** [testConnection] *)

(** The result [{ success, error }]. *)
Definition testConnection : M (bool * option string) :=
  try_catch
    (run getClient;
     run log "Testing Supabase connection" Info;
     do r <- external StorageListBuckets Storage.listBuckets;
     match Storage.error r with
     | Some error =>
         run log "Supabase connection test failed" Error;
         ret (false, Some error)
     | None =>
         do _data <- deref (Storage.data r);
         run log "Supabase connection test successful" Success;
         ret (true, None)
     end)
    (fun error =>
       run log "Supabase connection test failed with exception" Error;
       ret (false, Some error)).

End SupabaseService.

(** The public methods of a service, as the page can call them one after
    another; [perform] drops what they return. *)
Inductive operation : Type :=
| EnsureBucketExists
| UploadImage (imageData : string) (slotNumber : JS.number)
| GetGridImages
| DeleteImage (slotNumber : JS.number)
| SetLogger.

Definition perform (o : operation) : M unit :=
  match o with
  | EnsureBucketExists => do _r <- SupabaseService.ensureBucketExists; ret tt
  | UploadImage imageData slotNumber =>
      do _r <- SupabaseService.uploadImage imageData slotNumber; ret tt
  | GetGridImages => do _r <- SupabaseService.getGridImages; ret tt
  | DeleteImage slotNumber => do _r <- SupabaseService.deleteImage slotNumber; ret tt
  | SetLogger => SupabaseService.setLogger
  end.

(** The state after a sequence of operations, each in the environment it
    happens to run in. *)
Fixpoint after (ops : list (environment * operation)) (s : state) : state :=
  match ops with
  | [] => s
  | (E, o) :: rest => after rest (snd (perform o E s))
  end.

(** ** [NinePictureGrid] *)

Module NinePictureGrid.

Definition setImages (l : list string) : M unit :=
  modify (fun s => set_ui s
    {| Grid.images := l; Grid.text := Grid.text (ui s);
       Grid.zoomedImage := Grid.zoomedImage (ui s);
       Grid.isLoading := Grid.isLoading (ui s); Grid.error := Grid.error (ui s) |}).

Definition setText (t : string) : M unit :=
  modify (fun s => set_ui s
    {| Grid.images := Grid.images (ui s); Grid.text := t;
       Grid.zoomedImage := Grid.zoomedImage (ui s);
       Grid.isLoading := Grid.isLoading (ui s); Grid.error := Grid.error (ui s) |}).

Definition setIsLoading (b : bool) : M unit :=
  modify (fun s => set_ui s
    {| Grid.images := Grid.images (ui s); Grid.text := Grid.text (ui s);
       Grid.zoomedImage := Grid.zoomedImage (ui s);
       Grid.isLoading := b; Grid.error := Grid.error (ui s) |}).

Definition setError (e : option string) : M unit :=
  modify (fun s => set_ui s
    {| Grid.images := Grid.images (ui s); Grid.text := Grid.text (ui s);
       Grid.zoomedImage := Grid.zoomedImage (ui s);
       Grid.isLoading := Grid.isLoading (ui s); Grid.error := e |}).

(** [window.alert] *)
Definition alert (m : string) : M unit :=
  modify (fun s => set_alerts s (alerts s ++ [m])).

(** The callback of [Object.entries(slotImages).forEach]. *)
Definition apply_entry (newImages : list string) (e : string * string) : list string :=
  let '(slotStr, imageUrl) := e in
  let slot := JS.parseInt slotStr in
  if negb (JS.isNaN slot) && JS.geb slot 0 && JS.ltb slot 9
  then array_set newImages (JS.index slot) imageUrl
  else newImages.

(** [newImages] after the [forEach], starting from the copy [[...images]]. *)
Definition merge (images : list string) (slotImages : Obj.t) : list string :=
  fold_left apply_entry (Obj.entries slotImages) images.

(** The handlers close over the [images] and the [user] of the render that
    created them; both are arguments here. *)
Definition loadImagesFromSupabase (images : list string) : M unit :=
  finally
    (try_catch
       (run setIsLoading true;
        run setError None;
        run addLog "Loading images from Supabase" Info;
        do bucketExists <- SupabaseService.ensureBucketExists;
        if negb bucketExists then throw "Failed to ensure bucket exists"
        else
          do slotImages <- SupabaseService.getGridImages;
          let newImages := merge images slotImages in
          run setImages newImages;
          addLog "Images loaded successfully from Supabase" Success)
       (fun error =>
          run addLog "Error loading images from Supabase" Error;
          setError (Some "Failed to load images. Check the Debug tab for details.")))
    (setIsLoading false).

Definition slot_label (index : nat) : string := SupabaseService.show_nat (index + 1).

Definition handleImageUpload (images : list string) (user : option string)
    (index : nat) (imageDataUrl : string) : M unit :=
  try_catch
    (match user with
     | None =>
         run addLog "Upload attempted without authentication" Error;
         setError (Some "You must be signed in to upload images. Please go to the Account tab to sign in.")
     | Some _ =>
         run addLog ("Uploading image to slot " ++ slot_label index) Info;
         do imageUrl <- SupabaseService.uploadImage imageDataUrl (JS.Int (Z.of_nat index));
         match imageUrl with
         | None | Some EmptyString => throw "Failed to upload image to Supabase"
         | Some url =>
             let newImages := array_set images index url in
             run setImages newImages;
             addLog ("Image uploaded to slot " ++ slot_label index ++ " successfully") Success
         end
     end)
    (fun error =>
       run addLog ("Error uploading image to slot " ++ slot_label index) Error;
       if JS.includes error "auth"
       then setError (Some "Authentication error: Please sign in again to upload images.")
       else setError (Some "Failed to upload image. Check the Debug tab for details.")).

Definition handleImageRemove (images : list string) (user : option string)
    (index : nat) : M unit :=
  try_catch
    (match user with
     | None =>
         run addLog "Image removal attempted without authentication" Error;
         setError (Some "You must be signed in to remove images. Please go to the Account tab to sign in.")
     | Some _ =>
         run addLog ("Removing image from slot " ++ slot_label index) Info;
         do _ignored <- SupabaseService.deleteImage (JS.Int (Z.of_nat index));
         let newImages := array_set images index EmptyString in
         run setImages newImages;
         addLog ("Image removed from slot " ++ slot_label index ++ " successfully") Success
     end)
    (fun error =>
       run addLog ("Error removing image from slot " ++ slot_label index) Error;
       setError (Some "Failed to remove image. Check the Debug tab for details.")).

Definition handleSave (user : option string) : M unit :=
  try_catch
    (match user with
     | None =>
         run addLog "Save attempted without authentication" Error;
         setError (Some "You must be signed in to save the grid. Please go to the Account tab to sign in.")
     | Some _ =>
         run addLog "Saving grid data" Info;
         run alert "Your grid has been saved!";
         addLog "Grid data saved successfully" Success
     end)
    (fun error => addLog "Error saving grid data" Error).

(** [for (let i = 0; i < 9; i++) if (images[i]) await deleteImage(i)],
    from [i] on, [n] rounds. *)
Fixpoint clear_from (images : list string) (i n : nat) : M unit :=
  match n with
  | O => ret tt
  | S m =>
      run (match array_get images i with
           | EmptyString => ret tt
           | _ => do _ignored <- SupabaseService.deleteImage (JS.Int (Z.of_nat i)); ret tt
           end);
      clear_from images (S i) m
  end.

Definition handleReset (images : list string) (user : option string) : M unit :=
  try_catch
    (match user with
     | None =>
         run addLog "Reset attempted without authentication" Error;
         setError (Some "You must be signed in to reset the grid. Please go to the Account tab to sign in.")
     | Some _ =>
         run addLog "Resetting grid" Info;
         run clear_from images 0 9;
         run setImages (List.repeat EmptyString 9);
         run setText EmptyString;
         addLog "Grid reset successfully" Success
     end)
    (fun error =>
       run addLog "Error resetting grid" Error;
       setError (Some "Failed to reset grid. Check the Debug tab for details.")).

(** The mount effect: install the logger, log, load. The load is not awaited. *)
Definition mount : M unit :=
  run SupabaseService.setLogger;
  run addLog "NinePictureGrid component mounted" Info;
  run addLog "Browser information" Info;
  detached (loadImagesFromSupabase (Grid.images Grid.initial)).

(** The effect that runs when [user] changes. *)
Definition user_changed (images : list string) (user : option string) : M unit :=
  match user with
  | Some _ =>
      run addLog "User authenticated, loading images" Info;
      detached (loadImagesFromSupabase images)
  | None => ret tt
  end.

Definition setZoomedImage (z : option string) : M unit :=
  modify (fun s => set_ui s
    {| Grid.images := Grid.images (ui s); Grid.text := Grid.text (ui s);
       Grid.zoomedImage := z;
       Grid.isLoading := Grid.isLoading (ui s); Grid.error := Grid.error (ui s) |}).

(** [handleTextChange(e)], with [value] for [e.target.value]. *)
Definition handleTextChange (value : string) : M unit := setText value.

Definition handleImageZoom (imageUrl : string) : M unit :=
  try_catch
    (run addLog "Zooming image" Info;
     setZoomedImage (Some imageUrl))
    (fun error => addLog "Error zooming image" Error).

Definition handleZoomEnd : M unit :=
  try_catch
    (run addLog "Ending image zoom" Info;
     setZoomedImage None)
    (fun error => addLog "Error ending image zoom" Error).

(** The "Try Again" button. *)
Definition handleRefresh (images : list string) : M unit :=
  detached (loadImagesFromSupabase images).

(** What the user (or an effect) can trigger on the grid. *)
Inductive event : Type :=
| Load
| Upload (index : nat) (imageDataUrl : string)
| Remove (index : nat)
| Save
| Reset.

(** The handler of an event, as created by a render that saw [images] and
    [user]. *)
Definition dispatch (images : list string) (user : option string) (e : event) : M unit :=
  match e with
  | Load => loadImagesFromSupabase images
  | Upload index imageDataUrl => handleImageUpload images user index imageDataUrl
  | Remove index => handleImageRemove images user index
  | Save => handleSave user
  | Reset => handleReset images user
  end.

(** One event handled to completion by the handlers of the latest render:
    they see the current [images]. *)
Definition handle (user : option string) (e : event) : M unit :=
  do images <- get (fun s => Grid.images (ui s));
  dispatch images user e.

End NinePictureGrid.

(** ** [ImageUploadSlot] *)

Module ImageUploadSlot.

Definition update (slot : nat) (f : Slot.state -> Slot.state) : M unit :=
  modify (fun s => set_slot_ui s (alter f slot (slot_ui s))).

Definition setUploadError (slot : nat) (e : option string) : M unit :=
  update slot (fun u =>
    {| Slot.isDragging := Slot.isDragging u; Slot.isUploading := Slot.isUploading u;
       Slot.uploadError := e |}).

Definition setIsUploading (slot : nat) (b : bool) : M unit :=
  update slot (fun u =>
    {| Slot.isDragging := Slot.isDragging u; Slot.isUploading := b;
       Slot.uploadError := Slot.uploadError u |}).

(** [(a - b) / 2], exact as long as the operands are below [2^53]. *)
Definition half_difference (a b : Z) : Q := (inject_Z (a - b) / inject_Z 2)%Q.

(** The canvas after [canvas.width = size; canvas.height = size] and the one
    [drawImage] call of the [onload] handler. *)
Definition square_canvas (dataUrl : string) (img_width img_height : Z) : canvas :=
  let size := Z.min img_width img_height in
  let offsetX := half_difference img_width size in
  let offsetY := half_difference img_height size in
  {| width := size; height := size;
     drawn := [ {| img_src := dataUrl;
                   sx := offsetX; sy := offsetY; sw := inject_Z size; sh := inject_Z size;
                   dx := 0%Q; dy := 0%Q; dw := inject_Z size; dh := inject_Z size |} ] |}.

Definition jpeg_quality : Q := (92 # 100)%Q.

(** [img.onload] *)
Definition img_onload (slot : nat) (onImageUpload : string -> M unit)
    (dataUrl : string) (img_width img_height : Z) : M unit :=
  try_catch
    (run addLog "Image loaded for processing" Info;
     do ctx <- ask context2d;
     if negb ctx then
       let error := "Failed to get canvas context" in
       run setUploadError slot (Some error);
       run addLog error Error;
       run detached (onImageUpload dataUrl);
       setIsUploading slot false
     else
       let c := square_canvas dataUrl img_width img_height in
       do squareImageDataUrl <- ask (fun E => toDataURL E c "image/jpeg" jpeg_quality);
       run addLog "Image processed successfully" Success;
       run detached (onImageUpload squareImageDataUrl);
       setIsUploading slot false)
    (fun error =>
       run setUploadError slot (Some error);
       run addLog "Error processing image in canvas" Error;
       setIsUploading slot false).

(** [img.onerror] *)
Definition img_onerror (slot : nat) : M unit :=
  let errorMessage := "Error loading image for processing" in
  run setUploadError slot (Some errorMessage);
  run addLog errorMessage Error;
  setIsUploading slot false.

(** [processImageToSquare(dataUrl)] of slot number [slot], followed by the
    one event the image fires once [img.src] is set: [load] when the data
    decodes, [error] when it does not. *)
Definition processImageToSquare (slot : nat) (onImageUpload : string -> M unit)
    (dataUrl : string) : M unit :=
  try_catch
    (run addLog "Processing image to square format" Info;
     do decoded <- ask (fun E => decode E dataUrl);
     match decoded with
     | Some (img_width, img_height) =>
         img_onload slot onImageUpload dataUrl img_width img_height
     | None => img_onerror slot
     end)
    (fun error =>
       run setUploadError slot (Some error);
       run addLog "Error in processImageToSquare" Error;
       setIsUploading slot false).

Definition setIsDragging (slot : nat) (b : bool) : M unit :=
  update slot (fun u =>
    {| Slot.isDragging := b; Slot.isUploading := Slot.isUploading u;
       Slot.uploadError := Slot.uploadError u |}).

(** A [File], as the handlers read it. *)
Record File : Type := { name : string; size : Z; type : string }.

(** What a [FileReader] does with [readAsDataURL(file)]: a [load] event whose
    result is a string, a [load] event whose result is none, or an [error]
    event, with the message of its error when it has one. *)
Inductive reading : Type :=
| Loaded (result : string)
| LoadedOther
| Failed (message : option string).

(** [reader.onload]; [result] is the event's result when it is a string. *)
Definition reader_onload (slot : nat) (onImageUpload : string -> M unit)
    (result : option string) : M unit :=
  try_catch
    (match result with
     | Some dataUrl =>
         run addLog "File read successfully" Success;
         processImageToSquare slot onImageUpload dataUrl
     | None => throw "Failed to read file data"
     end)
    (fun error =>
       run setUploadError slot (Some error);
       run addLog "Error in FileReader onload" Error;
       setIsUploading slot false).

(** [reader.onerror]: [e?.target?.error?.message || "Error reading file"]. *)
Definition reader_onerror (slot : nat) (message : option string) : M unit :=
  let errorMessage :=
    match message with
    | Some (String c r) => String c r
    | _ => "Error reading file"
    end in
  run setUploadError slot (Some errorMessage);
  run addLog "FileReader error" Error;
  setIsUploading slot false.

(** [handleFile(file)], followed by the one event the reader fires.
    [file.type.match("image.*")] succeeds when the type contains [image]. *)
Definition handleFile (slot : nat) (onImageUpload : string -> M unit)
    (readAsDataURL : File -> reading) (file : File) : M unit :=
  try_catch
    (run setIsUploading slot true;
     run setUploadError slot None;
     if negb (JS.includes (type file) "image") then
       let error := "Please select an image file" in
       run setUploadError slot (Some error);
       run addLog "Invalid file type" Error;
       setIsUploading slot false
     else
       run addLog "Processing file" Info;
       match readAsDataURL file with
       | Loaded result => reader_onload slot onImageUpload (Some result)
       | LoadedOther => reader_onload slot onImageUpload None
       | Failed message => reader_onerror slot message
       end)
    (fun error =>
       run setUploadError slot (Some error);
       run addLog "Error handling file" Error;
       setIsUploading slot false).

Definition handleDragOver (slot : nat) (isAuthenticated : bool) : M unit :=
  if isAuthenticated then setIsDragging slot true else ret tt.

Definition handleDragLeave (slot : nat) : M unit := setIsDragging slot false.

(** [handleDrop(e)], with [files] for [e.dataTransfer.files]. *)
Definition handleDrop (slot : nat) (onImageUpload : string -> M unit)
    (readAsDataURL : File -> reading) (isAuthenticated : bool) (files : list File)
  : M unit :=
  run setIsDragging slot false;
  run setUploadError slot None;
  if negb isAuthenticated then
    run addLog "Upload attempted without authentication" Error;
    setUploadError slot (Some "Authentication required to upload images")
  else
    try_catch
      (match files with
       | file :: _ =>
           run addLog "File dropped for upload" Info;
           detached (handleFile slot onImageUpload readAsDataURL file)
       | [] =>
           let error := "No file found in drop event" in
           run setUploadError slot (Some error);
           addLog error Warning
       end)
      (fun error =>
         run setUploadError slot (Some error);
         addLog "Error handling dropped file" Error).

(** [handleFileInput(e)], with [files] for [e.target.files]. *)
Definition handleFileInput (slot : nat) (onImageUpload : string -> M unit)
    (readAsDataURL : File -> reading) (isAuthenticated : bool) (files : list File)
  : M unit :=
  run setUploadError slot None;
  if negb isAuthenticated then
    run addLog "Upload attempted without authentication" Error;
    setUploadError slot (Some "Authentication required to upload images")
  else
    try_catch
      (match files with
       | file :: _ =>
           run addLog "File selected for upload" Info;
           detached (handleFile slot onImageUpload readAsDataURL file)
       | [] =>
           let error := "No file selected" in
           run setUploadError slot (Some error);
           addLog error Warning
       end)
      (fun error =>
         run setUploadError slot (Some error);
         addLog "Error handling file input" Error).

(** [handleMouseDown(e)] of a slot that shows [imageUrl]. *)
Definition handleMouseDown (imageUrl : string) (onImageZoom : string -> M unit) : M unit :=
  match imageUrl with
  | EmptyString => ret tt
  | _ => onImageZoom imageUrl
  end.

End ImageUploadSlot.

(** Slot [index] as the grid renders it:
    [onImageUpload={(imageUrl) => handleImageUpload(index, imageUrl)}]. *)
Definition slot_upload (images : list string) (user : option string) (index : nat)
    (dataUrl : string) : M unit :=
  ImageUploadSlot.processImageToSquare index
    (NinePictureGrid.handleImageUpload images user index) dataUrl.

(** [isAuthenticated={!!user}] *)
Definition isAuthenticated (user : option string) : bool :=
  match user with Some _ => true | None => false end.

(** A drop on slot [index], a file chosen for it, and a press on it, as the
    grid wires the slot's callbacks. *)
Definition slot_drop (images : list string) (user : option string) (index : nat)
    (readAsDataURL : ImageUploadSlot.File -> ImageUploadSlot.reading)
    (files : list ImageUploadSlot.File) : M unit :=
  ImageUploadSlot.handleDrop index (NinePictureGrid.handleImageUpload images user index)
    readAsDataURL (isAuthenticated user) files.

Definition slot_file_input (images : list string) (user : option string) (index : nat)
    (readAsDataURL : ImageUploadSlot.File -> ImageUploadSlot.reading)
    (files : list ImageUploadSlot.File) : M unit :=
  ImageUploadSlot.handleFileInput index (NinePictureGrid.handleImageUpload images user index)
    readAsDataURL (isAuthenticated user) files.

Definition slot_mouse_down (images : list string) (index : nat) : M unit :=
  ImageUploadSlot.handleMouseDown (array_get images index) NinePictureGrid.handleImageZoom.

(** ** [lib/supabase-client] *)

Module SupabaseClient.

(** [process.env]: a variable is a string or undefined. *)
Record env : Type := {
  NEXT_PUBLIC_SUPABASE_URL : option string;
  NEXT_PUBLIC_SUPABASE_ANON_KEY : option string
}.

(** A client: what [createClient] was given, and which call of [createClient]
    made it, which tells two clients apart. *)
Record client : Type := { supabaseUrl : string; supabaseAnonKey : string; made_by : nat }.

(** The variables of the module, and the number of clients made so far. *)
Record vars : Type := {
  supabaseInstance : option client;
  instanceCount : Z;
  created : nat
}.

Definition initial : vars := {| supabaseInstance := None; instanceCount := 0; created := 0 |}.

(** [!v] is false: a string that is not empty. *)
Definition truthy (v : option string) : option string :=
  match v with
  | Some (String c r) => Some (String c r)
  | _ => None
  end.

Definition getSupabaseClient (e : env) (v : vars) : result client * vars :=
  match supabaseInstance v with
  | Some c => (Normal c, v)
  | None =>
      match truthy (NEXT_PUBLIC_SUPABASE_URL e), truthy (NEXT_PUBLIC_SUPABASE_ANON_KEY e) with
      | Some url, Some key =>
          let c := {| supabaseUrl := url; supabaseAnonKey := key; made_by := created v |} in
          (Normal c,
           {| supabaseInstance := Some c; instanceCount := instanceCount v;
              created := S (created v) |})
      | _, _ => (Thrown "Supabase URL or Anon Key is missing", v)
      end
  end.

Definition __getInstanceCount (v : vars) : Z := instanceCount v.

Definition __resetSupabaseClient (v : vars) : vars :=
  {| supabaseInstance := None; instanceCount := 0; created := created v |}.

(** What the rest of the program can ask of the module. *)
Inductive request : Type := Get | Count | Reset.

Definition serve (e : env) (r : request) (v : vars) : vars :=
  match r with
  | Get => snd (getSupabaseClient e v)
  | Count => v
  | Reset => __resetSupabaseClient v
  end.

Definition serve_all (e : env) (rs : list request) (v : vars) : vars :=
  fold_left (fun v r => serve e r v) rs v.

End SupabaseClient.

(** ** [components/debug-panel] *)

Module DebugPanel.

Inductive connection : Type := Checking | Connected | ConnectionError.

Inductive bucket : Type := BucketChecking | BucketExists | BucketError | NotChecked.

(** The state of the panel; [bucketDetails] is [{ name, url }]. *)
Record state : Type := {
  supabaseStatus : connection;
  supabaseError : option string;
  bucketStatus : bucket;
  bucketError : option string;
  bucketDetails : option (string * string)
}.

Definition initial : state :=
  {| supabaseStatus := Checking; supabaseError := None; bucketStatus := NotChecked;
     bucketError := None; bucketDetails := None |}.

Definition set_connection (p : state) (c : connection) (e : option string) : state :=
  {| supabaseStatus := c; supabaseError := e; bucketStatus := bucketStatus p;
     bucketError := bucketError p; bucketDetails := bucketDetails p |}.

Definition set_bucket (p : state) (b : bucket) (e : option string)
    (d : option (string * string)) : state :=
  {| supabaseStatus := supabaseStatus p; supabaseError := supabaseError p;
     bucketStatus := b; bucketError := e; bucketDetails := d |}.

(** [checkSupabaseConnection]; the service is the panel's own
    [supabaseService.current]. An error is shown by its message. *)
Definition checkSupabaseConnection (p : state) : M state :=
  let p1 := set_connection p Checking None in
  try_catch
    (do r <- SupabaseService.testConnection;
     let '(success, error) := r in
     if success : bool then ret (set_connection p1 Connected None)
     else ret (set_connection p1 ConnectionError error))
    (fun error => ret (set_connection p1 ConnectionError (Some error))).

(** A string in a template literal: undefined prints as [undefined]. *)
Definition show (v : option string) : string :=
  match v with
  | Some x => x
  | None => "undefined"
  end.

(** [checkBucketStatus]; [supabaseUrl] is [process.env.NEXT_PUBLIC_SUPABASE_URL]. *)
Definition checkBucketStatus (supabaseUrl : option string) (p : state) : M state :=
  let p1 := set_bucket p BucketChecking None None in
  try_catch
    (run addLog ("Checking if bucket " ++ SupabaseService.quoted DEFAULT_BUCKET_NAME
                 ++ " exists") Info;
     do bucketExists <- SupabaseService.ensureBucketExists;
     if bucketExists : bool then
       let bucketUrl :=
         show supabaseUrl ++ "/storage/v1/object/public/" ++ DEFAULT_BUCKET_NAME in
       run addLog ("Bucket " ++ SupabaseService.quoted DEFAULT_BUCKET_NAME
                   ++ " exists and is accessible") Success;
       ret (set_bucket p1 BucketExists None (Some (DEFAULT_BUCKET_NAME, bucketUrl)))
     else
       let message :=
         "Failed to ensure bucket " ++ SupabaseService.quoted DEFAULT_BUCKET_NAME
         ++ " exists" in
       run addLog message Error;
       ret (set_bucket p1 BucketError (Some message) None))
    (fun error =>
       run addLog ("Error checking bucket status: " ++ error) Error;
       ret (set_bucket p1 BucketError (Some error) None)).

End DebugPanel.

(** ** [context/auth-context] and [components/auth/auth-form] *)

Module AuthContext.

(** [supabase.auth.getSession()], as it resolves. *)
Definition getSession : M (Storage.response (option string)) :=
  external AuthGetSession (fun E st => (Storage.ok (session E), st)).

(** The state of the provider; a session is known by its user. *)
Record state : Type := { user : option string; session : option string; loading : bool }.

Definition initial : state := {| user := None; session := None; loading := true |}.

Definition setLoading (a : state) (b : bool) : state :=
  {| user := user a; session := session a; loading := b |}.

(** [setSession(session); setUser(session.user)] *)
Definition setSession (a : state) (s : option string) : state :=
  {| user := s; session := s; loading := loading a |}.

Definition initAuth (a : state) : M state :=
  let a1 := setLoading a true in
  do a2 <-
    try_catch
      (run addLog "Initializing authentication state" Info;
       do r <- getSession;
       match Storage.error r with
       | Some error => throw error
       | None =>
           do found <- SupabaseService.deref (Storage.data r);
           match found with
           | Some u =>
               run addLog "User session restored" Success;
               ret (setSession a1 (Some u))
           | None =>
               run addLog "No active session found" Info;
               ret a1
           end
       end)
      (fun error =>
         run addLog "Error initializing auth state" Error;
         ret a1);
  ret (setLoading a2 false).

(** The listener given to [onAuthStateChange]. *)
Definition onAuthStateChange (event : string) (new_session : option string) (a : state)
  : M state :=
  run addLog ("Auth state changed: " ++ event) Info;
  ret (setSession a new_session).

(** How a call of [supabase.auth.signUp], [signInWithPassword] or [signOut]
    ends: it resolves with [{ data: { user }, error: null }], it resolves
    with an error, or it throws. *)
Inductive reply : Type :=
| Data (user : option string)
| Refused (message : string)
| Raised (message : string).

(** [const { data, error } = await call]: the user of [data] and the error. *)
Definition await (r : reply) : M (option string * option string) :=
  match r with
  | Data u => ret (u, None)
  | Refused message => ret (None, Some message)
  | Raised message => throw message
  end.

(** The result [{ success, error }]. *)
Definition signUp (r : reply) : M (bool * option string) :=
  try_catch
    (run addLog "Attempting to sign up user" Info;
     do answer <- await r;
     match snd answer with
     | Some message =>
         run addLog "Sign up failed" Error;
         ret (false, Some message)
     | None =>
         run addLog "Sign up successful" Success;
         ret (true, None)
     end)
    (fun error =>
       run addLog "Exception during sign up" Error;
       ret (false, Some error)).

(** [signIn] reads [data.user.id] where [signUp] reads [data.user?.id]. *)
Definition signIn (r : reply) : M (bool * option string) :=
  try_catch
    (run addLog "Attempting to sign in user" Info;
     do answer <- await r;
     match snd answer with
     | Some message =>
         run addLog "Sign in failed" Error;
         ret (false, Some message)
     | None =>
         do _user <- SupabaseService.deref (fst answer);
         run addLog "Sign in successful" Success;
         ret (true, None)
     end)
    (fun error =>
       run addLog "Exception during sign in" Error;
       ret (false, Some error)).

Definition signOut (r : reply) : M unit :=
  try_catch
    (run addLog "Signing out user" Info;
     do _answer <- await r;
     addLog "User signed out successfully" Success)
    (fun error => addLog "Error signing out" Error).

End AuthContext.

Module AuthForm.

Inductive AuthMode : Type := signin | signup.

Record state : Type := {
  mode : AuthMode;
  email : string;
  password : string;
  loading : bool;
  error : option string;
  success : option string
}.

Definition initial : state :=
  {| mode := signin; email := EmptyString; password := EmptyString; loading := false;
     error := None; success := None |}.

Definition toggleMode (f : state) : state :=
  {| mode := match mode f with signin => signup | signup => signin end;
     email := email f; password := password f; loading := loading f;
     error := None; success := None |}.

Definition shown (f : state) (l : bool) (e s : option string) : state :=
  {| mode := mode f; email := email f; password := password f; loading := l;
     error := e; success := s |}.

(** [!success && error]: the error counts when it is a string that is not
    empty. *)
Definition failed (r : bool * option string) : option string :=
  match r with
  | (false, Some (String c m)) => Some (String c m)
  | _ => None
  end.

(** [handleSubmit(e)]; [r] is how the call to the provider ends. *)
Definition handleSubmit (r : AuthContext.reply) (f : state) : M state :=
  let f1 := shown f true None None in
  do f2 <-
    try_catch
      (match mode f with
       | signin =>
           do result <- AuthContext.signIn r;
           match failed result with
           | Some error => ret (shown f1 true (Some error) None)
           | None => ret (shown f1 true None (Some "Signed in successfully!"))
           end
       | signup =>
           do result <- AuthContext.signUp r;
           match failed result with
           | Some error => ret (shown f1 true (Some error) None)
           | None =>
               ret (shown f1 true None
                      (Some "Signed up successfully! Please check your email for verification."))
           end
       end)
      (fun err =>
         ret (shown f1 true (Some "An unexpected error occurred. Please try again.") None));
  ret (shown f2 false (error f2) (success f2)).

End AuthForm.

(** ** [components/tabs] *)

Module Tabs.

Record Tab : Type := { id : string; label : string }.

(** [useState(defaultTabId || tabs[0].id)]: reading [id] of a missing first
    tab throws. *)
Definition initial (tabs : list Tab) (defaultTabId : option string) : result string :=
  match defaultTabId with
  | Some (String c r) => Normal (String c r)
  | _ =>
      match tabs with
      | t :: _ => Normal (id t)
      | [] => Thrown "TypeError: Cannot read properties of undefined"
      end
  end.

(** The tabs whose content is shown ([block]); the others are [hidden]. *)
Definition visible (tabs : list Tab) (activeTab : string) : list Tab :=
  List.filter (fun t => String.eqb activeTab (id t)) tabs.

End Tabs.

(** ** A concrete world *)

(** A configured browser with a canvas and a network that lets every call
    through; [user] is the signed-in user, if any. *)
Definition sample_env (user : option string) : environment :=
  {| has_config := true;
     session := user;
     public_url := fun b n => "https://x.supabase.co/storage/v1/object/public/" ++ b ++ "/" ++ n;
     clock := fun n => 1700000000000 + Z.of_nat n;
     faults := fun _ => Answers;
     decode := fun d => if JS.startsWith d "data:image/" then Some (400, 300) else None;
     context2d := true;
     toDataURL := fun c _ _ => "data:image/jpeg;base64,QUJD";
     atob := fun b => Some b |}.

Definition with_faults (E : environment) (f : nat -> fault) : environment :=
  {| has_config := has_config E; session := session E; public_url := public_url E;
     clock := clock E; faults := f; decode := decode E; context2d := context2d E;
     toDataURL := toDataURL E; atob := atob E |}.

Definition without_canvas (E : environment) : environment :=
  {| has_config := has_config E; session := session E; public_url := public_url E;
     clock := clock E; faults := faults E; decode := decode E; context2d := false;
     toDataURL := toDataURL E; atob := atob E |}.

(** A provider that holds the application's bucket with the given objects. *)
Definition sample_store (names : list string) : store :=
  {| buckets := [ {| bucket_name := DEFAULT_BUCKET_NAME; bucket_public := true;
                     fileSizeLimit := Some 5242880 |} ];
     objects := List.map (fun n => (DEFAULT_BUCKET_NAME, n)) names |}.

Definition sample_url (n : string) : string :=
  "https://x.supabase.co/storage/v1/object/public/nine-picture-grid-images/" ++ n.


(** * Properties *)

(** ** Running a computation step by step *)

(** The state after [this.log(message, l)]. *)
Definition logged (message : string) (l : level) (s : state) : state :=
  if logger (svc s) then set_logs s ({| message := message; severity := l |} :: logs s)
  else s.

Lemma log_run message l E s :
  SupabaseService.log message l E s = (Normal tt, logged message l s).
Proof.
  unfold SupabaseService.log, logged, bind, get, addLog, modify, ret.
  destruct (logger (svc s)); reflexivity.
Qed.

Lemma logged_remote m l s : remote (logged m l s) = remote s.
Proof. unfold logged; destruct (logger (svc s)); reflexivity. Qed.
Lemma logged_trace m l s : trace (logged m l s) = trace s.
Proof. unfold logged; destruct (logger (svc s)); reflexivity. Qed.
Lemma logged_alerts m l s : alerts (logged m l s) = alerts s.
Proof. unfold logged; destruct (logger (svc s)); reflexivity. Qed.
Lemma logged_svc m l s : svc (logged m l s) = svc s.
Proof. unfold logged; destruct (logger (svc s)); reflexivity. Qed.
Lemma logged_ui m l s : ui (logged m l s) = ui s.
Proof. unfold logged; destruct (logger (svc s)); reflexivity. Qed.
Lemma logged_slot_ui m l s : slot_ui (logged m l s) = slot_ui s.
Proof. unfold logged; destruct (logger (svc s)); reflexivity. Qed.
Lemma logged_logs m l s :
  logs (logged m l s) =
  ((if logger (svc s) then [{| message := m; severity := l |}] else []) ++ logs s)%list.
Proof. unfold logged; destruct (logger (svc s)); reflexivity. Qed.

Create Rewrite HintDb state.
#[global] Hint Rewrite logged_remote logged_trace logged_alerts logged_svc logged_ui
  logged_slot_ui logged_logs : state.

(** The calls made between [s] and a later state [s']. *)
Definition calls_since (s s' : state) : list (call * outcome) :=
  skipn (List.length (trace s)) (trace s').

(** The log entries added between [s] and a later state [s'] (newest first). *)
Definition logged_since (s s' : state) : list log_entry :=
  firstn (List.length (logs s') - List.length (logs s)) (logs s').

Definition is_error (e : log_entry) : bool :=
  match severity e with Error => true | _ => false end.

Definition call_failed (c : call * outcome) : bool := negb (succeeded (snd c)).

(** Unfold the plumbing of the monad, one layer. *)
Ltac plumb :=
  cbv beta iota delta [bind ret throw try_catch finally ask get read modify detached
                       SupabaseService.getClient SupabaseService.this_bucketName
                       SupabaseService.set_bucketInitialized SupabaseService.deref
                       SupabaseService.getPublicUrl Date_now].

Ltac run_log := rewrite !log_run.

(** Case analysis on what the network does to the next call. *)
Ltac on_fault :=
  match goal with
  | |- context [external _ _ ?E ?s] =>
      unfold external at 1;
      let F := fresh "F" in destruct (faults E (List.length (trace s))) eqn:F
  end.

(** ** What a computation leaves alone *)

(** [m] relates every state to the state it ends in, whatever it returns. *)
Definition preserves {A} (R : state -> state -> Prop) (m : M A) : Prop :=
  forall E s, R s (snd (m E s)).

Section Preserves.
Context (R : state -> state -> Prop) `{!PreOrder R}.

Lemma preserves_ret {A} (a : A) : preserves R (ret a).
Proof. intros E s; reflexivity. Qed.

Lemma preserves_throw {A} e : preserves R (@throw A e).
Proof. intros E s; reflexivity. Qed.

Lemma preserves_ask {A} (f : environment -> A) : preserves R (ask f).
Proof. intros E s; reflexivity. Qed.

Lemma preserves_get {A} (f : state -> A) : preserves R (get f).
Proof. intros E s; reflexivity. Qed.

Lemma preserves_read {A} (f : environment -> state -> A) : preserves R (read f).
Proof. intros E s; reflexivity. Qed.

Lemma preserves_modify f : (forall s, R s (f s)) -> preserves R (modify f).
Proof. intros H E s; apply H. Qed.

Lemma preserves_bind {A B} (m : M A) (k : A -> M B) :
  preserves R m -> (forall a, preserves R (k a)) -> preserves R (bind m k).
Proof.
  intros Hm Hk E s. unfold bind. specialize (Hm E s).
  destruct (m E s) as [[a | e] s1]; cbn in *.
  - etransitivity; [exact Hm | apply Hk].
  - exact Hm.
Qed.

Lemma preserves_try_catch {A} (m : M A) (h : string -> M A) :
  preserves R m -> (forall e, preserves R (h e)) -> preserves R (try_catch m h).
Proof.
  intros Hm Hh E s. unfold try_catch. specialize (Hm E s).
  destruct (m E s) as [[a | e] s1]; cbn in *.
  - exact Hm.
  - etransitivity; [exact Hm | apply Hh].
Qed.

Lemma preserves_finally {A} (m : M A) (f : M unit) :
  preserves R m -> preserves R f -> preserves R (finally m f).
Proof.
  intros Hm Hf E s. unfold finally. specialize (Hm E s).
  destruct (m E s) as [r s1]; cbn in *. specialize (Hf E s1).
  destruct (f E s1) as [[u | e] s2]; cbn in *; etransitivity; eauto.
Qed.

Lemma preserves_detached (m : M unit) : preserves R m -> preserves R (detached m).
Proof. intros Hm E s. apply Hm. Qed.

(** A call: whatever the provider does to its own state and however the
    call ends, the recorded step is in [R]. *)
Lemma preserves_external {A} c (answer : environment -> store -> Storage.response A * store) :
  (forall E s o, R s (record c o (set_remote s (snd (answer E (remote s)))))) ->
  (forall s o, R s (record c o s)) ->
  preserves R (external c answer).
Proof.
  intros Ha Hr E s. unfold external.
  destruct (faults E (List.length (trace s))).
  - specialize (Ha E s). destruct (answer E (remote s)) as [r st]; cbn in *. apply Ha.
  - apply Hr.
  - apply Hr.
Qed.
End Preserves.

(** Break a computation into its steps. *)
Ltac frame_step :=
  match goal with
  | |- preserves ?R (bind ?m ?k) => refine (preserves_bind R m k _ _); [ | intros ? ]
  | |- preserves ?R (try_catch ?m ?h) => refine (preserves_try_catch R m h _ _); [ | intros ? ]
  | |- preserves ?R (finally ?m ?f) => refine (preserves_finally R m f _ _)
  | |- preserves ?R (detached ?m) => refine (preserves_detached R m _)
  | |- preserves ?R (ret ?a) => exact (preserves_ret R a)
  | |- preserves ?R (throw ?e) => exact (preserves_throw R e)
  | |- preserves ?R (ask ?f) => exact (preserves_ask R f)
  | |- preserves ?R (get ?f) => exact (preserves_get R f)
  | |- preserves ?R (read ?f) => exact (preserves_read R f)
  | |- preserves _ (match ?x with _ => _ end) => destruct x
  | |- preserves _ (let _ := _ in _) => cbv zeta
  end.

(** What no method of the service touches: the page, the logger and the
    bucket name; a bucket flag that is set stays set; the trace and the log
    only grow. *)
Record extends (s s' : state) : Prop := {
  ext_ui : ui s' = ui s;
  ext_slot_ui : slot_ui s' = slot_ui s;
  ext_alerts : alerts s' = alerts s;
  ext_logger : logger (svc s') = logger (svc s);
  ext_name : bucketName (svc s') = bucketName (svc s);
  ext_initialized :
    bucketInitialized (svc s) = true -> bucketInitialized (svc s') = true;
  ext_trace : exists t, trace s' = (trace s ++ t)%list;
  ext_logs : exists l, logs s' = (l ++ logs s)%list
}.

#[global] Instance extends_preorder : PreOrder extends.
Proof.
  split.
  - intros s. split; try reflexivity; auto.
    + exists []. symmetry; apply app_nil_r.
    + exists []. reflexivity.
  - intros a b c [] []. split; try congruence; auto.
    + destruct ext_trace0 as [t1 H1], ext_trace1 as [t2 H2].
      exists (t1 ++ t2)%list. rewrite H2, H1. symmetry; apply app_assoc.
    + destruct ext_logs0 as [l1 H1], ext_logs1 as [l2 H2].
      exists (l2 ++ l1)%list. rewrite H2, H1. apply app_assoc.
Qed.

Lemma extends_record c o s : extends s (record c o s).
Proof.
  split; try reflexivity; auto.
  - exists [(c, o)]. reflexivity.
  - exists []. reflexivity.
Qed.

Lemma extends_set_remote s st : extends s (set_remote s st).
Proof.
  split; try reflexivity; auto.
  - exists []. symmetry; apply app_nil_r.
  - exists []. reflexivity.
Qed.

Lemma extends_addLog m l : preserves extends (addLog m l).
Proof.
  refine (preserves_modify _ _ _). intros s.
  split; try reflexivity; auto.
  - exists []. symmetry; apply app_nil_r.
  - exists [{| message := m; severity := l |}]. reflexivity.
Qed.

Lemma extends_log m l : preserves extends (SupabaseService.log m l).
Proof.
  unfold SupabaseService.log. repeat frame_step. apply extends_addLog.
Qed.

Lemma extends_external {A} c (answer : environment -> store -> Storage.response A * store) :
  preserves extends (external c answer).
Proof.
  refine (preserves_external _ _ _ _ _).
  - intros E s o. etransitivity; [ apply extends_set_remote | apply extends_record ].
  - intros s o. apply extends_record.
Qed.

Lemma extends_set_bucketInitialized :
  preserves extends (SupabaseService.set_bucketInitialized true).
Proof.
  refine (preserves_modify _ _ _). intros s.
  split; try reflexivity; auto.
  - exists []. symmetry; apply app_nil_r.
  - exists []. reflexivity.
Qed.

Lemma extends_getClient : preserves extends SupabaseService.getClient.
Proof. intros E s. unfold SupabaseService.getClient. destruct (has_config E); reflexivity. Qed.

Create HintDb frame.
#[global] Hint Resolve extends_log extends_external extends_set_bucketInitialized
  extends_getClient extends_addLog : frame.

Ltac frame := repeat (first [ frame_step | solve [ auto with frame ] ]).

Lemma extends_ensureBucketExists : preserves extends SupabaseService.ensureBucketExists.
Proof.
  unfold SupabaseService.ensureBucketExists, SupabaseService.this_bucketName,
    SupabaseService.deref.
  frame.
Qed.

(** ** Following a method through its branches *)

Lemma record_length c o s : List.length (trace (record c o s)) = S (List.length (trace s)).
Proof. cbn. rewrite length_app. cbn. lia. Qed.

Lemma length_snoc {A} (l : list A) (a : A) : List.length (l ++ [a]) = S (List.length l).
Proof. rewrite length_app. cbn. lia. Qed.

#[global] Hint Rewrite record_length @length_snoc : state.

Ltac simp_state :=
  cbn [remote trace alerts logs svc ui slot_ui set_remote set_trace set_alerts set_logs
       set_svc set_ui set_slot_ui logger bucketName bucketInitialized buckets objects
       Storage.error Storage.ok Storage.data Storage.failed Storage.outcome_of fst snd
       record negb] in *.

(** One step of a method: a log line, a call (with the three things the
    network can do to it), the plumbing, a test. *)
Ltac exec_step :=
  first
    [ rewrite log_run
    | on_fault
    | progress plumb
    | progress unfold Storage.listBuckets, Storage.createBucket, Storage.listObjects,
        Storage.has_bucket
    | progress (autorewrite with state in * )
    | match goal with
      | H : ?b = _ |- context [if ?b then _ else _] => rewrite H
      | H : ?b = _ |- context [match ?b with _ => _ end] => rewrite H
      end
    | match goal with
      | |- context [if ?b then _ else _] =>
          lazymatch b with
          | context [if _ then _ else _] => fail
          | _ => let H := fresh "B" in destruct b eqn:H
          end
      end
    | progress unfold record at 1
    | progress simp_state ].

Ltac exec := repeat exec_step.

(** What a run of [ensureBucketExists] from [s] that returns [b] in [s'] has
    done: [t] are the calls it made and [l] the log lines it wrote. *)
Record ensured (E : environment) (s : state) (b : bool) (s' : state)
    (t : list (call * outcome)) (l : list log_entry) : Prop := {
  en_trace : trace s' = (trace s ++ t)%list;
  en_logs : logs s' = (l ++ logs s)%list;
  en_objects : objects (remote s') = objects (remote s);
  en_buckets :
    forall n, Storage.has_bucket (remote s) n = true ->
              Storage.has_bucket (remote s') n = true;
  en_flag : bucketInitialized (svc s') = bucketInitialized (svc s) || b;
  en_cached :
    bucketInitialized (svc s) = true -> b = true /\ t = [] /\ l = [] /\ s' = s;
  en_calls : b = true -> Forall (fun c => call_failed c = false) t;
  en_found :
    b = true -> bucketInitialized (svc s) = false ->
    has_config E = true /\ Storage.has_bucket (remote s') (bucketName (svc s)) = true;
  en_failed : b = false -> logger (svc s) = true -> Exists (fun e => is_error e = true) l;
  en_clear :
    has_config E = true ->
    faults E (List.length (trace s)) = Answers ->
    faults E (S (List.length (trace s))) = Answers ->
    b = true;
  en_kind : Forall (fun c => is_bucket_call (fst c) = true) t
}.

Lemma has_bucket_app st n extra :
  Storage.has_bucket st n = true ->
  Storage.has_bucket {| buckets := buckets st ++ extra; objects := objects st |} n = true.
Proof.
  unfold Storage.has_bucket; cbn. rewrite existsb_app. intros ->. reflexivity.
Qed.

Lemma has_bucket_created st n :
  Storage.has_bucket
    {| buckets := buckets st ++ [{| bucket_name := n; bucket_public := true;
                                    fileSizeLimit := Some 5242880 |}];
       objects := objects st |} n = true.
Proof.
  unfold Storage.has_bucket; cbn. rewrite existsb_app. cbn.
  rewrite String.eqb_refl. apply orb_true_iff. right. reflexivity.
Qed.

Ltac norm := repeat (progress (simp_state; autorewrite with state in * )).

(** The fields of [ensured], one tactic each. *)
Ltac ensured_fields :=
  split;
    [ norm; first [ rewrite <- !app_assoc; reflexivity | reflexivity
                  | symmetry; apply app_nil_r ]
    | norm; first [ rewrite !app_assoc; reflexivity | reflexivity
                  | exact (eq_refl : _ = ([] ++ _)%list) ]
    | norm; reflexivity
    | intros; norm; first [ assumption | apply has_bucket_app; assumption ]
    | norm; repeat match goal with H : bucketInitialized _ = _ |- _ => rewrite H end;
      reflexivity
    | intros; first [ congruence | repeat split; reflexivity ]
    | intros; first [ congruence | repeat constructor ]
    | intros; first [ congruence
                    | split; [ assumption
                             | norm; first [ apply has_bucket_created | assumption ] ] ]
    | intros Hb Hl; first [ congruence
                          | rewrite Hl; apply Exists_cons_hd; reflexivity ]
    | intros; norm; first [ reflexivity | congruence ]
    | repeat constructor ].

Lemma ensureBucketExists_spec E s :
  exists b s' t l,
    SupabaseService.ensureBucketExists E s = (Normal b, s') /\ ensured E s b s' t l.
Proof.
  unfold SupabaseService.ensureBucketExists.
  exec; try congruence.
  all: eexists _, _, _, _; (split; [ reflexivity | ]); once ensured_fields.
Qed.

(** A service whose bucket flag is set answers from the flag: no call, no
    log line, the same state. *)
Lemma ensureBucketExists_cached E s :
  bucketInitialized (svc s) = true ->
  SupabaseService.ensureBucketExists E s = (Normal true, s).
Proof.
  intros H. unfold SupabaseService.ensureBucketExists. plumb. rewrite H. reflexivity.
Qed.

(** ** The methods of the service leave the page alone *)

Lemma extends_auth_getSession : preserves extends SupabaseService.auth_getSession.
Proof. unfold SupabaseService.auth_getSession. frame. Qed.

Lemma extends_base64ToBlob b c : preserves extends (SupabaseService.base64ToBlob b c).
Proof. unfold SupabaseService.base64ToBlob. frame. Qed.

#[global] Hint Resolve extends_ensureBucketExists extends_auth_getSession
  extends_base64ToBlob : frame.

Lemma extends_uploadImage d n : preserves extends (SupabaseService.uploadImage d n).
Proof.
  unfold SupabaseService.uploadImage, SupabaseService.this_bucketName,
    SupabaseService.getPublicUrl, Date_now.
  frame.
Qed.

Lemma extends_getGridImages : preserves extends SupabaseService.getGridImages.
Proof.
  unfold SupabaseService.getGridImages, SupabaseService.this_bucketName.
  frame.
Qed.

Lemma extends_deleteImage n : preserves extends (SupabaseService.deleteImage n).
Proof.
  unfold SupabaseService.deleteImage, SupabaseService.this_bucketName.
  frame.
Qed.

Lemma extends_setLogger_flag E s :
  bucketInitialized (svc (snd (SupabaseService.setLogger E s))) = bucketInitialized (svc s).
Proof.
  unfold SupabaseService.setLogger. plumb. rewrite log_run. cbn [snd].
  rewrite logged_svc. reflexivity.
Qed.

Lemma calls_since_app s s' t : trace s' = (trace s ++ t)%list -> calls_since s s' = t.
Proof. intros H. unfold calls_since. rewrite H. apply drop_app_length. Qed.

Lemma calls_since_same s : calls_since s s = [].
Proof. apply calls_since_app. symmetry; apply app_nil_r. Qed.

(** ** The bucket check *)

Lemma perform_keeps_flag o E s :
  bucketInitialized (svc s) = true ->
  bucketInitialized (svc (snd (perform o E s))) = true.
Proof.
  intros H. destruct o; cbn [perform].
  - refine (ext_initialized _ _ (preserves_bind extends _ _ _ _ E s) H);
      [ apply extends_ensureBucketExists | intros; apply preserves_ret; typeclasses eauto ].
  - refine (ext_initialized _ _ (preserves_bind extends _ _ _ _ E s) H);
      [ apply extends_uploadImage | intros; apply preserves_ret; typeclasses eauto ].
  - refine (ext_initialized _ _ (preserves_bind extends _ _ _ _ E s) H);
      [ apply extends_getGridImages | intros; apply preserves_ret; typeclasses eauto ].
  - refine (ext_initialized _ _ (preserves_bind extends _ _ _ _ E s) H);
      [ apply extends_deleteImage | intros; apply preserves_ret; typeclasses eauto ].
  - rewrite extends_setLogger_flag. exact H.
Qed.

Lemma after_keeps_flag ops s :
  bucketInitialized (svc s) = true -> bucketInitialized (svc (after ops s)) = true.
Proof.
  revert s. induction ops as [ | [E o] rest IH ]; intros s H; cbn [after].
  - exact H.
  - apply IH. apply perform_keeps_flag. exact H.
Qed.

Lemma ensureBucketExists_sets_flag E s s1 :
  SupabaseService.ensureBucketExists E s = (Normal true, s1) ->
  bucketInitialized (svc s1) = true.
Proof.
  intros H. destruct (ensureBucketExists_spec E s) as (b & s' & t & l & Hrun & Hsp).
  rewrite Hrun in H. injection H as -> ->.
  rewrite (en_flag _ _ _ _ _ _ Hsp). apply orb_true_r.
Qed.

Definition created_bucket (name : string) : bucket_info :=
  {| bucket_name := name; bucket_public := true; fileSizeLimit := Some 5242880 |}.

Lemma ensureBucketExists_creates E s :
  bucketInitialized (svc s) = false ->
  has_config E = true ->
  faults E (List.length (trace s)) = Answers ->
  Storage.has_bucket (remote s) (bucketName (svc s)) = false ->
  faults E (S (List.length (trace s))) = Answers ->
  exists s',
    SupabaseService.ensureBucketExists E s = (Normal true, s') /\
    calls_since s s' =
      [ (StorageListBuckets, Resolved);
        (StorageCreateBucket (bucketName (svc s)) true 5242880, Resolved) ] /\
    buckets (remote s') = (buckets (remote s) ++ [created_bucket (bucketName (svc s))])%list /\
    objects (remote s') = objects (remote s).
Proof.
  intros Hi Hc F1 Hb F2. unfold Storage.has_bucket in Hb.
  unfold SupabaseService.ensureBucketExists.
  exec; norm; try congruence.
  eexists. split; [ reflexivity | ]. split; [ | split ].
  - apply calls_since_app. norm. rewrite <- app_assoc. reflexivity.
  - norm. reflexivity.
  - norm. reflexivity.
Qed.

Lemma ensureBucketExists_listing_fails E s :
  bucketInitialized (svc s) = false ->
  faults E (List.length (trace s)) <> Answers ->
  exists s',
    SupabaseService.ensureBucketExists E s = (Normal false, s') /\
    Forall (fun c => fst c = StorageListBuckets) (calls_since s s') /\
    remote s' = remote s.
Proof.
  intros Hi F1.
  unfold SupabaseService.ensureBucketExists.
  exec; norm; try congruence.
  all: eexists; (split; [ reflexivity | ]); split; [ | norm; reflexivity ].
  - erewrite calls_since_app by (norm; reflexivity). repeat constructor.
  - erewrite calls_since_app by (norm; reflexivity). repeat constructor.
  - erewrite calls_since_app by (norm; symmetry; apply app_nil_r). constructor.
Qed.

Lemma ensureBucketExists_creation_fails E s :
  bucketInitialized (svc s) = false ->
  faults E (List.length (trace s)) = Answers ->
  Storage.has_bucket (remote s) (bucketName (svc s)) = false ->
  faults E (S (List.length (trace s))) <> Answers ->
  exists s',
    SupabaseService.ensureBucketExists E s = (Normal false, s') /\ remote s' = remote s.
Proof.
  intros Hi F1 Hb F2. unfold Storage.has_bucket in Hb.
  unfold SupabaseService.ensureBucketExists.
  exec; norm; try congruence.
  all: eexists; (split; [ reflexivity | ]); norm; reflexivity.
Qed.

(** C6: [ensureBucketExists] caches its success. Once a call has returned
    true, every later call on the same service, after any other operations
    and in any environment, returns true and leaves the state as it is: no
    call is made. A service that finds the bucket absent creates it public
    with a size limit of 5242880 bytes (5 MB). The check returns false when
    the listing fails (no creation is then attempted), and when the bucket is
    absent and the creation fails; so also when both fail. *)
Theorem C6_ensureBucketExists_caches_success (E : environment) (s : state) :
  (forall s1,
      SupabaseService.ensureBucketExists E s = (Normal true, s1) ->
      forall ops E',
        SupabaseService.ensureBucketExists E' (after ops s1) = (Normal true, after ops s1) /\
        calls_since (after ops s1)
          (snd (SupabaseService.ensureBucketExists E' (after ops s1))) = []) /\
  (bucketInitialized (svc s) = false ->
   has_config E = true ->
   faults E (List.length (trace s)) = Answers ->
   Storage.has_bucket (remote s) (bucketName (svc s)) = false ->
   faults E (S (List.length (trace s))) = Answers ->
   exists s',
     SupabaseService.ensureBucketExists E s = (Normal true, s') /\
     calls_since s s' =
       [ (StorageListBuckets, Resolved);
         (StorageCreateBucket (bucketName (svc s)) true (5 * 1024 * 1024), Resolved) ] /\
     buckets (remote s') =
       (buckets (remote s) ++
        [ {| bucket_name := bucketName (svc s); bucket_public := true;
             fileSizeLimit := Some (5 * 1024 * 1024) |} ])%list) /\
  (bucketInitialized (svc s) = false ->
   faults E (List.length (trace s)) <> Answers ->
   exists s',
     SupabaseService.ensureBucketExists E s = (Normal false, s') /\
     Forall (fun c => fst c = StorageListBuckets) (calls_since s s')) /\
  (bucketInitialized (svc s) = false ->
   faults E (List.length (trace s)) = Answers ->
   Storage.has_bucket (remote s) (bucketName (svc s)) = false ->
   faults E (S (List.length (trace s))) <> Answers ->
   exists s', SupabaseService.ensureBucketExists E s = (Normal false, s')).
Proof.
  repeat split.
  - apply ensureBucketExists_cached, after_keeps_flag.
    eapply ensureBucketExists_sets_flag; eassumption.
  - rewrite ensureBucketExists_cached.
    + apply calls_since_same.
    + apply after_keeps_flag. eapply ensureBucketExists_sets_flag; eassumption.
  - intros Hi Hc F1 Hb F2.
    destruct (ensureBucketExists_creates E s Hi Hc F1 Hb F2) as (s' & Hrun & Hcalls & Hb' & _).
    exists s'. repeat split; assumption.
  - intros Hi F1.
    destruct (ensureBucketExists_listing_fails E s Hi F1) as (s' & Hrun & Hcalls & _).
    exists s'. split; assumption.
  - intros Hi F1 Hb F2.
    destruct (ensureBucketExists_creation_fails E s Hi F1 Hb F2) as (s' & Hrun & _).
    exists s'. exact Hrun.
Qed.

(** A store without the application's bucket. *)
Definition empty_store : store := {| buckets := []; objects := [] |}.

(** The network fails the call number [n] and lets the others through. *)
Definition failing_at (n : nat) : nat -> fault :=
  fun i => if (i =? n)%nat then Fails "Failed to fetch" else Answers.

Definition failing_all : nat -> fault := fun _ => Fails "Failed to fetch".

Lemma C6_ensureBucketExists_caches_success_witness :
  (let s1 := snd (SupabaseService.ensureBucketExists (sample_env None) (start (sample_store []))) in
   let ops := [ (sample_env (Some "u1"), UploadImage "data:image/jpeg;base64,QUJD" (JS.Int 2));
                (with_faults (sample_env None) failing_all, GetGridImages) ] in
   SupabaseService.ensureBucketExists (with_faults (sample_env None) failing_all) (after ops s1)
   = (Normal true, after ops s1)) /\
  (exists s',
     SupabaseService.ensureBucketExists (sample_env None) (start empty_store) = (Normal true, s') /\
     buckets (remote s') =
       [ {| bucket_name := DEFAULT_BUCKET_NAME; bucket_public := true;
            fileSizeLimit := Some 5242880 |} ]) /\
  (exists s',
     SupabaseService.ensureBucketExists (with_faults (sample_env None) failing_all)
       (start empty_store) = (Normal false, s')) /\
  (exists s',
     SupabaseService.ensureBucketExists (with_faults (sample_env None) (failing_at 1))
       (start empty_store) = (Normal false, s')).
Proof.
  split; [ | split; [ | split ] ].
  - apply (proj1 (C6_ensureBucketExists_caches_success
                    (sample_env None) (start (sample_store [])))).
    vm_compute. reflexivity.
  - destruct (proj1 (proj2 (C6_ensureBucketExists_caches_success
                              (sample_env None) (start empty_store))))
      as (s' & Hrun & _ & Hb); try reflexivity.
    exists s'. split; [ exact Hrun | exact Hb ].
  - destruct (proj1 (proj2 (proj2 (C6_ensureBucketExists_caches_success
                (with_faults (sample_env None) failing_all) (start empty_store)))))
      as (s' & Hrun & _); [ reflexivity | discriminate | ].
    exists s'. exact Hrun.
  - apply (proj2 (proj2 (proj2 (C6_ensureBucketExists_caches_success
             (with_faults (sample_env None) (failing_at 1)) (start empty_store)))));
      try reflexivity; discriminate.
Defined.

(** ** The listing *)

Lemma logged_since_app s s' l : logs s' = (l ++ logs s)%list -> logged_since s s' = l.
Proof.
  intros H. unfold logged_since. rewrite H, length_app.
  replace (List.length l + List.length (logs s) - List.length (logs s))%nat
    with (List.length l) by lia.
  apply take_app_length.
Qed.

Lemma no_failure t c :
  Forall (fun c => call_failed c = false) t -> call_failed c = false ->
  ~ Exists (fun c => call_failed c = true) (t ++ [c]).
Proof.
  intros Ht Hc H. apply Exists_app in H. destruct H as [H | H].
  - apply Exists_exists in H. destruct H as (x & Hin & Hx).
    rewrite Forall_forall in Ht. specialize (Ht x Hin). congruence.
  - inversion H; subst; [ congruence | ]. inversion H1.
Qed.

(** Use what is known about a run of [ensureBucketExists] inside a method. *)
Ltac ensure_here :=
  match goal with
  | |- context [SupabaseService.ensureBucketExists ?E ?s] =>
      let b := fresh "b" in let s1 := fresh "s" in
      let t := fresh "t" in let l := fresh "l" in
      let Hrun := fresh "Hrun" in let Hsp := fresh "Hsp" in
      let Hext := fresh "Hext" in
      destruct (ensureBucketExists_spec E s) as (b & s1 & t & l & Hrun & Hsp);
      pose proof (extends_ensureBucketExists E s) as Hext;
      rewrite Hrun in *; cbn [snd] in Hext
  end.

(** A branch that ended in failure: the result is as claimed and the newest
    log line is an error. *)
Ltac leaf_failure Hlogs Hlogger :=
  split; [ reflexivity | ];
  let Hl := fresh "Hl" in
  intros Hl;
  erewrite logged_since_app by (norm; rewrite ?Hlogs, ?app_assoc; reflexivity);
  rewrite ?Hlogger, Hl; apply Exists_cons_hd; reflexivity.

(** C5: [getGridImages] never throws. Whatever the configuration, the
    provider and the network do, it returns a mapping; and when something
    failed on the way (the configuration is missing, or one of the calls it
    made resolved with an error or threw, the bucket check included) the
    mapping is empty and, with a logger installed, an error line was logged. *)
Theorem C5_getGridImages_never_throws (E : environment) (s : state) :
  exists m s',
    SupabaseService.getGridImages E s = (Normal m, s') /\
    ((has_config E = false \/
      Exists (fun c => call_failed c = true) (calls_since s s')) ->
     m = Obj.empty /\
     (logger (svc s) = true ->
      Exists (fun e => is_error e = true) (logged_since s s'))).
Proof.
  unfold SupabaseService.getGridImages.
  plumb. destruct (has_config E) eqn:C.
  - ensure_here. destruct Hext, Hsp. destruct b.
    + exec; try discriminate.
      all: eexists _, _; (split; [ reflexivity | ]); intros Hf.
      all: first
        [ leaf_failure en_logs0 ext_logger0
        | exfalso; destruct Hf as [Hf | Hf]; [ discriminate | ];
          erewrite calls_since_app in Hf
            by (norm; rewrite en_trace0, <- app_assoc; reflexivity);
          apply no_failure in Hf; solve [ auto ] ].
    + exec; try discriminate.
      all: eexists _, _; (split; [ reflexivity | ]); intros Hf.
      all: leaf_failure en_logs0 ext_logger0.
  - exec. eexists _, _; (split; [ reflexivity | ]); intros Hf. leaf_failure C C.
Qed.

(** A page whose service has its logger. *)
Definition mounted (r : store) : state :=
  snd (SupabaseService.setLogger (sample_env None) (start r)).

Lemma C5_getGridImages_never_throws_witness :
  exists s',
    SupabaseService.getGridImages (with_faults (sample_env None) (failing_at 1))
      (mounted (sample_store ["slot-0-100.jpg"])) = (Normal Obj.empty, s') /\
    Exists (fun e => is_error e = true)
      (logged_since (mounted (sample_store ["slot-0-100.jpg"])) s').
Proof.
  destruct (C5_getGridImages_never_throws
              (with_faults (sample_env None) (failing_at 1))
              (mounted (sample_store ["slot-0-100.jpg"]))) as (m & s' & Hrun & Hfail).
  assert (Hf : Exists (fun c => call_failed c = true)
                 (calls_since (mounted (sample_store ["slot-0-100.jpg"])) s')).
  { vm_compute in Hrun. injection Hrun as _ <-. vm_compute.
    apply Exists_cons_tl, Exists_cons_hd. reflexivity. }
  destruct (Hfail (or_intror Hf)) as [-> Hlog].
  exists s'. split; [ exact Hrun | apply Hlog; reflexivity ].
Defined.

(** The property name under which [getGridImages] files an object: the
    slot number read from its name, as [slotImages[slotNumber]] stores it. *)
Definition slot_key (name : string) : option string :=
  match match_slot name with
  | Some digits => Some (JS.number_to_string (JS.parseInt digits))
  | None => None
  end.

Lemma get_set_eq o k v : Obj.get (Obj.set o k v) k = Some v.
Proof.
  induction o as [ | [k' v'] r IH ]; cbn.
  - rewrite String.eqb_refl. reflexivity.
  - destruct (String.eqb k' k) eqn:Hk; cbn; rewrite Hk; [ reflexivity | exact IH ].
Qed.

Lemma get_set_ne o k v k' : k <> k' -> Obj.get (Obj.set o k v) k' = Obj.get o k'.
Proof.
  intros Hne. induction o as [ | [k0 v0] r IH ]; cbn.
  - destruct (String.eqb k k') eqn:Hk; [ apply String.eqb_eq in Hk; contradiction | reflexivity ].
  - destruct (String.eqb k0 k) eqn:Hk; cbn.
    + apply String.eqb_eq in Hk. subst k0.
      destruct (String.eqb k k') eqn:Hk'; [ apply String.eqb_eq in Hk'; contradiction | reflexivity ].
    + destruct (String.eqb k0 k'); [ reflexivity | exact IH ].
Qed.

Lemma add_file_same url o name key :
  slot_key name = Some key -> Obj.get (SupabaseService.add_file url o name) key = Some (url name).
Proof.
  unfold slot_key, SupabaseService.add_file. destruct (match_slot name); [ | discriminate ].
  intros [= <-]. apply get_set_eq.
Qed.

Lemma add_file_other url o name key :
  slot_key name <> Some key ->
  Obj.get (SupabaseService.add_file url o name) key = Obj.get o key.
Proof.
  unfold slot_key, SupabaseService.add_file. destruct (match_slot name); [ | reflexivity ].
  intros Hne. apply get_set_ne. congruence.
Qed.

Lemma fold_add_file_others url files :
  forall o key,
    (forall n, In n files -> slot_key n <> Some key) ->
    Obj.get (fold_left (SupabaseService.add_file url) files o) key = Obj.get o key.
Proof.
  induction files as [ | f rest IH ]; intros o key H; cbn [fold_left].
  - reflexivity.
  - rewrite IH by (intros n Hn; apply H; right; exact Hn).
    apply add_file_other. apply H. left. reflexivity.
Qed.

(** In the loop of [getGridImages] the last object listed for a key decides. *)
Lemma collect_last_listed url before name after key :
  slot_key name = Some key ->
  (forall n, In n after -> slot_key n <> Some key) ->
  Obj.get (SupabaseService.collect url (before ++ name :: after)) key = Some (url name).
Proof.
  intros Hk Hafter. unfold SupabaseService.collect.
  rewrite fold_left_app. cbn [fold_left].
  rewrite fold_add_file_others by exact Hafter.
  apply add_file_same. exact Hk.
Qed.

(** The spec's reading of a stored object's name, [slot-{n}-{timestamp}.{ext}]:
    the time stamp is the number written after the slot number. *)
Definition object_timestamp (name : string) : option Z :=
  match strip_prefix "slot-" name with
  | Some r =>
      match JS.drop_digits r with
      | String "-" r' =>
          match JS.take_digits r' with
          | EmptyString => None
          | d => Some (JS.digits_value d)
          end
      | _ => None
      end
  | None => None
  end.

(** [name] is an object of [files] filed under [key] whose time stamp no
    other object of that key exceeds. *)
Definition newest_of (files : list string) (key name : string) : Prop :=
  In name files /\ slot_key name = Some key /\
  exists ts, object_timestamp name = Some ts /\
    forall n ts', In n files -> slot_key n = Some key ->
                  object_timestamp n = Some ts' -> ts' <= ts.

(** The claim as the spec words it: the listing resolves every key to the
    URL of its newest object. *)
Definition greatest_timestamp_wins (E : environment) (s : state) : Prop :=
  forall m s' key name,
    SupabaseService.getGridImages E s = (Normal m, s') ->
    newest_of (Storage.listing (remote s) (bucketName (svc s))) key name ->
    Obj.get m key = Some (public_url E (bucketName (svc s)) name).

(** C1 (amended): [getGridImages] resolves a key to the URL of the object
    that comes last in the listing among those filed under that key. The
    provider holds the bucket, the configuration is present and the network
    lets the calls through. *)
Theorem C1_last_listed_object_wins (E : environment) (s : state)
    (before after : list string) (name key : string) :
  has_config E = true ->
  (forall i, faults E i = Answers) ->
  Storage.has_bucket (remote s) (bucketName (svc s)) = true ->
  Storage.listing (remote s) (bucketName (svc s)) = (before ++ name :: after)%list ->
  slot_key name = Some key ->
  (forall n, In n after -> slot_key n <> Some key) ->
  exists m s',
    SupabaseService.getGridImages E s = (Normal m, s') /\
    Obj.get m key = Some (public_url E (bucketName (svc s)) name).
Proof.
  intros Hc Hall Hb Hl Hk Hafter.
  unfold SupabaseService.getGridImages. plumb. rewrite Hc.
  ensure_here.
  destruct Hext as [_ _ _ _ Hname _ _ _].
  destruct Hsp as [_ _ Hobj Hbk _ _ _ _ _ Hclear _].
  assert (b = true) as -> by (apply Hclear; auto).
  assert (Hb0 : Storage.has_bucket (remote s0) (bucketName (svc s0)) = true)
    by (rewrite Hname; apply Hbk, Hb).
  assert (Hl0 : Storage.listing (remote s0) (bucketName (svc s0))
                = (before ++ name :: after)%list)
    by (unfold Storage.listing, Storage.names in *; rewrite Hobj, Hname; exact Hl).
  cbn [negb]. rewrite !log_run. unfold external. rewrite Hall.
  unfold Storage.listObjects. norm. rewrite Hb0, Hl0. norm. plumb.
  destruct (before ++ name :: after)%list as [ | f files ] eqn:Hfiles.
  { destruct before; discriminate. }
  rewrite !log_run. norm. eexists _, _. split; [ reflexivity | ].
  rewrite <- Hfiles, Hname. apply collect_last_listed; assumption.
Qed.

(** The spec's example: listed as [slot-0-100, slot-0-200], slot 0 resolves
    to the object with time stamp 200. *)
Lemma C1_last_listed_object_wins_witness :
  exists m s',
    SupabaseService.getGridImages (sample_env None)
      (start (sample_store ["slot-0-100.jpg"; "slot-0-200.jpg"])) = (Normal m, s') /\
    Obj.get m "0" = Some (sample_url "slot-0-200.jpg").
Proof.
  apply (C1_last_listed_object_wins (sample_env None)
           (start (sample_store ["slot-0-100.jpg"; "slot-0-200.jpg"]))
           ["slot-0-100.jpg"] [] "slot-0-200.jpg" "0").
  - reflexivity.
  - intros i. reflexivity.
  - reflexivity.
  - reflexivity.
  - reflexivity.
  - intros n [].
Defined.

(** In name order [slot-0-1000.jpg] comes before [slot-0-200.jpg]: slot 0
    resolves to the object with time stamp 200, although the one with 1000
    is the newest of the two. *)
Lemma C1_greatest_timestamp_counterexample :
  ~ greatest_timestamp_wins (sample_env None)
      (start (sample_store ["slot-0-200.jpg"; "slot-0-1000.jpg"])).
Proof.
  intros H.
  specialize (H [("0", sample_url "slot-0-200.jpg")]
                (snd (SupabaseService.getGridImages (sample_env None)
                        (start (sample_store ["slot-0-200.jpg"; "slot-0-1000.jpg"]))))
                "0" "slot-0-1000.jpg" eq_refl).
  assert (Hn : newest_of
                 (Storage.listing
                    (remote (start (sample_store ["slot-0-200.jpg"; "slot-0-1000.jpg"])))
                    (bucketName (svc (start (sample_store ["slot-0-200.jpg"; "slot-0-1000.jpg"])))))
                 "0" "slot-0-1000.jpg").
  { split; [ left; reflexivity | split; [ reflexivity | ] ].
    exists 1000. split; [ reflexivity | ].
    intros n ts' Hin _ Hts.
    destruct Hin as [<- | [<- | []]]; vm_compute in Hts; injection Hts as <-; lia. }
  specialize (H Hn). vm_compute in H. discriminate H.
Qed.

(** ** Mutations without a session *)

(** No call to the object store between [s] and [s']. *)
Definition no_storage_call (s s' : state) : Prop :=
  Forall (fun c => is_storage_call (fst c) = false) (calls_since s s').

Lemma uploadImage_no_session E s d n :
  session E = None ->
  exists s',
    SupabaseService.uploadImage d n E s = (Normal None, s') /\
    remote s' = remote s /\ no_storage_call s s' /\ ui s' = ui s.
Proof.
  intros Hs. unfold SupabaseService.uploadImage, SupabaseService.auth_getSession,
    no_storage_call.
  exec; try congruence.
  all: eexists; (split; [ reflexivity | ]); norm.
  all: repeat split;
    first [ reflexivity
          | erewrite calls_since_app
              by (norm; first [ reflexivity | symmetry; apply app_nil_r ]);
            repeat constructor ].
Qed.

Lemma deleteImage_no_session E s n :
  session E = None ->
  exists s',
    SupabaseService.deleteImage n E s = (Normal false, s') /\
    remote s' = remote s /\ no_storage_call s s' /\ ui s' = ui s.
Proof.
  intros Hs. unfold SupabaseService.deleteImage, SupabaseService.auth_getSession,
    no_storage_call.
  exec; try congruence.
  all: eexists; (split; [ reflexivity | ]); norm.
  all: repeat split;
    first [ reflexivity
          | erewrite calls_since_app
              by (norm; first [ reflexivity | symmetry; apply app_nil_r ]);
            repeat constructor ].
Qed.

(** The events that change something: all but the load. *)
Definition is_mutation (e : NinePictureGrid.event) : bool :=
  match e with NinePictureGrid.Load => false | _ => true end.

(** The message each handler shows to a visitor who is not signed in. *)
Definition sign_in_message (e : NinePictureGrid.event) : string :=
  match e with
  | NinePictureGrid.Upload _ _ =>
      "You must be signed in to upload images. Please go to the Account tab to sign in."
  | NinePictureGrid.Remove _ =>
      "You must be signed in to remove images. Please go to the Account tab to sign in."
  | NinePictureGrid.Save =>
      "You must be signed in to save the grid. Please go to the Account tab to sign in."
  | NinePictureGrid.Reset =>
      "You must be signed in to reset the grid. Please go to the Account tab to sign in."
  | NinePictureGrid.Load => EmptyString
  end.

(** C3: without a user, upload, remove, reset and save show a sign-in
    message and do nothing else: no call is made, the provider's objects, the
    [images] array and the text stay as they are. The service's
    [uploadImage] and [deleteImage] fail without a session (they return null
    and false) and make no storage call either. *)
Theorem C3_mutations_need_a_session (E : environment) (s : state) :
  (forall images e,
      is_mutation e = true ->
      exists s',
        NinePictureGrid.dispatch images None e E s = (Normal tt, s') /\
        Grid.error (ui s') = Some (sign_in_message e) /\
        JS.startsWith (sign_in_message e) "You must be signed in" = true /\
        trace s' = trace s /\ remote s' = remote s /\ alerts s' = alerts s /\
        Grid.images (ui s') = Grid.images (ui s) /\
        Grid.text (ui s') = Grid.text (ui s)) /\
  (session E = None ->
   forall imageData slotNumber,
     exists s',
       SupabaseService.uploadImage imageData slotNumber E s = (Normal None, s') /\
       remote s' = remote s /\ no_storage_call s s' /\ ui s' = ui s) /\
  (session E = None ->
   forall slotNumber,
     exists s',
       SupabaseService.deleteImage slotNumber E s = (Normal false, s') /\
       remote s' = remote s /\ no_storage_call s s' /\ ui s' = ui s).
Proof.
  split; [ | split ].
  - intros images e Hm. destruct e; try discriminate; cbn [NinePictureGrid.dispatch].
    all: eexists; split; [ reflexivity | ]; repeat split; reflexivity.
  - intros Hs d n. apply uploadImage_no_session. exact Hs.
  - intros Hs n. apply deleteImage_no_session. exact Hs.
Qed.

Lemma C3_mutations_need_a_session_witness :
  (exists s',
     NinePictureGrid.dispatch (List.repeat EmptyString 9) None NinePictureGrid.Reset
       (sample_env None) (start (sample_store ["slot-0-100.jpg"])) = (Normal tt, s') /\
     Grid.error (ui s') =
       Some "You must be signed in to reset the grid. Please go to the Account tab to sign in." /\
     trace s' = [] /\ remote s' = sample_store ["slot-0-100.jpg"]) /\
  (exists s',
     SupabaseService.deleteImage (JS.Int 0) (sample_env None)
       (start (sample_store ["slot-0-100.jpg"])) = (Normal false, s') /\
     remote s' = sample_store ["slot-0-100.jpg"]).
Proof.
  split.
  - destruct (proj1 (C3_mutations_need_a_session (sample_env None)
                       (start (sample_store ["slot-0-100.jpg"])))
                (List.repeat EmptyString 9) NinePictureGrid.Reset eq_refl)
      as (s' & Hrun & Herr & _ & Htr & Hrem & _).
    exists s'. repeat split; assumption.
  - destruct (proj2 (proj2 (C3_mutations_need_a_session (sample_env None)
                              (start (sample_store ["slot-0-100.jpg"]))))
                eq_refl (JS.Int 0))
      as (s' & Hrun & Hrem & _).
    exists s'. split; assumption.
Defined.

(** ** The square crop *)

Lemma half_difference_centered a b :
  (ImageUploadSlot.half_difference a b + inject_Z b + ImageUploadSlot.half_difference a b
   == inject_Z a)%Q.
Proof.
  unfold ImageUploadSlot.half_difference, Qeq, Qplus, Qdiv, Qmult, Qinv, inject_Z.
  cbn. lia.
Qed.

Lemma half_difference_nonneg a b : b <= a -> (0 <= ImageUploadSlot.half_difference a b)%Q.
Proof.
  intros H. unfold ImageUploadSlot.half_difference, Qle, Qdiv, Qmult, Qinv, inject_Z.
  cbn. lia.
Qed.

Lemma half_difference_value a b :
  (ImageUploadSlot.half_difference a b == (inject_Z a - inject_Z b) / 2)%Q.
Proof.
  unfold ImageUploadSlot.half_difference, Qeq, Qminus, Qplus, Qopp, Qdiv, Qmult, Qinv, inject_Z.
  cbn. lia.
Qed.

Lemma processImageToSquare_no_image E s slot cb dataUrl :
  decode E dataUrl = None ->
  exists s',
    ImageUploadSlot.processImageToSquare slot cb dataUrl E s = (Normal tt, s') /\
    ui s' = ui s /\ trace s' = trace s /\ remote s' = remote s /\ svc s' = svc s /\
    logs s' = ({| message := "Error loading image for processing"; severity := Error |}
               :: {| message := "Processing image to square format"; severity := Info |}
               :: logs s) /\
    forall u, slot_ui s !! slot = Some u ->
      slot_ui s' !! slot =
        Some {| Slot.isDragging := Slot.isDragging u; Slot.isUploading := false;
                Slot.uploadError := Some "Error loading image for processing" |}.
Proof.
  intros Hd. unfold ImageUploadSlot.processImageToSquare, ImageUploadSlot.img_onerror,
    ImageUploadSlot.setUploadError, ImageUploadSlot.setIsUploading,
    ImageUploadSlot.update, addLog.
  plumb. rewrite Hd. norm.
  eexists. split; [ reflexivity | ]. norm. repeat split.
  intros u Hu. rewrite !list_lookup_alter, Hu. repeat case_decide; try congruence.
  reflexivity.
Qed.

Lemma processImageToSquare_no_canvas E s slot cb dataUrl img_width img_height :
  decode E dataUrl = Some (img_width, img_height) ->
  context2d E = false ->
  exists s1,
    ImageUploadSlot.processImageToSquare slot cb dataUrl E s =
      (Normal tt,
       snd (ImageUploadSlot.setIsUploading slot false E (snd (cb dataUrl E s1)))) /\
    ui s1 = ui s /\ trace s1 = trace s /\ remote s1 = remote s /\ svc s1 = svc s /\
    alerts s1 = alerts s.
Proof.
  intros Hd Hc. unfold ImageUploadSlot.processImageToSquare, ImageUploadSlot.img_onload,
    ImageUploadSlot.setUploadError, ImageUploadSlot.setIsUploading,
    ImageUploadSlot.update, addLog.
  plumb. rewrite Hd. norm. rewrite Hc. norm.
  eexists. split; [ reflexivity | ]. norm. repeat split.
Qed.

Lemma processImageToSquare_crops E s slot cb dataUrl img_width img_height :
  decode E dataUrl = Some (img_width, img_height) ->
  context2d E = true ->
  exists s1,
    ImageUploadSlot.processImageToSquare slot cb dataUrl E s =
      (Normal tt,
       snd (ImageUploadSlot.setIsUploading slot false E
              (snd (cb (toDataURL E
                          (ImageUploadSlot.square_canvas dataUrl img_width img_height)
                          "image/jpeg" ImageUploadSlot.jpeg_quality) E s1)))) /\
    ui s1 = ui s /\ trace s1 = trace s /\ remote s1 = remote s /\ svc s1 = svc s /\
    alerts s1 = alerts s /\ slot_ui s1 = slot_ui s.
Proof.
  intros Hd Hc. unfold ImageUploadSlot.processImageToSquare, ImageUploadSlot.img_onload,
    ImageUploadSlot.setUploadError, ImageUploadSlot.setIsUploading,
    ImageUploadSlot.update, addLog.
  plumb. rewrite Hd. norm. rewrite Hc. norm.
  eexists. split; [ reflexivity | ]. norm. repeat split.
Qed.

(** C2: an image that decodes to [w] by [h], in a browser with a canvas, is
    passed on as the JPEG encoding, at quality 0.92, of a canvas of [size] by
    [size] pixels with [size = min w h], on which the region of the image at
    [((w - size) / 2, (h - size) / 2)] of [size] by [size] was drawn at full
    size; the region is centred and lies inside the image. Whatever [w] and
    [h], equal or not, the output is square with side [min w h]. *)
Theorem C2_square_center_crop (E : environment) (s : state) (slot : nat)
    (onImageUpload : string -> M unit) (dataUrl : string) (w h : Z) :
  decode E dataUrl = Some (w, h) ->
  context2d E = true ->
  let size := Z.min w h in
  exists c s1,
    ImageUploadSlot.processImageToSquare slot onImageUpload dataUrl E s =
      (Normal tt,
       snd (ImageUploadSlot.setIsUploading slot false E
              (snd (onImageUpload (toDataURL E c "image/jpeg" (92 # 100)%Q) E s1)))) /\
    ui s1 = ui s /\ trace s1 = trace s /\ remote s1 = remote s /\
    width c = size /\ height c = size /\
    exists d,
      drawn c = [d] /\ img_src d = dataUrl /\
      (sx d == (inject_Z w - inject_Z size) / 2)%Q /\
      (sy d == (inject_Z h - inject_Z size) / 2)%Q /\
      sw d = inject_Z size /\ sh d = inject_Z size /\
      dx d = 0%Q /\ dy d = 0%Q /\ dw d = inject_Z size /\ dh d = inject_Z size /\
      (sx d + inject_Z size + sx d == inject_Z w)%Q /\
      (sy d + inject_Z size + sy d == inject_Z h)%Q /\
      (0 <= sx d)%Q /\ (0 <= sy d)%Q.
Proof.
  intros Hd Hc size.
  destruct (processImageToSquare_crops E s slot onImageUpload dataUrl w h Hd Hc)
    as (s1 & Hrun & Hui & Htr & Hrem & _).
  exists (ImageUploadSlot.square_canvas dataUrl w h), s1.
  split; [ exact Hrun | ].
  repeat (split; [ first [ assumption | reflexivity ] | ]).
  eexists. split; [ reflexivity | ]. cbn [img_src sx sy sw sh dx dy dw dh].
  repeat (split; [ first [ reflexivity | apply half_difference_value ] | ]).
  split; [ apply half_difference_centered | ].
  split; [ apply half_difference_centered | ].
  split; apply half_difference_nonneg; subst size; lia.
Qed.

Lemma C2_square_center_crop_witness :
  exists c s1,
    ImageUploadSlot.processImageToSquare 3
      (NinePictureGrid.handleImageUpload (List.repeat EmptyString 9) (Some "u1") 3)
      "data:image/png;base64,AAAA" (sample_env (Some "u1")) (start (sample_store [])) =
      (Normal tt,
       snd (ImageUploadSlot.setIsUploading 3 false (sample_env (Some "u1"))
              (snd (NinePictureGrid.handleImageUpload (List.repeat EmptyString 9) (Some "u1") 3
                      (toDataURL (sample_env (Some "u1")) c "image/jpeg" (92 # 100)%Q)
                      (sample_env (Some "u1")) s1)))) /\
    width c = 300 /\ height c = 300 /\
    exists d, drawn c = [d] /\ (sx d == 50)%Q /\ (sy d == 0)%Q /\ sw d = inject_Z 300.
Proof.
  destruct (C2_square_center_crop (sample_env (Some "u1")) (start (sample_store [])) 3
              (NinePictureGrid.handleImageUpload (List.repeat EmptyString 9) (Some "u1") 3)
              "data:image/png;base64,AAAA" 400 300 eq_refl eq_refl)
    as (c & s1 & Hrun & _ & _ & _ & Hw & Hh & d & Hd & _ & Hx & Hy & Hsw & _).
  exists c, s1. split; [ exact Hrun | ].
  split; [ exact Hw | ]. split; [ exact Hh | ].
  exists d. split; [ exact Hd | ].
  split; [ rewrite Hx; reflexivity | ].
  split; [ rewrite Hy; reflexivity | exact Hsw ].
Defined.

(** C7: when the data does not decode, the slot shows "Error loading image
    for processing" and nothing else happens, whatever the upload callback
    is: the grid (the slot's image with it), the calls made and the
    provider's objects are as before. When the data decodes but the canvas
    gives no 2D context, the callback is called with the original data URL. *)
Theorem C7_transform_failures (E : environment) (s : state) (slot : nat)
    (onImageUpload : string -> M unit) (dataUrl : string) :
  (decode E dataUrl = None ->
   exists s',
     ImageUploadSlot.processImageToSquare slot onImageUpload dataUrl E s = (Normal tt, s') /\
     ui s' = ui s /\ trace s' = trace s /\ remote s' = remote s /\
     forall u, slot_ui s !! slot = Some u ->
       slot_ui s' !! slot =
         Some {| Slot.isDragging := Slot.isDragging u; Slot.isUploading := false;
                 Slot.uploadError := Some "Error loading image for processing" |}) /\
  (forall w h,
     decode E dataUrl = Some (w, h) ->
     context2d E = false ->
     exists s1,
       ImageUploadSlot.processImageToSquare slot onImageUpload dataUrl E s =
         (Normal tt,
          snd (ImageUploadSlot.setIsUploading slot false E
                 (snd (onImageUpload dataUrl E s1)))) /\
       ui s1 = ui s /\ trace s1 = trace s /\ remote s1 = remote s).
Proof.
  split.
  - intros Hd.
    destruct (processImageToSquare_no_image E s slot onImageUpload dataUrl Hd)
      as (s' & Hrun & Hui & Htr & Hrem & _ & _ & Hslot).
    exists s'. repeat split; assumption.
  - intros w h Hd Hc.
    destruct (processImageToSquare_no_canvas E s slot onImageUpload dataUrl w h Hd Hc)
      as (s1 & Hrun & Hui & Htr & Hrem & _).
    exists s1. repeat split; assumption.
Qed.

(** A text file dropped on slot 3 leaves the grid alone; a PNG dropped on
    slot 3 of a browser without canvas is uploaded as it is. *)
Lemma C7_transform_failures_witness :
  (exists s',
     slot_upload (List.repeat EmptyString 9) (Some "u1") 3 "data:text/plain;base64,AAAA"
       (sample_env (Some "u1")) (start (sample_store [])) = (Normal tt, s') /\
     Grid.images (ui s') = List.repeat EmptyString 9 /\ trace s' = [] /\
     (Slot.uploadError <$> slot_ui s' !! 3%nat)
     = Some (Some "Error loading image for processing")) /\
  (exists s',
     slot_upload (List.repeat EmptyString 9) (Some "u1") 3 "data:image/png;base64,AAAA"
       (without_canvas (sample_env (Some "u1"))) (start (sample_store [])) = (Normal tt, s') /\
     array_get (Grid.images (ui s')) 3 = sample_url "slot-3-1700000000002.jpg" /\
     trace s' =
       [ (AuthGetSession, Resolved); (StorageListBuckets, Resolved);
         (StorageUpload DEFAULT_BUCKET_NAME "slot-3-1700000000002.jpg"
            {| blob_bytes := "AAAA"; blob_type := "image/jpeg" |} true "image/jpeg",
          Resolved) ]).
Proof.
  split.
  - destruct (proj1 (C7_transform_failures (sample_env (Some "u1")) (start (sample_store []))
                       3 (NinePictureGrid.handleImageUpload (List.repeat EmptyString 9)
                            (Some "u1") 3) "data:text/plain;base64,AAAA") eq_refl)
      as (s' & Hrun & Hui & Htr & _ & Hslot).
    exists s'. split; [ exact Hrun | ].
    split; [ rewrite Hui; reflexivity | ]. split; [ exact Htr | ].
    rewrite (Hslot Slot.initial eq_refl). reflexivity.
  - destruct (proj2 (C7_transform_failures (without_canvas (sample_env (Some "u1")))
                       (start (sample_store []))
                       3 (NinePictureGrid.handleImageUpload (List.repeat EmptyString 9)
                            (Some "u1") 3) "data:image/png;base64,AAAA") 400 300
                eq_refl eq_refl)
      as (s1 & Hrun & _).
    exists (snd (slot_upload (List.repeat EmptyString 9) (Some "u1") 3
                   "data:image/png;base64,AAAA"
                   (without_canvas (sample_env (Some "u1"))) (start (sample_store [])))).
    split; [ unfold slot_upload; rewrite Hrun; reflexivity | ].
    split; vm_compute; reflexivity.
Defined.

(** ** The nine slots *)

(** Case analysis on the value a method looks at. *)
Ltac exec_match :=
  match goal with
  | |- context [match ?x with _ => _ end] =>
      lazymatch x with
      | context [match _ with _ => _ end] => fail
      | context [SupabaseService.ensureBucketExists] => fail
      | context [SupabaseService.uploadImage] => fail
      | context [SupabaseService.deleteImage] => fail
      | context [SupabaseService.getGridImages] => fail
      | context [NinePictureGrid.clear_from] => fail
      | context [external] => fail
      | context [SupabaseService.log] => fail
      | _ => let H := fresh "D" in destruct x eqn:H
      end
  end.

Ltac exec' := repeat first [ exec_step | ensure_here | exec_match ].

(** [u] is the public URL of some object of bucket [b]. *)
Definition is_public_url (E : environment) (b u : string) : Prop :=
  exists name, u = public_url E b name.

(** An element of [images]: empty, or a public URL. *)
Definition slot_value_ok (E : environment) (b x : string) : Prop :=
  x = EmptyString \/ is_public_url E b x.

(** The invariant of the [images] array. *)
Definition grid_ok (E : environment) (b : string) (images : list string) : Prop :=
  List.length images = 9%nat /\ Forall (slot_value_ok E b) images.

Lemma uploadImage_spec E s d n :
  exists r s',
    SupabaseService.uploadImage d n E s = (Normal r, s') /\
    forall url, r = Some url -> is_public_url E (bucketName (svc s)) url.
Proof.
  unfold SupabaseService.uploadImage, SupabaseService.auth_getSession,
    SupabaseService.base64ToBlob, Storage.upload.
  exec'; try congruence.
  all: eexists _, _; (split; [ reflexivity | ]); intros url [= <-].
  all: destruct Hext as [_ _ _ _ Hname _ _ _]; norm; rewrite Hname; eexists; reflexivity.
Qed.

Lemma deleteImage_total E s n :
  exists r s', SupabaseService.deleteImage n E s = (Normal r, s').
Proof.
  unfold SupabaseService.deleteImage, SupabaseService.auth_getSession, Storage.remove.
  exec'; try congruence.
  all: eexists _, _; reflexivity.
Qed.

Lemma set_values o k v x :
  In x (Obj.set o k v) -> In x o \/ snd x = v.
Proof.
  induction o as [ | [k' v'] r IH ]; cbn.
  - intros [<- | []]. right. reflexivity.
  - destruct (String.eqb k' k); cbn.
    + intros [<- | H]; [ right; reflexivity | left; right; exact H ].
    + intros [<- | H]; [ left; left; reflexivity | ].
      destruct (IH H) as [H' | H']; [ left; right; exact H' | right; exact H' ].
Qed.

Lemma collect_values url files x :
  In x (SupabaseService.collect url files) -> exists name, snd x = url name.
Proof.
  unfold SupabaseService.collect.
  assert (G : forall o, (forall y, In y o -> exists name, snd y = url name) ->
              forall y, In y (fold_left (SupabaseService.add_file url) files o) ->
              exists name, snd y = url name).
  { induction files as [ | f rest IH ]; intros o Ho y; cbn [fold_left].
    - apply Ho.
    - apply IH. intros z Hz. unfold SupabaseService.add_file in Hz.
      destruct (match_slot f); [ | apply Ho; exact Hz ].
      apply set_values in Hz. destruct Hz as [Hz | Hz]; [ apply Ho; exact Hz | ].
      exists f. exact Hz. }
  apply G. intros y [].
Qed.

Lemma getGridImages_values E s :
  exists m s',
    SupabaseService.getGridImages E s = (Normal m, s') /\
    forall x, In x m -> is_public_url E (bucketName (svc s)) (snd x).
Proof.
  unfold SupabaseService.getGridImages.
  exec'; try congruence.
  all: eexists _, _; (split; [ reflexivity | ]); intros x Hx; try solve [ destruct Hx ].
  destruct Hext as [_ _ _ _ Hname _ _ _]. norm. rewrite Hname in Hx.
  apply collect_values in Hx. exact Hx.
Qed.

Lemma array_set_length a i x :
  (i < List.length a)%nat -> List.length (array_set a i x) = List.length a.
Proof.
  intros H. unfold array_set. apply Nat.ltb_lt in H. rewrite H. apply length_insert.
Qed.

Lemma array_set_Forall (P : string -> Prop) a i x :
  (i < List.length a)%nat -> Forall P a -> P x -> Forall P (array_set a i x).
Proof.
  intros H Ha Hx. unfold array_set. apply Nat.ltb_lt in H. rewrite H.
  apply Forall_insert; assumption.
Qed.

Lemma grid_ok_set E b images i x :
  grid_ok E b images -> (i < 9)%nat -> slot_value_ok E b x ->
  grid_ok E b (array_set images i x).
Proof.
  intros [Hl Hv] Hi Hx. split.
  - rewrite array_set_length; [ exact Hl | rewrite Hl; exact Hi ].
  - apply array_set_Forall; [ rewrite Hl; exact Hi | exact Hv | exact Hx ].
Qed.

Lemma grid_ok_empty E b : grid_ok E b (List.repeat EmptyString 9).
Proof. split; [ reflexivity | ]. repeat constructor. Qed.

Lemma insert_index_In i e l x :
  In x (Obj.insert_index i e l) -> x = (i, e) \/ In x l.
Proof.
  induction l as [ | [j e'] r IH ]; cbn.
  - intros [<- | []]. left. reflexivity.
  - destruct (i <? j); cbn.
    + intros [<- | H]; [ left; reflexivity | right; exact H ].
    + intros [<- | H]; [ right; left; reflexivity | ].
      destruct (IH H) as [-> | H']; [ left; reflexivity | right; right; exact H' ].
Qed.

Lemma index_entries_In o x : In x (Obj.index_entries o) -> In (snd x) o.
Proof.
  induction o as [ | [k v] r IH ]; cbn; [ intros [] | ].
  destruct (Obj.array_index k).
  - intros H. apply insert_index_In in H. destruct H as [-> | H].
    + left. reflexivity.
    + right. apply IH. exact H.
  - intros H. right. apply IH. exact H.
Qed.

Lemma entries_In o x : In x (Obj.entries o) -> In x o.
Proof.
  unfold Obj.entries. intros H. apply in_app_or in H. destruct H as [H | H].
  - apply in_map_iff in H. destruct H as (y & <- & Hy). apply index_entries_In. exact Hy.
  - apply filter_In in H. apply H.
Qed.

Lemma apply_entry_ok E b images e :
  grid_ok E b images -> slot_value_ok E b (snd e) ->
  grid_ok E b (NinePictureGrid.apply_entry images e).
Proof.
  intros Hg He. unfold NinePictureGrid.apply_entry. destruct e as [slotStr imageUrl].
  destruct (JS.parseInt slotStr) as [ | neg | z ]; cbn [JS.isNaN JS.geb JS.ltb negb andb];
    try exact Hg.
  - destruct neg; exact Hg.
  - destruct (0 <=? z) eqn:H0; [ | exact Hg ]. destruct (z <? 9) eqn:H9; [ | exact Hg ].
    cbn [andb JS.index]. apply grid_ok_set; [ exact Hg | lia | exact He ].
Qed.

Lemma merge_ok E b images m :
  grid_ok E b images ->
  (forall x, In x m -> is_public_url E b (snd x)) ->
  grid_ok E b (NinePictureGrid.merge images m).
Proof.
  intros Hg Hm. unfold NinePictureGrid.merge.
  assert (He : forall x, In x (Obj.entries m) -> is_public_url E b (snd x))
    by (intros x Hx; apply Hm, entries_In, Hx).
  revert images Hg. induction (Obj.entries m) as [ | e rest IH ]; intros images Hg;
    cbn [fold_left].
  - exact Hg.
  - apply IH.
    + intros x Hx. apply He. right. exact Hx.
    + apply apply_entry_ok; [ exact Hg | right; apply He; left; reflexivity ].
Qed.

Ltac upload_here :=
  match goal with
  | |- context [SupabaseService.uploadImage ?d ?n ?E ?s] =>
      let r := fresh "r" in let s1 := fresh "s" in
      let Hrun := fresh "Hrun" in let Hurl := fresh "Hurl" in
      let Hext := fresh "Hext" in
      destruct (uploadImage_spec E s d n) as (r & s1 & Hrun & Hurl);
      pose proof (extends_uploadImage d n E s) as Hext;
      rewrite Hrun in *; cbn [snd] in Hext; destruct Hext as [Hext _ _ _ _ _ _ _]
  end.

Ltac delete_here :=
  match goal with
  | |- context [SupabaseService.deleteImage ?n ?E ?s] =>
      let r := fresh "r" in let s1 := fresh "s" in
      let Hrun := fresh "Hrun" in let Hext := fresh "Hext" in
      destruct (deleteImage_total E s n) as (r & s1 & Hrun);
      pose proof (extends_deleteImage n E s) as Hext;
      rewrite Hrun in *; cbn [snd] in Hext; destruct Hext as [Hext _ _ _ _ _ _ _]
  end.

Ltac handlers :=
  unfold NinePictureGrid.handleImageUpload, NinePictureGrid.handleImageRemove,
    NinePictureGrid.handleSave, NinePictureGrid.handleReset,
    NinePictureGrid.loadImagesFromSupabase, NinePictureGrid.setImages,
    NinePictureGrid.setError, NinePictureGrid.setText, NinePictureGrid.setIsLoading,
    NinePictureGrid.alert, addLog.

Lemma handleImageUpload_ok E s images user index d :
  grid_ok E (bucketName (svc s)) images ->
  grid_ok E (bucketName (svc s)) (Grid.images (ui s)) ->
  (index < 9)%nat ->
  grid_ok E (bucketName (svc s))
    (Grid.images (ui (snd (NinePictureGrid.handleImageUpload images user index d E s)))).
Proof.
  intros Hi Hs Hx. handlers. plumb. destruct user as [u | ]; [ | exact Hs ].
  norm. upload_here. norm.
  destruct r as [[ | c url] | ]; norm.
  - destruct (JS.includes _ _); norm; rewrite Hext; exact Hs.
  - apply grid_ok_set; [ exact Hi | exact Hx | right; apply Hurl; reflexivity ].
  - destruct (JS.includes _ _); norm; rewrite Hext; exact Hs.
Qed.

Lemma handleImageRemove_ok E s images user index :
  grid_ok E (bucketName (svc s)) images ->
  grid_ok E (bucketName (svc s)) (Grid.images (ui s)) ->
  (index < 9)%nat ->
  grid_ok E (bucketName (svc s))
    (Grid.images (ui (snd (NinePictureGrid.handleImageRemove images user index E s)))).
Proof.
  intros Hi Hs Hx. handlers. plumb. destruct user as [u | ]; [ | exact Hs ].
  norm. delete_here. norm.
  apply grid_ok_set; [ exact Hi | exact Hx | left; reflexivity ].
Qed.

Lemma clear_from_spec images n :
  forall i E s,
    exists s', NinePictureGrid.clear_from images i n E s = (Normal tt, s').
Proof.
  induction n as [ | n IH ]; intros i E s; cbn [NinePictureGrid.clear_from].
  - eexists. reflexivity.
  - plumb. destruct (array_get images i).
    + apply IH.
    + delete_here. apply IH.
Qed.

Lemma handleReset_ok E s images user :
  grid_ok E (bucketName (svc s)) (Grid.images (ui s)) ->
  grid_ok E (bucketName (svc s))
    (Grid.images (ui (snd (NinePictureGrid.handleReset images user E s)))).
Proof.
  intros Hs. handlers. plumb. destruct user as [u | ]; [ | exact Hs ].
  norm.
  match goal with
  | |- context [NinePictureGrid.clear_from ?a ?i ?n ?E ?s] =>
      destruct (clear_from_spec a n i E s) as (s1 & Hrun); rewrite Hrun
  end.
  norm. apply grid_ok_empty.
Qed.

Lemma loadImagesFromSupabase_ok E s images :
  grid_ok E (bucketName (svc s)) images ->
  grid_ok E (bucketName (svc s)) (Grid.images (ui s)) ->
  grid_ok E (bucketName (svc s))
    (Grid.images (ui (snd (NinePictureGrid.loadImagesFromSupabase images E s)))).
Proof.
  intros Hi Hs. handlers. plumb. norm.
  ensure_here. destruct Hext as [Hui _ _ _ Hname _ _ _]. norm.
  destruct b; norm.
  - match goal with
    | |- context [SupabaseService.getGridImages ?E ?s] =>
        destruct (getGridImages_values E s) as (m & s2 & Hrun2 & Hm);
        pose proof (extends_getGridImages E s) as Hext2;
        rewrite Hrun2 in *; cbn [snd] in Hext2; destruct Hext2 as [_ _ _ _ _ _ _ _]
    end.
    norm. apply merge_ok; [ exact Hi | ]. rewrite <- Hname. exact Hm.
  - rewrite Hui. exact Hs.
Qed.

(** The service keeps its bucket name. *)
Definition same_bucket (s s' : state) : Prop := bucketName (svc s') = bucketName (svc s).

#[global] Instance same_bucket_preorder : PreOrder same_bucket.
Proof. split; unfold same_bucket; [ intros s; reflexivity | intros a b c; congruence ]. Qed.

Lemma same_bucket_of_extends {A} (m : M A) :
  preserves extends m -> preserves same_bucket m.
Proof. intros H E s. apply (ext_name _ _ (H E s)). Qed.

Lemma same_bucket_modify f : (forall s, svc (f s) = svc s) -> preserves same_bucket (modify f).
Proof. intros H. refine (preserves_modify _ _ _). intros s. unfold same_bucket. rewrite H. reflexivity. Qed.

Ltac bucket_frame :=
  repeat first
    [ frame_step
    | apply same_bucket_modify; intros; reflexivity
    | apply same_bucket_of_extends; solve [ auto with frame ] ].

Lemma same_bucket_clear_from images n : forall i, preserves same_bucket (NinePictureGrid.clear_from images i n).
Proof.
  induction n as [ | n IH ]; intros i; cbn [NinePictureGrid.clear_from].
  - bucket_frame.
  - refine (preserves_bind _ _ _ _ _); [ | intros; apply IH ].
    destruct (array_get images i); bucket_frame.
    apply same_bucket_of_extends, extends_deleteImage.
Qed.

Lemma same_bucket_dispatch images user e : preserves same_bucket (NinePictureGrid.dispatch images user e).
Proof.
  destruct e; cbn [NinePictureGrid.dispatch]; handlers.
  - bucket_frame. apply same_bucket_of_extends, extends_getGridImages.
  - bucket_frame. apply same_bucket_of_extends, extends_uploadImage.
  - bucket_frame. apply same_bucket_of_extends, extends_deleteImage.
  - bucket_frame.
  - bucket_frame. apply same_bucket_clear_from.
Qed.

Definition index_in_grid (e : NinePictureGrid.event) : Prop :=
  match e with
  | NinePictureGrid.Upload index _ | NinePictureGrid.Remove index => (index < 9)%nat
  | _ => True
  end.

(** The page after a sequence of events, each handled to completion by the
    handlers of the latest render, for the user of that moment. *)
Fixpoint play (E : environment) (events : list (option string * NinePictureGrid.event))
    (s : state) : state :=
  match events with
  | [] => s
  | (user, e) :: rest => play E rest (snd (NinePictureGrid.handle user e E s))
  end.

Lemma dispatch_ok E s images user e :
  grid_ok E (bucketName (svc s)) images ->
  grid_ok E (bucketName (svc s)) (Grid.images (ui s)) ->
  index_in_grid e ->
  grid_ok E (bucketName (svc s))
    (Grid.images (ui (snd (NinePictureGrid.dispatch images user e E s)))).
Proof.
  intros Hi Hs He. destruct e; cbn [NinePictureGrid.dispatch index_in_grid] in *.
  - apply loadImagesFromSupabase_ok; assumption.
  - apply handleImageUpload_ok; assumption.
  - apply handleImageRemove_ok; assumption.
  - destruct user; exact Hs.
  - apply handleReset_ok; assumption.
Qed.

Lemma play_ok E events :
  forall s,
    Forall (fun ue => index_in_grid (snd ue)) events ->
    grid_ok E (bucketName (svc s)) (Grid.images (ui s)) ->
    grid_ok E (bucketName (svc s)) (Grid.images (ui (play E events s))).
Proof.
  induction events as [ | [user e] rest IH ]; intros s Hev Hs; cbn [play].
  - exact Hs.
  - inversion Hev as [ | x l He Hrest ]; subst.
    pose proof (same_bucket_dispatch (Grid.images (ui s)) user e E s) as Hb.
    unfold same_bucket in Hb.
    change (NinePictureGrid.handle user e E s)
      with (NinePictureGrid.dispatch (Grid.images (ui s)) user e E s).
    rewrite <- Hb. apply IH; [ exact Hrest | ].
    rewrite Hb. apply dispatch_ok; assumption.
Qed.

(** The mount effect and the effect on a change of user load into an array
    of the same kind. *)
Lemma mount_ok E r :
  grid_ok E DEFAULT_BUCKET_NAME (Grid.images (ui (snd (NinePictureGrid.mount E (start r))))).
Proof.
  unfold NinePictureGrid.mount, SupabaseService.setLogger, addLog. plumb.
  rewrite log_run. norm.
  match goal with
  | |- context [NinePictureGrid.loadImagesFromSupabase ?i ?E ?s] =>
      apply (loadImagesFromSupabase_ok E s i)
  end; norm; apply grid_ok_empty.
Qed.

Lemma user_changed_ok E s user :
  grid_ok E (bucketName (svc s)) (Grid.images (ui s)) ->
  grid_ok E (bucketName (svc s))
    (Grid.images (ui (snd (NinePictureGrid.user_changed (Grid.images (ui s)) user E s)))).
Proof.
  intros Hs. unfold NinePictureGrid.user_changed. destruct user as [u | ]; [ | exact Hs ].
  unfold addLog. plumb. norm.
  match goal with
  | |- context [NinePictureGrid.loadImagesFromSupabase ?i ?E ?s0] =>
      apply (loadImagesFromSupabase_ok E s0 i)
  end; norm; exact Hs.
Qed.

(** C8: the [images] array always has nine elements, each the empty string
    or the public URL of an object of the bucket. It is created so; every
    handler (load, upload, remove, save, reset) created by a render that saw
    such an array leaves such an array, for slot indexes 0 to 8; and so the
    array of a page is such after any sequence of events. *)
Theorem C8_grid_has_nine_slots (E : environment) (s : state) :
  grid_ok E (bucketName (svc s)) (Grid.images Grid.initial) /\
  (forall images user e,
      grid_ok E (bucketName (svc s)) images ->
      grid_ok E (bucketName (svc s)) (Grid.images (ui s)) ->
      index_in_grid e ->
      grid_ok E (bucketName (svc s))
        (Grid.images (ui (snd (NinePictureGrid.dispatch images user e E s))))) /\
  (forall r events,
      Forall (fun ue => index_in_grid (snd ue)) events ->
      grid_ok E DEFAULT_BUCKET_NAME (Grid.images (ui (play E events (start r))))).
Proof.
  split; [ apply grid_ok_empty | split ].
  - intros images user e. apply dispatch_ok.
  - intros r events Hev.
    apply (play_ok E events (start r) Hev). apply grid_ok_empty.
Qed.

Lemma C8_grid_has_nine_slots_witness :
  grid_ok (sample_env (Some "u1")) DEFAULT_BUCKET_NAME
    (Grid.images
       (ui (play (sample_env (Some "u1"))
              [ (None, NinePictureGrid.Load);
                (Some "u1", NinePictureGrid.Upload 3 "data:image/jpeg;base64,QUJD");
                (Some "u1", NinePictureGrid.Remove 0);
                (Some "u1", NinePictureGrid.Load);
                (Some "u1", NinePictureGrid.Reset) ]
              (start (sample_store ["slot-0-100.jpg"; "slot-12-5.jpg"]))))).
Proof.
  apply (proj2 (proj2 (C8_grid_has_nine_slots (sample_env (Some "u1"))
                         (start (sample_store []))))).
  repeat constructor.
Defined.

(** ** The order of a listing *)

Lemma ascii_compare_trans (a b c : ascii) :
  Ascii.compare a b <> Gt -> Ascii.compare b c <> Gt -> Ascii.compare a c <> Gt.
Proof.
  unfold Ascii.compare.
  destruct (N.compare_spec (N_of_ascii a) (N_of_ascii b)) as [Hab | Hab | Hab];
    destruct (N.compare_spec (N_of_ascii b) (N_of_ascii c)) as [Hbc | Hbc | Hbc];
    destruct (N.compare_spec (N_of_ascii a) (N_of_ascii c)) as [Hac | Hac | Hac];
    intros G1 G2; try congruence; lia.
Qed.

Lemma ascii_compare_eq (a b : ascii) : Ascii.compare a b = Eq -> a = b.
Proof. apply Ascii.compare_eq_iff. Qed.

Lemma ascii_compare_refl (a : ascii) : Ascii.compare a a = Eq.
Proof. unfold Ascii.compare. apply N.compare_refl. Qed.

Lemma leb_trans (a b c : string) :
  String.leb a b = true -> String.leb b c = true -> String.leb a c = true.
Proof.
  unfold String.leb. revert b c.
  induction a as [ | x a IH ]; intros [ | y b ] [ | z c ]; cbn; try congruence.
  destruct (Ascii.compare x y) eqn:Hxy; try congruence;
    destruct (Ascii.compare y z) eqn:Hyz; try congruence.
  - apply ascii_compare_eq in Hxy. apply ascii_compare_eq in Hyz. subst.
    rewrite ascii_compare_refl. apply IH.
  - apply ascii_compare_eq in Hxy. subst. rewrite Hyz. congruence.
  - apply ascii_compare_eq in Hyz. subst. rewrite Hxy. congruence.
  - destruct (Ascii.compare x z) eqn:Hxz; try congruence.
    + apply ascii_compare_eq in Hxz. subst.
      rewrite Ascii.compare_antisym, Hxy in Hyz. discriminate.
    + exfalso. apply (ascii_compare_trans x y z); congruence.
Qed.

(** [n] is no greater than any name of [l]. *)
Definition below (n : string) (l : list string) : Prop :=
  List.Forall (fun m => String.leb n m = true) l.

Inductive ascending : list string -> Prop :=
| ascending_nil : ascending []
| ascending_cons n l : below n l -> ascending l -> ascending (n :: l).

Lemma insert_below n l : below n l -> Storage.insert n l = n :: l.
Proof.
  intros H. destruct l as [ | m r ]; [ reflexivity | ].
  cbn. inversion H; subst.
  match goal with H' : String.leb n m = true |- _ => rewrite H' end. reflexivity.
Qed.

Lemma In_insert x n l : In x (Storage.insert n l) <-> x = n \/ In x l.
Proof.
  induction l as [ | m r IH ]; cbn.
  - intuition.
  - destruct (String.leb n m); cbn; [ intuition | rewrite IH; intuition ].
Qed.

Lemma sortBy_name_cons n l :
  Storage.sortBy_name (n :: l) = Storage.insert n (Storage.sortBy_name l).
Proof. reflexivity. Qed.

Lemma In_sortBy_name x l : In x (Storage.sortBy_name l) <-> In x l.
Proof.
  induction l as [ | n l IH ]; [ reflexivity | ].
  rewrite sortBy_name_cons, In_insert, IH. cbn. intuition.
Qed.

Lemma length_insert n l : List.length (Storage.insert n l) = S (List.length l).
Proof.
  induction l as [ | m r IH ]; cbn; [ reflexivity | ].
  destruct (String.leb n m); cbn; [ reflexivity | rewrite IH; reflexivity ].
Qed.

Lemma length_sortBy_name l : List.length (Storage.sortBy_name l) = List.length l.
Proof.
  induction l as [ | n l IH ]; [ reflexivity | ].
  rewrite sortBy_name_cons, length_insert, IH. reflexivity.
Qed.

Lemma below_insert m n l : String.leb m n = true -> below m l -> below m (Storage.insert n l).
Proof.
  intros Hmn Hl. apply List.Forall_forall. intros x Hx.
  apply In_insert in Hx. destruct Hx as [-> | Hx]; [ exact Hmn | ].
  revert x Hx. apply List.Forall_forall. exact Hl.
Qed.

Lemma below_trans n m l : String.leb n m = true -> below m l -> below n l.
Proof.
  intros Hnm Hl. eapply List.Forall_impl; [ | exact Hl ].
  intros x Hx. cbn in Hx. eapply leb_trans; eassumption.
Qed.

Lemma ascending_insert n l : ascending l -> ascending (Storage.insert n l).
Proof.
  induction 1 as [ | m r Hm Hr IH ]; cbn.
  - constructor; [ constructor | constructor ].
  - destruct (String.leb n m) eqn:Hnm.
    + constructor; [ | constructor; assumption ].
      constructor; [ exact Hnm | ]. eapply below_trans; eassumption.
    + constructor; [ | exact IH ].
      apply below_insert; [ | exact Hm ].
      destruct (String.leb_total n m) as [H | H]; [ congruence | exact H ].
Qed.

Lemma ascending_sortBy_name l : ascending (Storage.sortBy_name l).
Proof.
  induction l as [ | n l IH ]; [ constructor | ].
  rewrite sortBy_name_cons. apply ascending_insert, IH.
Qed.

Lemma below_filter (P : string -> bool) n l : below n l -> below n (List.filter P l).
Proof.
  intros H. apply List.Forall_forall. intros x Hx. apply filter_In in Hx.
  destruct Hx as [Hx _]. revert x Hx. apply List.Forall_forall. exact H.
Qed.

(** Leaving names out and putting the rest in order is putting all in order
    and leaving the same names out. *)
Lemma filter_insert (P : string -> bool) n l :
  ascending l ->
  List.filter P (Storage.insert n l) =
  if P n then Storage.insert n (List.filter P l) else List.filter P l.
Proof.
  induction 1 as [ | m r Hm Hr IH ].
  - cbn. destruct (P n); reflexivity.
  - cbn [Storage.insert]. destruct (String.leb n m) eqn:Hnm.
    + cbn [List.filter]. destruct (P n) eqn:Hn; [ | reflexivity ].
      symmetry. apply (insert_below n (List.filter P (m :: r))).
      apply below_filter. constructor; [ exact Hnm | ]. eapply below_trans; eassumption.
    + cbn [List.filter]. rewrite IH. destruct (P m) eqn:Hpm; destruct (P n) eqn:Hn;
        try reflexivity.
      cbn [Storage.insert]. rewrite Hnm. reflexivity.
Qed.

Lemma filter_sortBy_name (P : string -> bool) l :
  List.filter P (Storage.sortBy_name l) = Storage.sortBy_name (List.filter P l).
Proof.
  induction l as [ | n l IH ]; [ reflexivity | ].
  rewrite sortBy_name_cons, filter_insert by apply ascending_sortBy_name.
  rewrite IH. cbn [List.filter]. destruct (P n); reflexivity.
Qed.

(** Within the limit the listing leaves no name out. *)
Lemma listing_all st b :
  (List.length (Storage.names st b) <= Storage.limit)%nat ->
  Storage.listing st b = Storage.sortBy_name (Storage.names st b).
Proof.
  intros H. unfold Storage.listing. apply firstn_all2.
  rewrite length_sortBy_name. exact H.
Qed.

Lemma listing_In st b f : In f (Storage.listing st b) -> In f (Storage.names st b).
Proof.
  unfold Storage.listing. intros H. apply In_sortBy_name.
  rewrite <- (firstn_skipn Storage.limit). apply in_or_app. left. exact H.
Qed.

(** ** Deleting a slot, then listing *)

Lemma getGridImages_clear E s :
  has_config E = true ->
  (forall i, faults E i = Answers) ->
  Storage.has_bucket (remote s) (bucketName (svc s)) = true ->
  exists s',
    SupabaseService.getGridImages E s =
      (Normal (SupabaseService.collect (public_url E (bucketName (svc s)))
                 (Storage.listing (remote s) (bucketName (svc s)))), s').
Proof.
  intros Hc Hall Hb.
  unfold SupabaseService.getGridImages. plumb. rewrite Hc.
  ensure_here.
  destruct Hext as [_ _ _ _ Hname _ _ _].
  destruct Hsp as [_ _ Hobj Hbk _ _ _ _ _ Hclear _].
  assert (b = true) as -> by (apply Hclear; auto).
  assert (Hb0 : Storage.has_bucket (remote s0) (bucketName (svc s0)) = true)
    by (rewrite Hname; apply Hbk, Hb).
  assert (Hl0 : Storage.listing (remote s0) (bucketName (svc s0))
                = Storage.listing (remote s) (bucketName (svc s)))
    by (unfold Storage.listing, Storage.names in *; rewrite Hobj, Hname; reflexivity).
  cbn [negb]. rewrite !log_run. unfold external. rewrite Hall.
  unfold Storage.listObjects. norm. rewrite Hb0, Hl0. norm. plumb.
  destruct (Storage.listing (remote s) (bucketName (svc s))) as [ | f files ] eqn:Hfiles.
  - rewrite !log_run. norm. eexists. reflexivity.
  - rewrite !log_run. norm. rewrite Hname. eexists. reflexivity.
Qed.

Lemma existsb_eqb_filter (P : string -> bool) l x :
  In x l -> existsb (String.eqb x) (List.filter P l) = P x.
Proof.
  intros Hin. destruct (P x) eqn:Hp.
  - apply existsb_exists. exists x. split; [ apply filter_In; split; assumption | apply String.eqb_refl ].
  - destruct (existsb (String.eqb x) (List.filter P l)) eqn:He; [ | reflexivity ].
    apply existsb_exists in He. destruct He as (y & Hy & Hxy).
    apply String.eqb_eq in Hxy. subst y. apply filter_In in Hy. destruct Hy. congruence.
Qed.

Lemma existsb_eqb_filter_listed (P : string -> bool) l x :
  existsb (String.eqb x) (List.filter P l) = P x && existsb (String.eqb x) l.
Proof.
  destruct (existsb (String.eqb x) l) eqn:He.
  - apply existsb_exists in He. destruct He as (y & Hy & Hxy).
    apply String.eqb_eq in Hxy. subst y.
    rewrite (existsb_eqb_filter P l x Hy), andb_true_r. reflexivity.
  - rewrite andb_false_r.
    destruct (existsb (String.eqb x) (List.filter P l)) eqn:Hf; [ | reflexivity ].
    apply existsb_exists in Hf. destruct Hf as (y & Hy & Hxy).
    apply filter_In in Hy. destruct Hy as [Hy _].
    assert (Ht : existsb (String.eqb x) l = true)
      by (apply existsb_exists; exists y; split; assumption).
    congruence.
Qed.

(** What is left of bucket [b] once the names of [listed] that satisfy [P]
    have been removed. *)
Lemma names_after_remove (P : string -> bool) b listed objs :
  let names := List.filter P listed in
  List.map snd (List.filter (fun o => String.eqb (fst o) b)
     (List.filter (fun o => negb (Storage.removed b names o)) objs))
  = List.filter (fun f => negb (P f && existsb (String.eqb f) listed))
      (List.map snd (List.filter (fun o => String.eqb (fst o) b) objs)).
Proof.
  intros names. induction objs as [ | o objs IH ]; [ reflexivity | ].
  cbn [List.filter]. unfold Storage.removed at 1. unfold names at 1.
  rewrite existsb_eqb_filter_listed.
  destruct (String.eqb (fst o) b) eqn:Hb; cbn [andb negb List.map List.filter].
  - destruct (P (snd o) && existsb (String.eqb (snd o)) listed);
      cbn [negb List.filter List.map]; [ exact IH | ].
    rewrite Hb. cbn [List.map]. f_equal. exact IH.
  - rewrite Hb. exact IH.
Qed.

Lemma filter_all_true {A} (P : A -> bool) l :
  (forall x, In x l -> P x = true) -> List.filter P l = l.
Proof.
  induction l as [ | a l IH ]; intros H; [ reflexivity | ].
  cbn. rewrite (H a (or_introl eq_refl)). f_equal. apply IH. intros x Hx. apply H. right. exact Hx.
Qed.

Lemma existsb_eqb_In x l : In x l -> existsb (String.eqb x) l = true.
Proof.
  intros H. apply existsb_exists. exists x. split; [ exact H | apply String.eqb_refl ].
Qed.

Lemma length_filter_le {A} (P : A -> bool) l : (List.length (List.filter P l) <= List.length l)%nat.
Proof.
  induction l as [ | a l IH ]; cbn; [ lia | ]. destruct (P a); cbn; lia.
Qed.

(** The objects [deleteImage(n)] looks for. *)
Definition of_slot (n : JS.number) (f : string) : bool :=
  JS.startsWith f ("slot-" ++ JS.number_to_string n ++ "-").

(** The names [deleteImage(n)] has removed are those of the listing it was
    given that start with [slot-{n}-]. *)
Definition taken (n : JS.number) (listed : list string) (f : string) : bool :=
  of_slot n f && existsb (String.eqb f) listed.

Lemma deleteImage_clear E s n u :
  has_config E = true ->
  session E = Some u ->
  (forall i, faults E i = Answers) ->
  Storage.has_bucket (remote s) (bucketName (svc s)) = true ->
  exists s1,
    SupabaseService.deleteImage n E s = (Normal true, s1) /\
    bucketName (svc s1) = bucketName (svc s) /\
    Storage.has_bucket (remote s1) (bucketName (svc s)) = true /\
    Storage.names (remote s1) (bucketName (svc s)) =
      List.filter
        (fun f => negb (taken n (Storage.listing (remote s) (bucketName (svc s))) f))
        (Storage.names (remote s) (bucketName (svc s))) /\
    (List.filter (of_slot n) (Storage.listing (remote s) (bucketName (svc s))) = [] ->
     objects (remote s1) = objects (remote s) /\
     Forall (fun c => is_remove (fst c) = false) (calls_since s s1)).
Proof.
  intros Hc Hu Hall Hb.
  unfold SupabaseService.deleteImage, SupabaseService.auth_getSession. plumb. rewrite Hc.
  unfold external at 1. rewrite Hall. norm. rewrite Hu.
  ensure_here. norm.
  destruct Hext as [_ _ _ _ Hname _ _ _]. norm.
  destruct Hsp as [Htr _ Hobj Hbk _ _ _ _ _ Hclear Hkind]. norm.
  assert (b = true) as -> by (apply Hclear; auto).
  assert (Hb0 : Storage.has_bucket (remote s0) (bucketName (svc s0)) = true)
    by (rewrite Hname; apply Hbk, Hb).
  assert (Hl0 : Storage.listing (remote s0) (bucketName (svc s0))
                = Storage.listing (remote s) (bucketName (svc s)))
    by (unfold Storage.listing, Storage.names in *; rewrite Hobj, Hname; reflexivity).
  cbn [negb]. rewrite !log_run. unfold external at 1. rewrite Hall.
  unfold Storage.listObjects. norm. rewrite Hb0, Hl0. norm. plumb.
  change (fun f : string => JS.startsWith f ("slot-" ++ JS.number_to_string n ++ "-"))
    with (of_slot n).
  destruct (List.filter (of_slot n) (Storage.listing (remote s) (bucketName (svc s))))
    as [ | f files ] eqn:Hfiles.
  - rewrite !log_run. norm. eexists. split; [ reflexivity | ]. norm.
    split; [ exact Hname | ]. split; [ rewrite <- Hname; exact Hb0 | ].
    split.
    + transitivity (Storage.names (remote s) (bucketName (svc s)));
        [ unfold Storage.names; rewrite ?Hobj, ?Hname; reflexivity | ].
      symmetry. apply filter_all_true. intros x _. unfold taken.
      destruct (of_slot n x) eqn:Hx; [ | reflexivity ].
      destruct (existsb (String.eqb x) (Storage.listing (remote s) (bucketName (svc s))))
        eqn:He; [ | reflexivity ].
      apply existsb_exists in He. destruct He as (y & Hy & Hxy).
      apply String.eqb_eq in Hxy. subst y.
      assert (Hin : In x (List.filter (of_slot n)
                            (Storage.listing (remote s) (bucketName (svc s)))))
        by (apply filter_In; split; assumption).
      rewrite Hfiles in Hin. destruct Hin.
    + intros _. split; [ exact Hobj | ].
      erewrite calls_since_app by (norm; rewrite Htr, <- !app_assoc; reflexivity).
      apply Forall_app. split; [ repeat constructor | ].
      apply Forall_app. split; [ | repeat constructor ].
      eapply Forall_impl; [ exact Hkind | ]. intros [c o] Hk. cbn in *.
      destruct c; try discriminate; reflexivity.
  - rewrite !log_run. unfold external at 1. rewrite Hall.
    unfold Storage.remove. rewrite Hu. norm. plumb. rewrite !log_run. norm.
    eexists. split; [ reflexivity | ]. norm.
    split; [ exact Hname | ]. split; [ exact (Hbk _ Hb) | ].
    split; [ | intros [=] ].
    unfold Storage.names. norm. rewrite Hobj, Hname, <- Hfiles.
    apply names_after_remove.
Qed.

(** Within the limit every name that starts with [slot-{n}-] is listed, and
    taken. *)
Lemma taken_within_limit n st b :
  (List.length (Storage.names st b) <= Storage.limit)%nat ->
  List.filter (fun f => negb (taken n (Storage.listing st b) f)) (Storage.names st b)
  = List.filter (fun f => negb (of_slot n f)) (Storage.names st b).
Proof.
  intros Hlim. apply filter_ext_in. intros f Hf. unfold taken.
  rewrite (existsb_eqb_In f (Storage.listing st b)); [ rewrite andb_true_r; reflexivity | ].
  rewrite listing_all by exact Hlim. apply In_sortBy_name. exact Hf.
Qed.

Lemma listing_of_filter (P : string -> bool) st st' b :
  (List.length (Storage.names st b) <= Storage.limit)%nat ->
  Storage.names st' b = List.filter P (Storage.names st b) ->
  Storage.listing st' b = List.filter P (Storage.listing st b).
Proof.
  intros Hlim Hn.
  rewrite (listing_all st b Hlim), listing_all.
  - rewrite Hn. symmetry. apply filter_sortBy_name.
  - rewrite Hn. pose proof (length_filter_le P (Storage.names st b)). lia.
Qed.

(** The claim as the spec words it: after [deleteImage(n)] has succeeded, the
    listing has nothing under [n]. *)
Definition absent_after_delete (E : environment) (s : state) (n : JS.number) : Prop :=
  forall s1 m s2,
    SupabaseService.deleteImage n E s = (Normal true, s1) ->
    SupabaseService.getGridImages E s1 = (Normal m, s2) ->
    Obj.get m (JS.number_to_string n) = None.




(** A bucket with the objects [slot-0-1700000000000.jpg] to
    [slot-0-1700000000100.jpg], one more than a listing returns. *)
Definition crowded : list string :=
  List.map (fun k => "slot-0-" ++ JS.number_to_string (JS.Int (1700000000000 + Z.of_nat k))
                     ++ ".jpg")
    (seq 0 101).

(** Beyond the limit [deleteImage(0)] succeeds and leaves the object that
    the listing left out; the listing made right after reports slot 0. *)
Lemma deleteImage_beyond_the_limit :
  let E := sample_env (Some "u1") in
  let r1 := SupabaseService.deleteImage (JS.Int 0) E (start (sample_store crowded)) in
  let r2 := SupabaseService.getGridImages E (snd r1) in
  fst r1 = Normal true /\
  Storage.names (remote (snd r1)) DEFAULT_BUCKET_NAME = ["slot-0-1700000000100.jpg"] /\
  fst r2 = Normal [("0", sample_url "slot-0-1700000000100.jpg")] /\
  ~ absent_after_delete E (start (sample_store crowded)) (JS.Int 0).
Proof.
  cbv zeta.
  assert (H1 : fst (SupabaseService.deleteImage (JS.Int 0) (sample_env (Some "u1"))
                      (start (sample_store crowded))) = Normal true)
    by (vm_compute; reflexivity).
  assert (H2 : fst (SupabaseService.getGridImages (sample_env (Some "u1"))
                      (snd (SupabaseService.deleteImage (JS.Int 0) (sample_env (Some "u1"))
                              (start (sample_store crowded)))))
               = Normal [("0", sample_url "slot-0-1700000000100.jpg")])
    by (vm_compute; reflexivity).
  split; [ exact H1 | ]. split; [ vm_compute; reflexivity | ]. split; [ exact H2 | ].
  intros H.
  specialize (H (snd (SupabaseService.deleteImage (JS.Int 0) (sample_env (Some "u1"))
                        (start (sample_store crowded))))
                [("0", sample_url "slot-0-1700000000100.jpg")]
                (snd (SupabaseService.getGridImages (sample_env (Some "u1"))
                        (snd (SupabaseService.deleteImage (JS.Int 0) (sample_env (Some "u1"))
                                (start (sample_store crowded))))))).
  assert (G1 : forall {A B} (p : A * B) a, fst p = a -> p = (a, snd p))
    by (intros A B [x y] a; cbn; congruence).
  specialize (H (G1 _ _ _ _ H1) (G1 _ _ _ _ H2)).
  vm_compute in H. discriminate H.
Qed.

(** ** Reloading the grid *)

Lemma array_get_set_other a j x i :
  i <> j -> array_get (array_set a j x) i = array_get a i.
Proof.
  intros Hne. unfold array_get, array_set.
  destruct (j <? List.length a)%nat eqn:Hj.
  - apply Nat.ltb_lt in Hj. revert i j Hne Hj.
    induction a as [ | y a IH ]; intros i j Hne Hj; cbn in Hj; [ lia | ].
    destruct j as [ | j ], i as [ | i ]; cbn; try congruence.
    apply IH; [ congruence | lia ].
  - apply Nat.ltb_ge in Hj.
    destruct (Nat.lt_ge_cases i (List.length a)) as [Hi | Hi].
    + rewrite app_nth1 by exact Hi. reflexivity.
    + rewrite app_nth2 by exact Hi. rewrite (nth_overflow a) by exact Hi.
      destruct (Nat.lt_ge_cases (i - List.length a) (j - List.length a)) as [Hk | Hk].
      * rewrite app_nth1 by (rewrite repeat_length; exact Hk). apply nth_repeat.
      * rewrite app_nth2 by (rewrite repeat_length; exact Hk). rewrite repeat_length.
        destruct (i - List.length a - (j - List.length a))%nat as [ | k ] eqn:Hd; [ lia | ].
        cbn. destruct k; reflexivity.
Qed.

(** What the loader does by design: an entry changes the slot its key reads
    as, under [Number.parseInt], and no other. *)
Lemma merge_untouched images m i :
  (forall e, In e (Obj.entries m) -> JS.parseInt (fst e) <> JS.Int (Z.of_nat i)) ->
  array_get (NinePictureGrid.merge images m) i = array_get images i.
Proof.
  unfold NinePictureGrid.merge. revert images.
  induction (Obj.entries m) as [ | e rest IH ]; intros images H; cbn [fold_left].
  - reflexivity.
  - rewrite IH by (intros e' He'; apply H; right; exact He').
    unfold NinePictureGrid.apply_entry. destruct e as [slotStr imageUrl].
    specialize (H (slotStr, imageUrl) (or_introl eq_refl)). cbn [fst] in H.
    destruct (JS.parseInt slotStr) as [ | neg | z ];
      cbn [JS.isNaN JS.geb JS.ltb negb andb]; try reflexivity.
    + destruct neg; reflexivity.
    + destruct (0 <=? z) eqn:H0; [ | reflexivity ].
      destruct (z <? 9) eqn:H9; [ | reflexivity ].
      cbn [andb JS.index]. apply array_get_set_other.
      intros ->. apply H. rewrite Z2Nat.id by lia. reflexivity.
Qed.

(** Every object whose name matches the pattern gets its key into the
    mapping, whatever its slot number. *)
Lemma add_file_keeps url o f key :
  is_Some (Obj.get o key) -> is_Some (Obj.get (SupabaseService.add_file url o f) key).
Proof.
  intros Ho. unfold SupabaseService.add_file. destruct (match_slot f); [ | exact Ho ].
  destruct (String.eqb_spec (JS.number_to_string (JS.parseInt s)) key) as [<- | Hne].
  - rewrite get_set_eq. eexists. reflexivity.
  - rewrite get_set_ne by exact Hne. exact Ho.
Qed.

Lemma collect_has_key url files name key :
  In name files -> slot_key name = Some key ->
  is_Some (Obj.get (SupabaseService.collect url files) key).
Proof.
  intros Hin Hk. apply in_split in Hin. destruct Hin as (before & rest & ->).
  unfold SupabaseService.collect. rewrite fold_left_app. cbn [fold_left].
  assert (H0 : is_Some (Obj.get
                 (SupabaseService.add_file url
                    (fold_left (SupabaseService.add_file url) before Obj.empty) name) key))
    by (rewrite (add_file_same _ _ _ _ Hk); eexists; reflexivity).
  revert H0.
  generalize (SupabaseService.add_file url
                (fold_left (SupabaseService.add_file url) before Obj.empty) name).
  induction rest as [ | f rest IH ]; intros o Ho; cbn [fold_left].
  - exact Ho.
  - apply IH, add_file_keeps, Ho.
Qed.

(** *** Keys that read back as themselves *)

Lemma digit_char_value d : 0 <= d <= 9 -> JS.digit_value (JS.digit_char d) = d.
Proof.
  intros H.
  assert (C : d = 0 \/ d = 1 \/ d = 2 \/ d = 3 \/ d = 4 \/ d = 5 \/ d = 6 \/ d = 7 \/ d = 8 \/ d = 9) by lia.
  repeat (destruct C as [-> | C]; [ reflexivity | ]). subst d. reflexivity.
Qed.

Lemma digit_char_is_digit d : 0 <= d <= 9 -> JS.is_digit (JS.digit_char d) = true.
Proof.
  intros H.
  assert (C : d = 0 \/ d = 1 \/ d = 2 \/ d = 3 \/ d = 4 \/ d = 5 \/ d = 6 \/ d = 7 \/ d = 8 \/ d = 9) by lia.
  repeat (destruct C as [-> | C]; [ reflexivity | ]). subst d. reflexivity.
Qed.

Lemma digits_value_from_app a s :
  JS.digits_value_from a s = a * 10 ^ Z.of_nat (String.length s) + JS.digits_value s.
Proof.
  unfold JS.digits_value. revert a.
  induction s as [ | c s IH ]; intros a; cbn [JS.digits_value_from String.length].
  - cbn. lia.
  - rewrite IH. rewrite (IH (10 * 0 + JS.digit_value c)).
    rewrite Nat2Z.inj_succ, Z.pow_succ_r by lia. ring.
Qed.

(** The digits [decimal_from] writes are those of [z], in front of [acc]. *)
Lemma decimal_from_value fuel :
  forall z acc,
    0 <= z < 2 ^ (Z.of_nat fuel + 1) ->
    JS.digits_value (JS.decimal_from fuel z acc)
    = z * 10 ^ Z.of_nat (String.length acc) + JS.digits_value acc.
Proof.
  induction fuel as [ | fuel IH ]; intros z acc Hz; cbn [JS.decimal_from].
  - change (2 ^ (Z.of_nat 0 + 1)) with 2 in Hz.
    unfold JS.digits_value at 1. cbn [JS.digits_value_from].
    rewrite digits_value_from_app, digit_char_value by (rewrite Z.mod_small; lia).
    rewrite Z.mod_small by lia. ring.
  - assert (Hm : 0 <= z mod 10 <= 9) by (pose proof (Z.mod_pos_bound z 10); lia).
    destruct (z <? 10) eqn:H10.
    + apply Z.ltb_lt in H10.
      unfold JS.digits_value at 1. cbn [JS.digits_value_from].
      rewrite digits_value_from_app, digit_char_value by exact Hm.
      rewrite Z.mod_small by lia. ring.
    + apply Z.ltb_ge in H10.
      rewrite IH.
      * cbn [String.length]. unfold JS.digits_value at 1. cbn [JS.digits_value_from].
        rewrite digits_value_from_app, digit_char_value by exact Hm.
        rewrite Nat2Z.inj_succ, Z.pow_succ_r by lia.
        pose proof (Z.div_mod z 10). lia.
      * split; [ apply Z.div_pos; lia | ].
        apply Z.div_lt_upper_bound; [ lia | ].
        replace (Z.of_nat (S fuel) + 1) with (Z.succ (Z.of_nat fuel + 1)) in Hz by lia.
        rewrite Z.pow_succ_r in Hz by lia. lia.
Qed.

Lemma decimal_from_digits fuel :
  forall z acc,
    0 <= z ->
    JS.take_digits acc = acc ->
    JS.take_digits (JS.decimal_from fuel z acc) = JS.decimal_from fuel z acc /\
    exists c r, JS.decimal_from fuel z acc = String c r /\ JS.is_digit c = true.
Proof.
  induction fuel as [ | fuel IH ]; intros z acc Hz Hacc; cbn [JS.decimal_from].
  - assert (Hm : 0 <= z mod 10 <= 9) by (pose proof (Z.mod_pos_bound z 10); lia).
    cbn [JS.take_digits]. rewrite digit_char_is_digit, Hacc by exact Hm.
    split; [ reflexivity | ]. eexists _, _. split; [ reflexivity | ].
    apply digit_char_is_digit, Hm.
  - assert (Hm : 0 <= z mod 10 <= 9) by (pose proof (Z.mod_pos_bound z 10); lia).
    destruct (z <? 10) eqn:H10.
    + cbn [JS.take_digits]. rewrite digit_char_is_digit, Hacc by exact Hm.
      split; [ reflexivity | ]. eexists _, _. split; [ reflexivity | ].
      apply digit_char_is_digit, Hm.
    + apply IH; [ apply Z.div_pos; lia | ].
      cbn [JS.take_digits]. rewrite digit_char_is_digit, Hacc by exact Hm. reflexivity.
Qed.

Lemma to_double_small v : 0 <= v < 2 ^ 53 -> JS.to_double v = JS.Int v.
Proof.
  intros H. unfold JS.to_double, JS.round_to_double.
  rewrite Z.abs_eq by lia.
  destruct (v <? 2 ^ 53) eqn:Hv; [ | apply Z.ltb_ge in Hv; lia ].
  destruct (2 ^ 1024 <=? v) eqn:Hb.
  - apply Z.leb_le in Hb. assert (2 ^ 53 < 2 ^ 1024) by (apply Z.pow_lt_mono_r; lia). lia.
  - f_equal. destruct (Z.eq_dec v 0) as [-> | Hne]; [ reflexivity | ].
    rewrite Z.sgn_pos by lia. lia.
Qed.

(** A string of digits that starts with a digit is read by [parseInt] as
    its value. *)
Lemma parseInt_digits c r :
  JS.is_digit c = true -> JS.take_digits (String c r) = String c r ->
  JS.parseInt (String c r) = JS.to_double (JS.digits_value (String c r)).
Proof.
  intros Hc Hd. unfold JS.parseInt.
  assert (Hw : JS.trim_start (String c r) = String c r).
  { cbn [JS.trim_start]. destruct c as [[] [] [] [] [] [] [] []]; try discriminate Hc; reflexivity. }
  rewrite Hw.
  assert (Hs : (match String c r with
                | String "-" r0 => (true, r0)
                | String "+" r0 => (false, r0)
                | _ => (false, String c r)
                end) = (false, String c r)).
  { destruct c as [[] [] [] [] [] [] [] []]; try discriminate Hc; reflexivity. }
  rewrite Hs. rewrite Hd.
  rewrite Z.mul_1_l. reflexivity.
Qed.

Lemma log2_bound z : 0 <= z -> z < 2 ^ (Z.of_nat (Z.to_nat (Z.log2 z)) + 1).
Proof.
  intros H. rewrite Z2Nat.id by apply Z.log2_nonneg.
  destruct (Z.eq_dec z 0) as [-> | Hne]; [ reflexivity | ].
  replace (Z.log2 z + 1) with (Z.succ (Z.log2 z)) by lia.
  apply Z.log2_spec. lia.
Qed.

(** A number below [2^53] is read back from its key. *)
Lemma parseInt_number_to_string v :
  0 <= v < 2 ^ 53 -> JS.parseInt (JS.number_to_string (JS.Int v)) = JS.Int v.
Proof.
  intros H. unfold JS.number_to_string, JS.string_of_nonneg.
  destruct (v <? 0) eqn:Hn; [ apply Z.ltb_lt in Hn; lia | ].
  destruct (v <? 2 ^ 53) eqn:Hv; [ | apply Z.ltb_ge in Hv; lia ].
  unfold JS.decimal.
  destruct (decimal_from_digits (Z.to_nat (Z.log2 v)) v EmptyString) as (Hd & c & r & Hs & Hc);
    [ lia | reflexivity | ].
  rewrite Hs in *. rewrite parseInt_digits by assumption.
  rewrite <- Hs, decimal_from_value by (split; [ lia | apply log2_bound; lia ]).
  cbn [String.length JS.digits_value]. unfold JS.digits_value. cbn [JS.digits_value_from].
  replace (v * 10 ^ Z.of_nat 0 + 0) with v by (cbn; lia).
  apply to_double_small, H.
Qed.

Lemma take_digits_idem s : JS.take_digits (JS.take_digits s) = JS.take_digits s.
Proof.
  induction s as [ | c s IH ]; cbn [JS.take_digits]; [ reflexivity | ].
  destruct (JS.is_digit c) eqn:Hc; cbn [JS.take_digits]; [ | reflexivity ].
  rewrite Hc, IH. reflexivity.
Qed.

(** What the pattern captures is a non-empty run of digits. *)
Lemma match_slot_digits f d :
  match_slot f = Some d ->
  exists c r, d = String c r /\ JS.is_digit c = true /\ JS.take_digits d = d.
Proof.
  unfold match_slot. destruct (strip_prefix "slot-" f) as [r0 | ]; [ | discriminate ].
  destruct (JS.take_digits r0) as [ | c d' ] eqn:Ht; [ discriminate | ].
  destruct (JS.drop_digits r0) as [ | c' r' ]; [ discriminate | ].
  destruct (Ascii.eqb_spec c' "-") as [-> | Hne].
  - intros [= <-]. exists c, d'. split; [ reflexivity | ].
    split.
    + destruct r0 as [ | c0 r1 ]; cbn [JS.take_digits] in Ht; [ discriminate | ].
      destruct (JS.is_digit c0) eqn:Hc0; [ | discriminate ]. congruence.
    + rewrite <- Ht. apply take_digits_idem.
  - destruct c' as [[] [] [] [] [] [] [] []]; try discriminate; congruence.
Qed.

Lemma digits_value_from_nonneg s :
  JS.take_digits s = s -> forall a, 0 <= a -> 0 <= JS.digits_value_from a s.
Proof.
  induction s as [ | c s IH ]; cbn [JS.take_digits JS.digits_value_from]; intros H a Ha.
  - exact Ha.
  - destruct (JS.is_digit c) eqn:Hc; [ | discriminate ]. injection H as H.
    apply IH; [ exact H | ]. unfold JS.is_digit in Hc. unfold JS.digit_value. lia.
Qed.

(** The key of an object whose slot number is below [2^53] reads back as
    that number. *)
Lemma plain_key_reads_back f d :
  match_slot f = Some d -> JS.digits_value d < 2 ^ 53 ->
  JS.parseInt (JS.number_to_string (JS.parseInt d)) = JS.Int (JS.digits_value d).
Proof.
  intros Hm Hv. destruct (match_slot_digits f d Hm) as (c & r & -> & Hc & Hd).
  rewrite parseInt_digits by assumption.
  assert (H0 : 0 <= JS.digits_value (String c r))
    by (apply digits_value_from_nonneg; [ exact Hd | lia ]).
  rewrite to_double_small by lia. apply parseInt_number_to_string. lia.
Qed.

Lemma set_keys o k v x : In x (Obj.set o k v) -> In x o \/ fst x = k.
Proof.
  induction o as [ | [k' v'] r IH ]; cbn.
  - intros [<- | []]. right. reflexivity.
  - destruct (String.eqb_spec k' k) as [-> | Hne]; cbn.
    + intros [<- | H]; [ right; reflexivity | left; right; exact H ].
    + intros [<- | H]; [ left; left; reflexivity | ].
      destruct (IH H) as [H' | H']; [ left; right; exact H' | right; exact H' ].
Qed.

(** Every key of the mapping is the printed slot number of a listed object. *)
Lemma collect_keys url files x :
  In x (SupabaseService.collect url files) ->
  exists f d, In f files /\ match_slot f = Some d /\
              fst x = JS.number_to_string (JS.parseInt d).
Proof.
  unfold SupabaseService.collect.
  assert (G : forall done o,
              (forall y, In y o -> exists f d, In f done /\ match_slot f = Some d /\
                                               fst y = JS.number_to_string (JS.parseInt d)) ->
              forall y, In y (fold_left (SupabaseService.add_file url) files o) ->
              exists f d, In f (done ++ files)%list /\ match_slot f = Some d /\
                          fst y = JS.number_to_string (JS.parseInt d)).
  { induction files as [ | f rest IH ]; intros done o Ho y; cbn [fold_left].
    - intros Hy. destruct (Ho y Hy) as (f & d & Hf & Hm & Hk).
      exists f, d. rewrite app_nil_r. auto.
    - intros Hy.
      destruct (IH (done ++ [f])%list (SupabaseService.add_file url o f)) with (y := y)
        as (g & d & Hg & Hm & Hk).
      + intros z Hz. unfold SupabaseService.add_file in Hz.
        destruct (match_slot f) as [d | ] eqn:Hmf.
        * apply set_keys in Hz. destruct Hz as [Hz | Hz].
          -- destruct (Ho z Hz) as (g & d' & Hg & Hm & Hk).
             exists g, d'. split; [ apply in_or_app; left; exact Hg | auto ].
          -- exists f, d. split; [ apply in_or_app; right; left; reflexivity | auto ].
        * destruct (Ho z Hz) as (g & d' & Hg & Hm & Hk).
          exists g, d'. split; [ apply in_or_app; left; exact Hg | auto ].
      + exact Hy.
      + exists g, d. rewrite <- app_assoc in Hg. auto. }
  intros Hx. apply (G [] Obj.empty); [ intros y [] | exact Hx ].
Qed.

(** With slot numbers below [2^53] the reload leaves alone every slot that
    is the number of no listed object. *)
Lemma reload_keeps_other_slots images url files i :
  (forall f d, In f files -> match_slot f = Some d ->
               JS.digits_value d < 2 ^ 53 /\ JS.digits_value d <> Z.of_nat i) ->
  array_get (NinePictureGrid.merge images (SupabaseService.collect url files)) i
  = array_get images i.
Proof.
  intros H. apply merge_untouched. intros e He.
  apply entries_In, collect_keys in He. destruct He as (f & d & Hf & Hm & ->).
  destruct (H f d Hf Hm) as [Hv Hne].
  rewrite (plain_key_reads_back f d Hm Hv). congruence.
Qed.

(** With slot numbers from 9 up to [2^53] the reload changes nothing. *)
Lemma reload_ignores_out_of_range images url files :
  (forall f d, In f files -> match_slot f = Some d -> 9 <= JS.digits_value d < 2 ^ 53) ->
  NinePictureGrid.merge images (SupabaseService.collect url files) = images.
Proof.
  intros H. unfold NinePictureGrid.merge.
  assert (He : forall e, In e (Obj.entries (SupabaseService.collect url files)) ->
                         forall a, NinePictureGrid.apply_entry a e = a).
  { intros e Hin a. apply entries_In, collect_keys in Hin.
    destruct Hin as (f & d & Hf & Hm & Hk). destruct (H f d Hf Hm) as [H9 Hv].
    unfold NinePictureGrid.apply_entry. destruct e as [k v]. cbn [fst] in Hk. subst k.
    rewrite (plain_key_reads_back f d Hm Hv). cbn [JS.isNaN JS.geb JS.ltb negb].
    destruct (JS.digits_value d <? 9) eqn:Hlt; [ apply Z.ltb_lt in Hlt; lia | ].
    rewrite andb_false_r. reflexivity. }
  revert images. induction (Obj.entries (SupabaseService.collect url files)) as [ | e rest IH ];
    intros images; cbn [fold_left]; [ reflexivity | ].
  rewrite He by (left; reflexivity). apply IH. intros e' He'. apply He. right. exact He'.
Qed.

(** The slot number [10^21] is a double that prints as [1e+21]. *)
Definition huge_name : string := "slot-1000000000000000000000-1.jpg".

(** C10 (failing input): an object whose slot number is [10^21], far outside
    the grid, is filed under the key [1e+21] by [getGridImages]; the loader
    reads that key back with [Number.parseInt] as 1 and writes the object's
    URL into slot 1 of the nine-element array. *)
Theorem C10_huge_slot_number_fills_slot_1 :
  match_slot huge_name = Some "1000000000000000000000" /\
  JS.parseInt "1000000000000000000000" = JS.Int (10 ^ 21) /\
  slot_key huge_name = Some "1e+21" /\
  JS.parseInt "1e+21" = JS.Int 1 /\
  Grid.images
    (ui (snd (NinePictureGrid.handle None NinePictureGrid.Load (sample_env None)
                (start (sample_store [huge_name])))))
  = [ EmptyString; sample_url huge_name; EmptyString; EmptyString; EmptyString;
      EmptyString; EmptyString; EmptyString; EmptyString ].
Proof. repeat split; vm_compute; reflexivity. Qed.

(** C9 (failing input): slot 1 shows an image whose object has since been
    removed; the bucket holds only the object with slot number [10^21]. The
    mapping returned has no entry for slot 1, and still the reload replaces
    what slot 1 held. *)
Theorem C9_reload_overwrites_absent_slot :
  let E := sample_env None in
  let s := start (sample_store [huge_name]) in
  let images :=
    EmptyString :: sample_url "slot-1-1699999999999.jpg" :: List.repeat EmptyString 7 in
  exists m s',
    SupabaseService.getGridImages E s = (Normal m, s') /\
    Obj.get m (JS.number_to_string (JS.Int 1)) = None /\
    array_get images 1 = sample_url "slot-1-1699999999999.jpg" /\
    array_get (NinePictureGrid.merge images m) 1 = sample_url huge_name /\
    array_get
      (Grid.images
         (ui (snd (NinePictureGrid.dispatch images None NinePictureGrid.Load E s)))) 1
    = sample_url huge_name.
Proof.
  cbv zeta. eexists _, _. split; [ vm_compute; reflexivity | ].
  repeat split; vm_compute; reflexivity.
Qed.

(** * Further properties of the code *)

(** ** [ensureBucketExists] *)

Lemma ensureBucketExists_finds E s :
  bucketInitialized (svc s) = false ->
  has_config E = true ->
  faults E (List.length (trace s)) = Answers ->
  Storage.has_bucket (remote s) (bucketName (svc s)) = true ->
  exists s',
    SupabaseService.ensureBucketExists E s = (Normal true, s') /\
    calls_since s s' = [ (StorageListBuckets, Resolved) ] /\
    remote s' = remote s /\
    bucketInitialized (svc s') = true.
Proof.
  intros Hi Hc F1 Hb. unfold Storage.has_bucket in Hb.
  unfold SupabaseService.ensureBucketExists.
  exec; norm; try congruence.
  eexists. split; [ reflexivity | ]. split; [ | split ].
  - apply calls_since_app. norm. reflexivity.
  - norm. reflexivity.
  - norm. reflexivity.
Qed.

(** At most two calls, and bucket calls only. *)
Lemma ensureBucketExists_calls E s :
  (List.length (calls_since s (snd (SupabaseService.ensureBucketExists E s))) <= 2)%nat.
Proof.
  unfold SupabaseService.ensureBucketExists.
  exec; try congruence.
  all: cbn [snd]; erewrite calls_since_app
         by (norm; first [ rewrite <- !app_assoc; reflexivity | reflexivity
                         | symmetry; apply app_nil_r ]).
  all: cbn; lia.
Qed.

(** X1: [ensureBucketExists] never throws; it makes at most two calls, both
    about buckets, touches no stored object, and sets the flag exactly when
    it returns true. *)
Theorem X1_ensureBucketExists_never_throws (E : environment) (s : state) :
  exists b s',
    SupabaseService.ensureBucketExists E s = (Normal b, s') /\
    (List.length (calls_since s s') <= 2)%nat /\
    Forall (fun c => is_bucket_call (fst c) = true) (calls_since s s') /\
    objects (remote s') = objects (remote s) /\
    bucketInitialized (svc s') = bucketInitialized (svc s) || b /\
    ui s' = ui s /\ slot_ui s' = slot_ui s /\ alerts s' = alerts s.
Proof.
  destruct (ensureBucketExists_spec E s) as (b & s' & t & l & Hrun & Hsp).
  pose proof (ensureBucketExists_calls E s) as Hn. rewrite Hrun in Hn. cbn [snd] in Hn.
  pose proof (extends_ensureBucketExists E s) as Hext. rewrite Hrun in Hext. cbn [snd] in Hext.
  destruct Hext as [Hui Hslot Hal _ _ _ _ _].
  destruct Hsp as [Htr _ Hobj _ Hflag _ _ _ _ _ Hkind].
  exists b, s'. split; [ exact Hrun | ]. split; [ exact Hn | ].
  split; [ rewrite (calls_since_app _ _ _ Htr); exact Hkind | ].
  repeat split; assumption.
Qed.

(** X2: a failure is not cached: after a call that returned false the flag is
    unset, and the next call, the network working, asks the provider again
    and returns true with the bucket in place. *)
Theorem X2_ensureBucketExists_retries (E E' : environment) (s s1 : state) :
  SupabaseService.ensureBucketExists E s = (Normal false, s1) ->
  has_config E' = true ->
  faults E' (List.length (trace s1)) = Answers ->
  faults E' (S (List.length (trace s1))) = Answers ->
  bucketInitialized (svc s1) = false /\
  exists s2,
    SupabaseService.ensureBucketExists E' s1 = (Normal true, s2) /\
    hd_error (calls_since s1 s2) = Some (StorageListBuckets, Resolved) /\
    Storage.has_bucket (remote s2) (bucketName (svc s1)) = true.
Proof.
  intros Hrun Hc F1 F2.
  destruct (ensureBucketExists_spec E s) as (b & s' & t & l & Hrun' & Hsp).
  rewrite Hrun in Hrun'. injection Hrun' as <- <-.
  destruct Hsp as [_ _ _ _ Hflag Hcached _ _ _ _ _].
  assert (Hi : bucketInitialized (svc s1) = false).
  { rewrite Hflag, orb_false_r. destruct (bucketInitialized (svc s)) eqn:Hs; [ | reflexivity ].
    destruct (Hcached eq_refl) as [Hb _]. discriminate Hb. }
  split; [ exact Hi | ].
  destruct (Storage.has_bucket (remote s1) (bucketName (svc s1))) eqn:Hb.
  - destruct (ensureBucketExists_finds E' s1 Hi Hc F1 Hb) as (s2 & Hrun2 & Hcalls & Hrem & _).
    exists s2. split; [ exact Hrun2 | ]. rewrite Hcalls, Hrem. split; [ reflexivity | exact Hb ].
  - destruct (ensureBucketExists_creates E' s1 Hi Hc F1 Hb F2) as (s2 & Hrun2 & Hcalls & Hbk & _).
    exists s2. split; [ exact Hrun2 | ]. rewrite Hcalls. split; [ reflexivity | ].
    unfold Storage.has_bucket. rewrite Hbk, existsb_app. cbn.
    rewrite String.eqb_refl. apply orb_true_iff. right. reflexivity.
Qed.

Lemma X2_ensureBucketExists_retries_witness :
  let E := with_faults (sample_env None) failing_all in
  let s := start empty_store in
  let s1 := snd (SupabaseService.ensureBucketExists E s) in
  bucketInitialized (svc s1) = false /\
  exists s2,
    SupabaseService.ensureBucketExists (sample_env None) s1 = (Normal true, s2) /\
    hd_error (calls_since s1 s2) = Some (StorageListBuckets, Resolved) /\
    Storage.has_bucket (remote s2) (bucketName (svc s1)) = true.
Proof.
  cbv zeta.
  apply (X2_ensureBucketExists_retries (with_faults (sample_env None) failing_all)
           (sample_env None) (start empty_store)).
  - vm_compute. reflexivity.
  - reflexivity.
  - reflexivity.
  - reflexivity.
Defined.

(** ** [testConnection] and the debug panel *)

Lemma testConnection_spec (E : environment) (s : state) :
  exists success error s',
    SupabaseService.testConnection E s = (Normal (success, error), s') /\
    (success = true <->
       has_config E = true /\ faults E (List.length (trace s)) = Answers) /\
    (success = true -> error = None) /\
    (success = false -> exists message, error = Some message) /\
    (has_config E = true ->
       exists o, calls_since s s' = [ (StorageListBuckets, o) ]) /\
    (has_config E = false -> calls_since s s' = []) /\
    remote s' = remote s /\ svc s' = svc s /\ ui s' = ui s.
Proof.
  unfold SupabaseService.testConnection, Storage.listBuckets.
  plumb. destruct (has_config E) eqn:C.
  - rewrite log_run. unfold external.
    destruct (faults E (List.length (trace (logged "Testing Supabase connection" Info s)))) eqn:F;
      autorewrite with state in F; rewrite ?F; norm; plumb; rewrite ?log_run; norm.
    + eexists _, _, _. split; [ reflexivity | ]. norm.
      repeat split; try congruence; try discriminate.
      eexists. apply calls_since_app. norm. reflexivity.
    + eexists _, _, _. split; [ reflexivity | ]. norm.
      repeat split; try congruence; try discriminate; try (intros [_ [=]]).
      * eexists; reflexivity.
      * eexists. apply calls_since_app. norm. reflexivity.
    + eexists _, _, _. split; [ reflexivity | ]. norm.
      repeat split; try congruence; try discriminate; try (intros [_ [=]]).
      * eexists; reflexivity.
      * eexists. apply calls_since_app. norm. reflexivity.
  - rewrite log_run. eexists _, _, _. split; [ reflexivity | ]. norm.
    repeat split; try congruence; try discriminate; try (intros [[=] _]).
    + eexists; reflexivity.
    + intros _. apply calls_since_app. norm. symmetry; apply app_nil_r.
Qed.

(** X3: [testConnection] never throws; it succeeds exactly when the
    configuration is there and [listBuckets] answers, gives a message
    otherwise, and makes that one call at most. *)
Theorem X3_testConnection_outcome (E : environment) (s : state) :
  exists success error s',
    SupabaseService.testConnection E s = (Normal (success, error), s') /\
    (success = true <->
       has_config E = true /\ faults E (List.length (trace s)) = Answers) /\
    (success = true -> error = None) /\
    (success = false -> exists message, error = Some message) /\
    (has_config E = true ->
       exists o, calls_since s s' = [ (StorageListBuckets, o) ]) /\
    (has_config E = false -> calls_since s s' = []) /\
    remote s' = remote s /\ svc s' = svc s /\ ui s' = ui s.
Proof.
  destruct (testConnection_spec E s) as (success & error & s' & H).
  exists success, error, s'. exact H.
Qed.

(** X4: the panel ends on [Connected] or [ConnectionError], never on
    [Checking]; [Connected] exactly when [testConnection] succeeded, an error
    message exactly with [ConnectionError]; the bucket fields are left alone. *)
Theorem X4_checkSupabaseConnection_outcome (E : environment) (s : state) (p : DebugPanel.state) :
  exists p' s',
    DebugPanel.checkSupabaseConnection p E s = (Normal p', s') /\
    DebugPanel.supabaseStatus p' <> DebugPanel.Checking /\
    (DebugPanel.supabaseStatus p' = DebugPanel.Connected <->
       has_config E = true /\ faults E (List.length (trace s)) = Answers) /\
    (DebugPanel.supabaseStatus p' = DebugPanel.Connected ->
       DebugPanel.supabaseError p' = None) /\
    (DebugPanel.supabaseStatus p' = DebugPanel.ConnectionError ->
       exists message, DebugPanel.supabaseError p' = Some message) /\
    DebugPanel.bucketStatus p' = DebugPanel.bucketStatus p /\
    DebugPanel.bucketError p' = DebugPanel.bucketError p /\
    DebugPanel.bucketDetails p' = DebugPanel.bucketDetails p /\
    remote s' = remote s /\ svc s' = svc s.
Proof.
  destruct (testConnection_spec E s)
    as (success & error & s' & Hrun & Hiff & Hok & Hfail & _ & _ & Hrem & Hsvc & _).
  unfold DebugPanel.checkSupabaseConnection. plumb. rewrite Hrun.
  destruct success.
  - eexists _, _. split; [ reflexivity | ]. cbn.
    repeat split; try assumption; try discriminate; try (apply Hiff; reflexivity).
  - destruct (Hfail eq_refl) as (message & ->).
    eexists _, _. split; [ reflexivity | ]. cbn.
    repeat split; try assumption; try discriminate;
      try (intros H; apply Hiff in H; discriminate H).
    eexists; reflexivity.
Qed.

(** X5: the bucket status follows the flag of the service: [BucketExists]
    with the bucket's name and public URL when [ensureBucketExists] succeeded,
    [BucketError] with its message otherwise. *)
Theorem X5_checkBucketStatus_outcome (E : environment) (s : state) (p : DebugPanel.state)
    (supabaseUrl : option string) :
  exists p' s',
    DebugPanel.checkBucketStatus supabaseUrl p E s = (Normal p', s') /\
    DebugPanel.bucketStatus p' =
      (if bucketInitialized (svc s') then DebugPanel.BucketExists
       else DebugPanel.BucketError) /\
    (DebugPanel.bucketStatus p' = DebugPanel.BucketExists ->
       DebugPanel.bucketError p' = None /\
       DebugPanel.bucketDetails p' =
         Some (DEFAULT_BUCKET_NAME,
               DebugPanel.show supabaseUrl ++ "/storage/v1/object/public/"
               ++ DEFAULT_BUCKET_NAME)) /\
    (DebugPanel.bucketStatus p' = DebugPanel.BucketError ->
       DebugPanel.bucketError p' =
         Some "Failed to ensure bucket 'nine-picture-grid-images' exists" /\
       DebugPanel.bucketDetails p' = None) /\
    (has_config E = true ->
     faults E (List.length (trace s)) = Answers ->
     faults E (S (List.length (trace s))) = Answers ->
     DebugPanel.bucketStatus p' = DebugPanel.BucketExists) /\
    DebugPanel.supabaseStatus p' = DebugPanel.supabaseStatus p /\
    DebugPanel.supabaseError p' = DebugPanel.supabaseError p /\
    objects (remote s') = objects (remote s).
Proof.
  unfold DebugPanel.checkBucketStatus, addLog. plumb. norm.
  match goal with
  | |- context [SupabaseService.ensureBucketExists ?E ?s0] =>
      destruct (ensureBucketExists_spec E s0) as (b & s1 & t & l & Hrun & Hsp)
  end.
  rewrite Hrun. destruct Hsp as [_ _ Hobj _ Hflag Hcached _ _ _ Hclear _]. norm.
  assert (Hb : bucketInitialized (svc s1) = b).
  { rewrite Hflag. destruct (bucketInitialized (svc s)) eqn:Hs; [ | reflexivity ].
    destruct (Hcached eq_refl) as [-> _]. reflexivity. }
  destruct b; eexists _, _; (split; [ reflexivity | ]); norm; rewrite Hb; cbn;
    repeat split; try discriminate; try assumption; try reflexivity.
  intros Hc F1 F2. specialize (Hclear Hc F1 F2). discriminate Hclear.
Qed.

(** ** [uploadImage] *)

Definition upload_name (slotNumber : JS.number) (now : Z) : string :=
  "slot-" ++ JS.number_to_string slotNumber ++ "-" ++ JS.number_to_string (JS.Int now) ++ ".jpg".

Definition is_upload (c : call) : bool :=
  match c with StorageUpload _ _ _ _ _ => true | _ => false end.

Lemma bucket_call_no_upload t :
  Forall (fun c : call * outcome => is_bucket_call (fst c) = true) t ->
  Forall (fun c : call * outcome => is_upload (fst c) = false) t.
Proof.
  intros H. eapply Forall_impl; [ exact H | ]. intros [c o] Hk. cbn in *.
  destruct c; try discriminate; reflexivity.
Qed.

Lemma uploadImage_result E s d n :
  exists r s',
    SupabaseService.uploadImage d n E s = (Normal r, s') /\
    forall url, r = Some url ->
      exists t now bytes b64,
        trace s' =
          (trace s ++ (AuthGetSession, Resolved) :: t ++
           [ (StorageUpload (bucketName (svc s)) (upload_name n now)
                {| blob_bytes := bytes; blob_type := "image/jpeg" |} true "image/jpeg",
              Resolved) ])%list /\
        url = public_url E (bucketName (svc s)) (upload_name n now) /\
        now = clock E (S (List.length (trace s) + List.length t)) /\
        SupabaseService.split_comma_1 d = Some b64 /\ atob E b64 = Some bytes /\
        has_config E = true /\ (exists u, session E = Some u) /\
        Forall (fun c => call_failed c = false) t /\
        Forall (fun c => is_bucket_call (fst c) = true) t.
Proof.
  unfold SupabaseService.uploadImage, SupabaseService.auth_getSession,
    SupabaseService.base64ToBlob, Storage.upload.
  exec'; try congruence.
  all: eexists _, _; (split; [ reflexivity | ]); intros url [= <-].
  all: destruct Hext as [_ _ _ _ Hname _ _ _];
    destruct Hsp as [Htr _ _ _ _ _ Hcalls _ _ _ Hkind]; norm.
  all: assert (b = true) as -> by (destruct b; [ reflexivity | discriminate ]).
  all: exists t, (clock E (List.length (trace s1))), s3, s2.
  all: rewrite Hname.
  all: split; [ rewrite Htr, <- !app_assoc; reflexivity | ].
  all: split; [ reflexivity | ].
  all: split; [ rewrite Htr, !length_app; cbn [List.length]; f_equal; lia | ].
  all: repeat split; try assumption; try (eexists; reflexivity).
  all: apply Hcalls; reflexivity.
Qed.

(** X6: a URL is returned only for an upload that the provider accepted: the
    last call is the resolved upload of the decoded bytes as [image/jpeg],
    under the name made of the slot and the clock, and the URL is the public
    URL of that name. *)
Theorem X6_uploadImage_returns_url (E : environment) (s s' : state) (d url : string)
    (n : JS.number) :
  SupabaseService.uploadImage d n E s = (Normal (Some url), s') ->
  exists t now bytes b64,
    trace s' =
      (trace s ++ (AuthGetSession, Resolved) :: t ++
       [ (StorageUpload (bucketName (svc s)) (upload_name n now)
            {| blob_bytes := bytes; blob_type := "image/jpeg" |} true "image/jpeg",
          Resolved) ])%list /\
    url = public_url E (bucketName (svc s)) (upload_name n now) /\
    now = clock E (S (List.length (trace s) + List.length t)) /\
    SupabaseService.split_comma_1 d = Some b64 /\ atob E b64 = Some bytes /\
    has_config E = true /\ (exists u, session E = Some u) /\
    Forall (fun c => call_failed c = false) t /\
    Forall (fun c => is_bucket_call (fst c) = true) t.
Proof.
  intros Hrun.
  destruct (uploadImage_result E s d n) as (r & s1 & Hrun' & H).
  rewrite Hrun in Hrun'. injection Hrun' as <- <-.
  apply H. reflexivity.
Qed.

(** X7: a data URL without a payload that decodes is never uploaded. *)
Theorem X7_uploadImage_bad_data (E : environment) (s : state) (d : string) (n : JS.number) :
  (forall b64, SupabaseService.split_comma_1 d = Some b64 -> atob E b64 = None) ->
  exists s',
    SupabaseService.uploadImage d n E s = (Normal None, s') /\
    Forall (fun c => is_upload (fst c) = false) (calls_since s s') /\
    objects (remote s') = objects (remote s).
Proof.
  intros Hbad.
  unfold SupabaseService.uploadImage, SupabaseService.auth_getSession,
    SupabaseService.base64ToBlob, Storage.upload.
  exec'; try congruence.
  all: try match goal with
           | D0 : atob _ ?b = Some _ |- _ =>
               first [ rewrite (Hbad _ eq_refl) in D0
                     | rewrite (Hbad _ ltac:(eassumption)) in D0 ];
               discriminate D0
           end.
  all: eexists; (split; [ reflexivity | ]).
  all: try (destruct Hsp as [Htr _ Hobj _ _ _ _ _ _ _ Hkind]).
  all: norm.
  all: split; [ | first [ reflexivity | assumption ] ].
  all: unfold calls_since; norm; rewrite ?Htr; norm; rewrite <- ?app_assoc;
    first [ rewrite drop_app_length | rewrite drop_all ].
  all: repeat first [ exact I | apply Forall_nil | apply Forall_cons; split; [ reflexivity | ]
                    | apply Forall_app; split
                    | apply bucket_call_no_upload; assumption ].
Qed.

(** A browser whose [atob] refuses, as on characters outside the alphabet. *)
Definition strict_atob (E : environment) : environment :=
  {| has_config := has_config E; session := session E; public_url := public_url E;
     clock := clock E; faults := faults E; decode := decode E; context2d := context2d E;
     toDataURL := toDataURL E; atob := fun _ => None |}.

Lemma X7_uploadImage_bad_data_witness :
  let E := strict_atob (sample_env (Some "u1")) in
  let s := start (sample_store []) in
  exists s',
    SupabaseService.uploadImage "data:image/png;base64,%%%" (JS.Int 2) E s = (Normal None, s') /\
    Forall (fun c => is_upload (fst c) = false) (calls_since s s') /\
    objects (remote s') = objects (remote s).
Proof.
  cbv zeta.
  apply (X7_uploadImage_bad_data (strict_atob (sample_env (Some "u1")))).
  intros b64 _. reflexivity.
Defined.

Lemma X6_uploadImage_returns_url_witness :
  let E := sample_env (Some "u1") in
  let s := start (sample_store []) in
  let s' := snd (SupabaseService.uploadImage "data:image/png;base64,QUJD" (JS.Int 2) E s) in
  exists t now bytes b64,
    trace s' =
      (trace s ++ (AuthGetSession, Resolved) :: t ++
       [ (StorageUpload (bucketName (svc s)) (upload_name (JS.Int 2) now)
            {| blob_bytes := bytes; blob_type := "image/jpeg" |} true "image/jpeg",
          Resolved) ])%list /\
    sample_url "slot-2-1700000000002.jpg"
    = public_url E (bucketName (svc s)) (upload_name (JS.Int 2) now) /\
    now = clock E (S (List.length (trace s) + List.length t)) /\
    SupabaseService.split_comma_1 "data:image/png;base64,QUJD" = Some b64 /\
    atob E b64 = Some bytes /\
    has_config E = true /\ (exists u, session E = Some u) /\
    Forall (fun c => call_failed c = false) t /\
    Forall (fun c => is_bucket_call (fst c) = true) t.
Proof.
  cbv zeta.
  apply (X6_uploadImage_returns_url (sample_env (Some "u1")) (start (sample_store []))).
  vm_compute. reflexivity.
Defined.

(** ** [getGridImages] *)

(** What [getGridImages] asks of the provider. *)
Lemma getGridImages_reads (E : environment) (s : state) :
  exists m s' t rest,
    SupabaseService.getGridImages E s = (Normal m, s') /\
    calls_since s s' = (t ++ rest)%list /\
    Forall (fun c => is_bucket_call (fst c) = true) t /\
    (List.length t <= 2)%nat /\
    (rest = [] \/ exists o, rest = [ (StorageList (bucketName (svc s)), o) ]) /\
    objects (remote s') = objects (remote s) /\
    ui s' = ui s /\ alerts s' = alerts s.
Proof.
  unfold SupabaseService.getGridImages.
  plumb. destruct (has_config E) eqn:C.
  - match goal with
    | |- context [SupabaseService.ensureBucketExists ?E ?s0] =>
        pose proof (ensureBucketExists_calls E s0) as Hn
    end.
    ensure_here. cbn [snd] in Hn.
    destruct Hext as [Hui _ Hal _ Hname _ _ _].
    destruct Hsp as [Htr _ Hobj _ _ _ _ _ _ _ Hkind].
    rewrite (calls_since_app _ _ _ Htr) in Hn.
    unfold Storage.listObjects.
    exec; try discriminate.
    all: eexists _, _, t, _; (split; [ reflexivity | ]).
    all: split;
      [ unfold calls_since; norm; rewrite ?Htr; norm; rewrite <- ?app_assoc;
        first [ rewrite drop_app_length; reflexivity
              | rewrite <- (app_nil_r t) at 1; rewrite drop_app_length; reflexivity ] | ].
    all: split; [ exact Hkind | ]. all: split; [ exact Hn | ].
    all: split; [ first [ left; reflexivity | right; rewrite Hname; eexists; reflexivity ] | ].
    all: norm; repeat split; assumption.
  - exec. eexists _, _, [], []. split; [ reflexivity | ].
    split; [ apply calls_since_app; norm; symmetry; apply app_nil_r | ].
    repeat split; norm; auto.
Qed.

(** X8: [getGridImages] only reads: after the bucket calls of
    [ensureBucketExists] it lists the bucket at most once, and it changes
    neither the stored objects nor the page. *)
Theorem X8_getGridImages_only_reads (E : environment) (s : state) :
  exists m s' t rest,
    SupabaseService.getGridImages E s = (Normal m, s') /\
    calls_since s s' = (t ++ rest)%list /\
    Forall (fun c => is_bucket_call (fst c) = true) t /\
    (List.length t <= 2)%nat /\
    (rest = [] \/ exists o, rest = [ (StorageList (bucketName (svc s)), o) ]) /\
    objects (remote s') = objects (remote s) /\
    ui s' = ui s /\ alerts s' = alerts s.
Proof.
  destruct (getGridImages_reads E s) as (m & s' & t & rest & H).
  exists m, s', t, rest. exact H.
Qed.

Lemma slot_key_dec name key : {slot_key name = Some key} + {slot_key name <> Some key}.
Proof.
  destruct (slot_key name) as [k | ].
  - destruct (String.eqb_spec k key) as [-> | Hne]; [ left; reflexivity | right; congruence ].
  - right. discriminate.
Qed.

(** An entry of the mapping is the URL of a listed object filed under its key. *)
Lemma collect_entry url files key v :
  Obj.get (SupabaseService.collect url files) key = Some v ->
  exists name, In name files /\ slot_key name = Some key /\ v = url name.
Proof.
  unfold SupabaseService.collect. revert v.
  induction files as [ | f before IH ] using rev_ind; intros v.
  - discriminate.
  - rewrite fold_left_app. cbn [fold_left].
    destruct (slot_key_dec f key) as [Hk | Hk].
    + rewrite (add_file_same _ _ _ _ Hk). intros [= <-].
      exists f. split; [ apply in_or_app; right; left; reflexivity | auto ].
    + rewrite (add_file_other _ _ _ _ Hk). intros Hv.
      destruct (IH v Hv) as (name & Hin & Hkey & ->).
      exists name. split; [ apply in_or_app; left; exact Hin | auto ].
Qed.

(** X9: the mapping has an entry for a key exactly when a listed object is
    filed under it, and the entry is the URL of such an object. *)
Theorem X9_getGridImages_entries (E : environment) (s : state) (key : string) :
  has_config E = true ->
  (forall i, faults E i = Answers) ->
  Storage.has_bucket (remote s) (bucketName (svc s)) = true ->
  exists m s',
    SupabaseService.getGridImages E s = (Normal m, s') /\
    (is_Some (Obj.get m key) <->
     exists name, In name (Storage.listing (remote s) (bucketName (svc s))) /\
                  slot_key name = Some key) /\
    (forall v, Obj.get m key = Some v ->
       exists name, In name (Storage.listing (remote s) (bucketName (svc s))) /\
                    slot_key name = Some key /\
                    v = public_url E (bucketName (svc s)) name).
Proof.
  intros Hc Hall Hb.
  destruct (getGridImages_clear E s Hc Hall Hb) as (s' & Hrun).
  eexists _, s'. split; [ exact Hrun | ]. split; [ split | ].
  - intros [v Hv]. apply collect_entry in Hv. destruct Hv as (name & Hin & Hk & _).
    exists name. auto.
  - intros (name & Hin & Hk). eapply collect_has_key; eassumption.
  - intros v Hv. apply collect_entry in Hv. exact Hv.
Qed.

Lemma X9_getGridImages_entries_witness :
  exists m s',
    SupabaseService.getGridImages (sample_env None)
      (start (sample_store ["notes.txt"; "slot-4-7.jpg"; "slot-x-1.jpg"])) = (Normal m, s') /\
    (is_Some (Obj.get m "4") <->
     exists name,
       In name (Storage.listing
                  (remote (start (sample_store ["notes.txt"; "slot-4-7.jpg"; "slot-x-1.jpg"])))
                  (bucketName
                     (svc (start (sample_store ["notes.txt"; "slot-4-7.jpg"; "slot-x-1.jpg"]))))) /\
       slot_key name = Some "4") /\
    (forall v, Obj.get m "4" = Some v ->
       exists name,
         In name (Storage.listing
                    (remote (start (sample_store ["notes.txt"; "slot-4-7.jpg"; "slot-x-1.jpg"])))
                    (bucketName
                       (svc (start (sample_store ["notes.txt"; "slot-4-7.jpg"; "slot-x-1.jpg"]))))) /\
         slot_key name = Some "4" /\
         v = public_url (sample_env None)
               (bucketName
                  (svc (start (sample_store ["notes.txt"; "slot-4-7.jpg"; "slot-x-1.jpg"]))))
               name).
Proof.
  apply (X9_getGridImages_entries (sample_env None)
           (start (sample_store ["notes.txt"; "slot-4-7.jpg"; "slot-x-1.jpg"])) "4").
  - reflexivity.
  - intros i. reflexivity.
  - reflexivity.
Defined.

(** ** [deleteImage] *)

Lemma bucket_call_no_remove t :
  Forall (fun c : call * outcome => is_bucket_call (fst c) = true) t ->
  Forall (fun c : call * outcome => is_remove (fst c) = false) t.
Proof.
  intros H. eapply Forall_impl; [ exact H | ]. intros [c o] Hk. cbn in *.
  destruct c; try discriminate; reflexivity.
Qed.

Lemma snoc_split {A} (a : A) t b c : a :: t ++ [b; c] = ((a :: t ++ [b]) ++ [c])%list.
Proof. cbn. rewrite <- app_assoc. reflexivity. Qed.

Lemma filter_all {A} (P : A -> bool) l : Forall (fun x => P x = true) (List.filter P l).
Proof. apply List.Forall_forall. intros x Hx. apply filter_In in Hx. apply Hx. Qed.

Lemma not_removed b names n o :
  Forall (fun f => of_slot n f = true) names ->
  fst o <> b \/ of_slot n (snd o) = false ->
  negb (Storage.removed b names o) = true.
Proof.
  intros Hnames [Hb | Hs]; unfold Storage.removed.
  - destruct (String.eqb_spec (fst o) b); [ contradiction | reflexivity ].
  - destruct (existsb (String.eqb (snd o)) names) eqn:He.
    + apply existsb_exists in He. destruct He as (x & Hx & Heq).
      apply String.eqb_eq in Heq. subst x.
      rewrite List.Forall_forall in Hnames. rewrite (Hnames _ Hx) in Hs. discriminate.
    + rewrite andb_false_r. reflexivity.
Qed.

(** After the names of [listed] that satisfy [P] have been removed, none of
    them is stored, and nothing is stored that was not. *)
Lemma after_remove_gone (P : string -> bool) b listed (st st' : store) :
  objects st' =
    List.filter (fun o => negb (Storage.removed b (List.filter P listed) o)) (objects st) ->
  (forall f, In f listed -> P f = true -> ~ In f (Storage.names st' b)) /\
  (forall f, In f (Storage.names st' b) -> In f (Storage.names st b)).
Proof.
  intros H. unfold Storage.names. rewrite H.
  pose proof (names_after_remove P b listed (objects st)) as HR. cbv zeta in HR. rewrite HR.
  split; intros f.
  - intros Hl Hp Hin. apply filter_In in Hin. destruct Hin as [_ Hneg].
    rewrite Hp, (existsb_eqb_In f listed Hl) in Hneg. discriminate Hneg.
  - intros Hin. apply filter_In in Hin. apply Hin.
Qed.

(** Replace [calls_since s s'] by the calls the run has made. *)
Ltac know_calls :=
  match goal with
  | |- context [calls_since ?s ?s'] =>
      let c := fresh "c" in
      let HL := fresh "HL" in
      remember (calls_since s s') as c eqn:HL;
      unfold calls_since in HL; norm;
      try match goal with Htr : trace _ = _ |- _ => rewrite Htr in HL end;
      norm; rewrite <- ?app_assoc in HL;
      first [ rewrite drop_app_length in HL | rewrite drop_all in HL ];
      cbn [app] in HL; subst c
  end.

Lemma deleteImage_result E s n :
  exists r s',
    SupabaseService.deleteImage n E s = (Normal r, s') /\
    (exists t rest,
       calls_since s s' = (t ++ rest)%list /\
       Forall (fun c => is_remove (fst c) = false) t /\
       (rest = [] \/
        exists names o,
          rest = [ (StorageRemove (bucketName (svc s)) names, o) ] /\
          names <> [] /\ Forall (fun f => of_slot n f = true) names)) /\
    (r = true ->
       has_config E = true /\ (exists u, session E = Some u) /\
       Forall (fun c => call_failed c = false) (calls_since s s') /\
       (forall f, In f (Storage.listing (remote s) (bucketName (svc s))) ->
                  of_slot n f = true ->
                  ~ In f (Storage.names (remote s') (bucketName (svc s)))) /\
       (forall f, In f (Storage.names (remote s') (bucketName (svc s))) ->
                  In f (Storage.names (remote s) (bucketName (svc s))))) /\
    (forall o, In o (objects (remote s)) ->
               fst o <> bucketName (svc s) \/ of_slot n (snd o) = false ->
               In o (objects (remote s'))).
Proof.
  unfold SupabaseService.deleteImage, SupabaseService.auth_getSession, Storage.remove,
    Storage.listObjects.
  exec'; try congruence.
  all: eexists _, _; (split; [ reflexivity | ]).
  all: try (destruct Hext as [_ _ _ _ Hname _ _ _];
            destruct Hsp as [Htr _ Hobj _ _ _ Hcalls _ _ _ Hkind]).
  all: norm.
  all: try change (fun f : string => JS.startsWith f ("slot-" ++ JS.number_to_string n ++ "-"))
         with (of_slot n) in *.
  all: split; [ | split ].
  all: try know_calls.
  (* the calls *)
  1,4,7,10,13,16,19,22,25,28,31,34:
    first
      [ eexists _, [ _ ]; split; [ apply snoc_split | ];
        split;
          [ repeat first [ exact I | apply Forall_nil
                         | apply Forall_cons; split; [ reflexivity | ]
                         | apply Forall_app; split
                         | apply bucket_call_no_remove; assumption ]
          | right; eexists _, _; split; [ rewrite Hname; reflexivity | ];
            split; [ discriminate | ];
            match goal with D : List.filter _ _ = _ |- _ => rewrite <- D end;
            apply filter_all ]
      | eexists _, []; split; [ rewrite app_nil_r; reflexivity | ];
        split; [ | left; reflexivity ];
        repeat first [ exact I | apply Forall_nil
                     | apply Forall_cons; split; [ reflexivity | ]
                     | apply Forall_app; split
                     | apply bucket_call_no_remove; assumption ] ].
  (* a run that returned true; the objects of other slots *)
  all: first
    [ intros Hr; discriminate Hr
    | intros _; split; [ reflexivity | ];
      split; [ eexists; first [ eassumption | reflexivity ] | ];
      split;
        [ repeat first [ exact I | apply Forall_nil
                       | apply Forall_cons; split; [ reflexivity | ]
                       | apply Forall_app; split
                       | apply Hcalls; destruct b; [ reflexivity | discriminate ] ]
        | assert (Hl1 : Storage.listing (remote s1) (bucketName (svc s1))
                        = Storage.listing (remote s) (bucketName (svc s)))
            by (unfold Storage.listing, Storage.names; rewrite Hobj, Hname; reflexivity);
          first
            [ match goal with
              | D : List.filter _ _ = _ :: _ |- _ =>
                  rewrite <- D, Hl1, Hname;
                  apply (after_remove_gone (of_slot n) _ _ (remote s));
                  cbn [objects]; rewrite Hobj; reflexivity
              end
            | match goal with
              | D : List.filter _ _ = [] |- _ =>
                  rewrite Hl1 in D; split;
                  [ intros f Hf Hp;
                    assert (Hin : In f (List.filter (of_slot n)
                                          (Storage.listing (remote s) (bucketName (svc s)))))
                      by (apply filter_In; split; assumption);
                    rewrite D in Hin; destruct Hin
                  | intros f; unfold Storage.names; rewrite Hobj; auto ]
              end ] ]
    | intros o Ho Hcase;
      first
        [ exact Ho
        | rewrite Hobj; exact Ho
        | apply filter_In; split; [ rewrite Hobj; exact Ho | ];
          apply (not_removed _ _ n);
          [ match goal with D : List.filter _ _ = _ |- _ => rewrite <- D end;
            apply filter_all
          | rewrite Hname; exact Hcase ] ] ].
Qed.

(** X10: [deleteImage] never throws and asks for at most one removal, as its
    last call, of names that all start with the slot's prefix; objects of
    other slots and other buckets stay. *)
Theorem X10_deleteImage_removes_only_its_slot (E : environment) (s : state) (n : JS.number) :
  exists r s' t rest,
    SupabaseService.deleteImage n E s = (Normal r, s') /\
    calls_since s s' = (t ++ rest)%list /\
    Forall (fun c => is_remove (fst c) = false) t /\
    (rest = [] \/
     exists names o,
       rest = [ (StorageRemove (bucketName (svc s)) names, o) ] /\
       names <> [] /\ Forall (fun f => of_slot n f = true) names) /\
    (forall o, In o (objects (remote s)) ->
               fst o <> bucketName (svc s) \/ of_slot n (snd o) = false ->
               In o (objects (remote s'))).
Proof.
  destruct (deleteImage_result E s n)
    as (r & s' & Hrun & (t & rest & Hcalls & Ht & Hrest) & _ & Hkeep).
  exists r, s', t, rest. repeat split; assumption.
Qed.

(** X11: [deleteImage] returns true only when all went well: configuration
    and session are there, no call failed, and no name of the slot that the
    listing returned is stored any longer; in a bucket with no more objects
    than one listing returns, the bucket then lists no name of the slot. *)
Theorem X11_deleteImage_true (E : environment) (s s' : state) (n : JS.number) :
  SupabaseService.deleteImage n E s = (Normal true, s') ->
  has_config E = true /\ (exists u, session E = Some u) /\
  Forall (fun c => call_failed c = false) (calls_since s s') /\
  (forall f, In f (Storage.listing (remote s) (bucketName (svc s))) ->
             of_slot n f = true ->
             ~ In f (Storage.names (remote s') (bucketName (svc s)))) /\
  ((List.length (Storage.names (remote s) (bucketName (svc s))) <= Storage.limit)%nat ->
   List.filter (of_slot n) (Storage.listing (remote s') (bucketName (svc s))) = []).
Proof.
  intros Hrun.
  destruct (deleteImage_result E s n) as (r & s1 & Hrun' & _ & Htrue & _).
  rewrite Hrun in Hrun'. injection Hrun' as <- <-.
  destruct (Htrue eq_refl) as (Hc & Hu & Hcalls & Hgone & Hsub).
  split; [ exact Hc | ]. split; [ exact Hu | ]. split; [ exact Hcalls | ].
  split; [ exact Hgone | ].
  intros Hlim.
  destruct (List.filter (of_slot n) (Storage.listing (remote s') (bucketName (svc s))))
    as [ | f files ] eqn:Hf; [ reflexivity | ].
  assert (Hin : In f (List.filter (of_slot n)
                        (Storage.listing (remote s') (bucketName (svc s)))))
    by (rewrite Hf; left; reflexivity).
  apply filter_In in Hin. destruct Hin as [Hin Hp].
  apply listing_In in Hin.
  exfalso. apply (Hgone f); [ | exact Hp | exact Hin ].
  rewrite listing_all by exact Hlim. apply In_sortBy_name. apply Hsub. exact Hin.
Qed.

Lemma X11_deleteImage_true_witness :
  let E := sample_env (Some "u1") in
  let s := start (sample_store ["slot-3-1.jpg"; "slot-30-1.jpg"; "slot-3-2.jpg"]) in
  let s' := snd (SupabaseService.deleteImage (JS.Int 3) E s) in
  has_config E = true /\ (exists u, session E = Some u) /\
  Forall (fun c => call_failed c = false) (calls_since s s') /\
  (forall f, In f (Storage.listing (remote s) (bucketName (svc s))) ->
             of_slot (JS.Int 3) f = true ->
             ~ In f (Storage.names (remote s') (bucketName (svc s)))) /\
  ((List.length (Storage.names (remote s) (bucketName (svc s))) <= Storage.limit)%nat ->
   List.filter (of_slot (JS.Int 3)) (Storage.listing (remote s') (bucketName (svc s))) = []).
Proof.
  cbv zeta.
  apply (X11_deleteImage_true (sample_env (Some "u1"))
           (start (sample_store ["slot-3-1.jpg"; "slot-30-1.jpg"; "slot-3-2.jpg"]))).
  vm_compute. reflexivity.
Defined.

(** ** The names [uploadImage] writes *)

Lemma number_to_string_plain i :
  0 <= i < 2 ^ 53 -> JS.number_to_string (JS.Int i) = JS.decimal i.
Proof.
  intros H. unfold JS.number_to_string, JS.string_of_nonneg.
  destruct (i <? 0) eqn:Hn; [ apply Z.ltb_lt in Hn; lia | ].
  destruct (i <? 2 ^ 53) eqn:Hv; [ reflexivity | apply Z.ltb_ge in Hv; lia ].
Qed.

Lemma decimal_digits v :
  0 <= v ->
  JS.take_digits (JS.decimal v) = JS.decimal v /\
  exists c r, JS.decimal v = String c r /\ JS.is_digit c = true.
Proof.
  intros H. unfold JS.decimal. apply decimal_from_digits; [ exact H | reflexivity ].
Qed.

Lemma decimal_value v : 0 <= v -> JS.digits_value (JS.decimal v) = v.
Proof.
  intros H. unfold JS.decimal.
  rewrite decimal_from_value by (split; [ exact H | apply log2_bound; exact H ]).
  cbn. lia.
Qed.

Lemma take_digits_dash d r :
  JS.take_digits d = d -> JS.take_digits (d ++ String "-" r) = d.
Proof.
  induction d as [ | c d IH ]; cbn [JS.take_digits append]; intros H.
  - reflexivity.
  - destruct (JS.is_digit c); [ | discriminate ]. injection H as H. rewrite IH by exact H.
    reflexivity.
Qed.

Lemma drop_digits_dash d r :
  JS.take_digits d = d -> JS.drop_digits (d ++ String "-" r) = String "-" r.
Proof.
  induction d as [ | c d IH ]; cbn [JS.take_digits JS.drop_digits append]; intros H.
  - reflexivity.
  - destruct (JS.is_digit c); [ | discriminate ]. injection H as H. apply IH, H.
Qed.

(** The pattern captures the digits that stand between [slot-] and [-]. *)
Lemma match_slot_digits_dash d r c d' :
  d = String c d' -> JS.take_digits d = d ->
  match_slot ("slot-" ++ d ++ String "-" r) = Some d.
Proof.
  intros Hd Ht. unfold match_slot.
  change (strip_prefix "slot-" ("slot-" ++ d ++ String "-" r)) with (Some (d ++ String "-" r)).
  cbv beta iota.
  rewrite take_digits_dash, drop_digits_dash by exact Ht. rewrite Hd. reflexivity.
Qed.

(** Between two runs of digits, each followed by [-], one is a prefix of the
    other only when they are the same. *)
Lemma prefix_digits_dash d1 :
  forall d2 r,
    JS.take_digits d1 = d1 -> JS.take_digits d2 = d2 ->
    String.prefix (d1 ++ "-") (d2 ++ String "-" r) = true -> d1 = d2.
Proof.
  induction d1 as [ | c1 d1 IH ]; intros d2 r H1 H2 Hp.
  - destruct d2 as [ | c2 d2 ]; [ reflexivity | ].
    cbn [JS.take_digits] in H2. destruct (JS.is_digit c2) eqn:Hc; [ | discriminate ].
    cbn [String.prefix append] in Hp.
    destruct (ascii_dec "-" c2) as [<- | ]; [ vm_compute in Hc; discriminate Hc | discriminate Hp ].
  - cbn [JS.take_digits] in H1. destruct (JS.is_digit c1) eqn:Hc1; [ | discriminate ].
    injection H1 as H1.
    destruct d2 as [ | c2 d2 ]; cbn [String.prefix append] in Hp.
    + destruct (ascii_dec c1 "-") as [-> | ]; [ vm_compute in Hc1; discriminate Hc1 | discriminate Hp ].
    + cbn [JS.take_digits] in H2. destruct (JS.is_digit c2) eqn:Hc2; [ | discriminate ].
      injection H2 as H2.
      destruct (ascii_dec c1 c2) as [<- | ]; [ | discriminate Hp ].
      f_equal. eapply IH; eassumption.
Qed.

Lemma append_assoc (a b c : string) : (a ++ b ++ c = (a ++ b) ++ c)%string.
Proof. induction a as [ | x a IH ]; cbn; [ reflexivity | rewrite IH; reflexivity ]. Qed.

Lemma prefix_refl_app p r : String.prefix p (p ++ r) = true.
Proof.
  induction p as [ | c p IH ]; cbn [String.prefix append]; [ destruct r; reflexivity | ].
  destruct (ascii_dec c c); [ exact IH | contradiction ].
Qed.

Lemma upload_name_plain i now :
  0 <= i < 2 ^ 53 ->
  upload_name (JS.Int i) now
  = "slot-" ++ JS.decimal i ++ String "-" (JS.number_to_string (JS.Int now) ++ ".jpg").
Proof. intros H. unfold upload_name. rewrite number_to_string_plain by exact H. reflexivity. Qed.

Lemma upload_name_key i now :
  0 <= i < 2 ^ 53 ->
  slot_key (upload_name (JS.Int i) now) = Some (JS.number_to_string (JS.Int i)).
Proof.
  intros H. rewrite upload_name_plain by exact H.
  destruct (decimal_digits i) as (Ht & c & r & Hd & Hc); [ lia | ].
  unfold slot_key. rewrite (match_slot_digits_dash _ _ c r Hd Ht).
  rewrite Hd, parseInt_digits by (rewrite <- ?Hd; assumption).
  rewrite <- Hd, decimal_value, to_double_small by lia. reflexivity.
Qed.

Lemma upload_name_of_slot i j now :
  0 <= i < 2 ^ 53 -> 0 <= j < 2 ^ 53 ->
  (of_slot (JS.Int j) (upload_name (JS.Int i) now) = true <-> j = i).
Proof.
  intros Hi Hj. rewrite upload_name_plain by exact Hi.
  unfold of_slot, JS.startsWith. rewrite number_to_string_plain by exact Hj.
  destruct (decimal_digits i) as (Hti & _); [ lia | ].
  destruct (decimal_digits j) as (Htj & _); [ lia | ].
  split.
  - intros Hp.
    change (String.prefix ("slot-" ++ JS.decimal j ++ "-")
              ("slot-" ++ JS.decimal i ++ String "-" (JS.number_to_string (JS.Int now) ++ ".jpg")))
      with (String.prefix (JS.decimal j ++ "-")
              (JS.decimal i ++ String "-" (JS.number_to_string (JS.Int now) ++ ".jpg"))) in Hp.
    apply prefix_digits_dash in Hp; [ | assumption | assumption ].
    rewrite <- (decimal_value j), <- (decimal_value i), Hp by lia. reflexivity.
  - intros ->.
    change ("slot-" ++ JS.decimal i ++ String "-" (JS.number_to_string (JS.Int now) ++ ".jpg"))
      with ("slot-" ++ (JS.decimal i ++ ("-" ++ (JS.number_to_string (JS.Int now) ++ ".jpg")))).
    generalize (JS.number_to_string (JS.Int now) ++ ".jpg"). intros tail.
    rewrite (append_assoc (JS.decimal i) "-" tail).
    rewrite (append_assoc "slot-" (JS.decimal i ++ "-") tail).
    apply prefix_refl_app.
Qed.

(** X12: the name [uploadImage] writes for a slot is read back as that slot. *)
Theorem X12_upload_name_round_trip (i now : Z) :
  0 <= i < 2 ^ 53 ->
  slot_key (upload_name (JS.Int i) now) = Some (JS.number_to_string (JS.Int i)) /\
  JS.parseInt (JS.number_to_string (JS.Int i)) = JS.Int i /\
  forall j, 0 <= j < 2 ^ 53 ->
    (of_slot (JS.Int j) (upload_name (JS.Int i) now) = true <-> j = i).
Proof.
  intros H. split; [ apply upload_name_key, H | ].
  split; [ apply parseInt_number_to_string, H | ].
  intros j Hj. apply upload_name_of_slot; assumption.
Qed.

Lemma X12_upload_name_round_trip_witness :
  upload_name (JS.Int 3) 1700000000002 = "slot-3-1700000000002.jpg" /\
  slot_key (upload_name (JS.Int 3) 1700000000002) = Some (JS.number_to_string (JS.Int 3)) /\
  JS.parseInt (JS.number_to_string (JS.Int 3)) = JS.Int 3 /\
  forall j, 0 <= j < 2 ^ 53 ->
    (of_slot (JS.Int j) (upload_name (JS.Int 3) 1700000000002) = true <-> j = 3).
Proof.
  split; [ vm_compute; reflexivity | ].
  apply (X12_upload_name_round_trip 3 1700000000002). lia.
Defined.

(** ** Uploading, deleting, and listing again *)




(** Dropping files that are not filed under [key] does not change what the
    loop of [getGridImages] stores under [key]. *)
Lemma collect_filter url (P : string -> bool) files key :
  (forall f, In f files -> P f = false -> slot_key f <> Some key) ->
  Obj.get (SupabaseService.collect url (List.filter P files)) key
  = Obj.get (SupabaseService.collect url files) key.
Proof.
  unfold SupabaseService.collect.
  induction files as [ | f before IH ] using rev_ind; intros H; [ reflexivity | ].
  assert (Hb : forall g, In g before -> P g = false -> slot_key g <> Some key)
    by (intros g Hg; apply H, in_or_app; left; exact Hg).
  rewrite List.filter_app, !fold_left_app. cbn [List.filter].
  destruct (P f) eqn:Hp; cbn [fold_left].
  - destruct (slot_key_dec f key) as [Hk | Hk].
    + rewrite !(add_file_same _ _ _ _ Hk). reflexivity.
    + rewrite !(add_file_other _ _ _ _ Hk). apply IH, Hb.
  - rewrite add_file_other by (apply H; [ apply in_or_app; right; left; reflexivity | exact Hp ]).
    apply IH, Hb.
Qed.






(** The objects of the bucket carry names that [uploadImage] wrote. *)
Definition written_by_uploadImage (f : string) : Prop :=
  exists j now, 0 <= j < 2 ^ 53 /\ f = upload_name (JS.Int j) now.

(** X14: in a bucket with no more objects than one listing returns, all named
    by [uploadImage], deleting a slot empties it in the listing made right
    after and leaves the other slots as they were. *)
Theorem X14_delete_then_list_uploaded (E : environment) (s : state) (u : string) (i : Z) :
  has_config E = true ->
  session E = Some u ->
  (forall k, faults E k = Answers) ->
  Storage.has_bucket (remote s) (bucketName (svc s)) = true ->
  (List.length (Storage.names (remote s) (bucketName (svc s))) <= Storage.limit)%nat ->
  0 <= i < 2 ^ 53 ->
  (forall f, In f (Storage.listing (remote s) (bucketName (svc s))) ->
             written_by_uploadImage f) ->
  exists s1 m s2,
    SupabaseService.deleteImage (JS.Int i) E s = (Normal true, s1) /\
    SupabaseService.getGridImages E s1 = (Normal m, s2) /\
    Obj.get m (JS.number_to_string (JS.Int i)) = None /\
    forall key, key <> JS.number_to_string (JS.Int i) ->
      Obj.get m key =
      Obj.get (SupabaseService.collect (public_url E (bucketName (svc s)))
                 (Storage.listing (remote s) (bucketName (svc s)))) key.
Proof.
  intros Hc Hu Hall Hb Hlim Hi Hnames.
  destruct (deleteImage_clear E s (JS.Int i) u Hc Hu Hall Hb)
    as (s1 & Hrun & Hname & Hb1 & Hn1 & _).
  rewrite taken_within_limit in Hn1 by exact Hlim.
  pose proof (listing_of_filter _ _ _ _ Hlim Hn1) as Hl1.
  rewrite <- Hname in Hb1.
  destruct (getGridImages_clear E s1 Hc Hall Hb1) as (s2 & Hrun2).
  eexists s1, _, s2. split; [ exact Hrun | ]. split; [ exact Hrun2 | ].
  rewrite Hname, Hl1.
  assert (Hslot : forall f, In f (Storage.listing (remote s) (bucketName (svc s))) ->
            (of_slot (JS.Int i) f = true <-> slot_key f = Some (JS.number_to_string (JS.Int i)))).
  { intros f Hf. destruct (Hnames f Hf) as (j & now & Hj & ->).
    rewrite (upload_name_key j now Hj). rewrite (upload_name_of_slot j i now Hj Hi).
    split; [ intros ->; reflexivity | ].
    intros Heq.
    assert (Hp : JS.parseInt (JS.number_to_string (JS.Int j))
                 = JS.parseInt (JS.number_to_string (JS.Int i))) by congruence.
    rewrite !parseInt_number_to_string in Hp by assumption. congruence. }
  split.
  - unfold SupabaseService.collect. rewrite fold_add_file_others; [ reflexivity | ].
    intros f Hf Hk. apply filter_In in Hf. destruct Hf as [Hin Hneg].
    apply Hslot in Hk; [ | exact Hin ]. rewrite Hk in Hneg. discriminate.
  - intros key Hne. apply collect_filter. intros f Hf Hp Hk.
    apply negb_false_iff in Hp. apply Hslot in Hp; [ | exact Hf ]. congruence.
Qed.

Lemma X14_delete_then_list_uploaded_witness :
  let E := sample_env (Some "u1") in
  let s := start (sample_store ["slot-3-1700000000001.jpg"; "slot-30-1700000000002.jpg";
                                "slot-3-1700000000003.jpg"]) in
  exists s1 m s2,
    SupabaseService.deleteImage (JS.Int 3) E s = (Normal true, s1) /\
    SupabaseService.getGridImages E s1 = (Normal m, s2) /\
    Obj.get m (JS.number_to_string (JS.Int 3)) = None /\
    forall key, key <> JS.number_to_string (JS.Int 3) ->
      Obj.get m key =
      Obj.get (SupabaseService.collect (public_url E (bucketName (svc s)))
                 (Storage.listing (remote s) (bucketName (svc s)))) key.
Proof.
  cbv zeta.
  apply (X14_delete_then_list_uploaded (sample_env (Some "u1"))
           (start (sample_store ["slot-3-1700000000001.jpg"; "slot-30-1700000000002.jpg";
                                 "slot-3-1700000000003.jpg"])) "u1" 3).
  - reflexivity.
  - reflexivity.
  - intros k. reflexivity.
  - reflexivity.
  - vm_compute. lia.
  - lia.
  - intros f Hf. vm_compute in Hf. destruct Hf as [<- | [<- | [<- | []]]];
      first [ exists 3, 1700000000001; split; [ lia | vm_compute; reflexivity ]
            | exists 30, 1700000000002; split; [ lia | vm_compute; reflexivity ]
            | exists 3, 1700000000003; split; [ lia | vm_compute; reflexivity ] ].
Defined.

(** ** [base64ToBlob] *)

Lemma substring_list n m s :
  list_ascii_of_string (String.substring n m s)
  = firstn m (skipn n (list_ascii_of_string s)).
Proof.
  revert n m. induction s as [ | c s IH ]; intros n m.
  - destruct n, m; reflexivity.
  - destruct n as [ | n ].
    + destruct m as [ | m ]; [ reflexivity | ]. cbn. rewrite (IH 0%nat m). reflexivity.
    + cbn. apply IH.
Qed.

Lemma length_list_ascii s : List.length (list_ascii_of_string s) = String.length s.
Proof. induction s as [ | c s IH ]; cbn; [ reflexivity | rewrite IH; reflexivity ]. Qed.

Lemma get_list i s : String.get i s = nth_error (list_ascii_of_string s) i.
Proof.
  revert i. induction s as [ | c s IH ]; intros i; [ destruct i; reflexivity | ].
  destruct i as [ | i ]; [ reflexivity | ]. cbn. apply IH.
Qed.

Lemma code_byte c : JS.code c mod 256 = JS.code c.
Proof.
  unfold JS.code. apply Z.mod_small. pose proof (nat_ascii_bounded c). lia.
Qed.

Lemma skipn_nth_error {A} (l : list A) i c :
  nth_error l i = Some c -> skipn i l = c :: skipn (S i) l.
Proof.
  revert i. induction l as [ | a l IH ]; intros i H; [ destruct i; discriminate | ].
  destruct i as [ | i ]; [ injection H as ->; reflexivity | ]. cbn in H. apply (IH i H).
Qed.

Lemma byteNumbers_from_list slice n :
  forall i, (i + n = String.length slice)%nat ->
    SupabaseService.Uint8Array (SupabaseService.byteNumbers_from slice i n)
    = List.map JS.code (skipn i (list_ascii_of_string slice)).
Proof.
  induction n as [ | n IH ]; intros i Hi; cbn [SupabaseService.byteNumbers_from].
  - rewrite skipn_all2 by (rewrite length_list_ascii; lia). reflexivity.
  - unfold SupabaseService.Uint8Array in *. cbn [List.map].
    rewrite IH by lia. unfold SupabaseService.charCodeAt. rewrite get_list.
    destruct (nth_error (list_ascii_of_string slice) i) as [ c | ] eqn:Hc.
    + cbn [SupabaseService.ToUint8]. rewrite code_byte.
      rewrite (skipn_nth_error _ _ _ Hc). reflexivity.
    + apply nth_error_None in Hc. rewrite length_list_ascii in Hc. lia.
Qed.

Lemma Uint8Array_byteNumbers slice :
  SupabaseService.Uint8Array (SupabaseService.byteNumbers slice)
  = List.map JS.code (list_ascii_of_string slice).
Proof. unfold SupabaseService.byteNumbers. rewrite byteNumbers_from_list by lia. reflexivity. Qed.

Lemma byteArrays_from_concat s fuel :
  forall offset,
    (String.length s <= offset + fuel)%nat ->
    List.concat (SupabaseService.byteArrays_from fuel s offset)
    = List.map JS.code (skipn offset (list_ascii_of_string s)).
Proof.
  induction fuel as [ | fuel IH ]; intros offset H; cbn [SupabaseService.byteArrays_from].
  - rewrite skipn_all2 by (rewrite length_list_ascii; lia). reflexivity.
  - destruct (offset <? String.length s)%nat eqn:Ho.
    + cbn [List.concat]. rewrite IH by lia.
      rewrite Uint8Array_byteNumbers, substring_list, <- List.map_app. f_equal.
      transitivity (firstn 512 (skipn offset (list_ascii_of_string s))
                    ++ skipn 512 (skipn offset (list_ascii_of_string s)))%list;
        [ | apply firstn_skipn ].
      f_equal. rewrite skipn_skipn. f_equal. lia.
    + apply Nat.ltb_ge in Ho.
      rewrite skipn_all2 by (rewrite length_list_ascii; lia). reflexivity.
Qed.

Lemma byteArrays_from_sizes s fuel :
  forall offset,
    Forall (fun a => (0 < List.length a <= 512)%nat)
      (SupabaseService.byteArrays_from fuel s offset).
Proof.
  induction fuel as [ | fuel IH ]; intros offset; cbn [SupabaseService.byteArrays_from].
  - constructor.
  - destruct (offset <? String.length s)%nat eqn:Ho; [ | constructor ].
    apply Nat.ltb_lt in Ho. constructor; [ | apply IH ].
    rewrite Uint8Array_byteNumbers, length_map, substring_list, length_firstn, length_skipn,
      length_list_ascii.
    lia.
Qed.

Lemma ascii_of_code c : ascii_of_nat (Z.to_nat (JS.code c)) = c.
Proof. unfold JS.code. rewrite Nat2Z.id. apply ascii_nat_embedding. Qed.

Lemma string_of_codes s :
  string_of_list_ascii
    (List.map (fun b => ascii_of_nat (Z.to_nat b)) (List.map JS.code (list_ascii_of_string s)))
  = s.
Proof.
  induction s as [ | c s IH ]; cbn; [ reflexivity | ].
  rewrite ascii_of_code. f_equal. exact IH.
Qed.

(** X15: [base64ToBlob] keeps every byte: the slices, each of 1 to 512 bytes,
    put together are the character codes of the decoded text, and the blob
    made of them holds that text with the given type. *)
Theorem X15_base64ToBlob_keeps_every_byte (byteCharacters contentType : string) :
  SupabaseService.Blob (SupabaseService.byteArrays byteCharacters) contentType
  = {| blob_bytes := byteCharacters; blob_type := contentType |} /\
  List.concat (SupabaseService.byteArrays byteCharacters)
  = List.map JS.code (list_ascii_of_string byteCharacters) /\
  Forall (fun a => (0 < List.length a <= 512)%nat)
    (SupabaseService.byteArrays byteCharacters) /\
  forall E s base64,
    atob E base64 = Some byteCharacters ->
    SupabaseService.base64ToBlob (Some base64) contentType E s
    = (Normal (SupabaseService.Blob (SupabaseService.byteArrays byteCharacters) contentType), s).
Proof.
  assert (Hc : List.concat (SupabaseService.byteArrays byteCharacters)
               = List.map JS.code (list_ascii_of_string byteCharacters)).
  { unfold SupabaseService.byteArrays. rewrite byteArrays_from_concat by lia. reflexivity. }
  assert (Hb : SupabaseService.Blob (SupabaseService.byteArrays byteCharacters) contentType
               = {| blob_bytes := byteCharacters; blob_type := contentType |}).
  { unfold SupabaseService.Blob. rewrite Hc, string_of_codes. reflexivity. }
  split; [ exact Hb | ]. split; [ exact Hc | ].
  split; [ apply byteArrays_from_sizes | ].
  intros E s base64 Ha. rewrite Hb.
  unfold SupabaseService.base64ToBlob. plumb. rewrite Ha. reflexivity.
Qed.

(** ** The loader *)

Definition load_failed : string := "Failed to load images. Check the Debug tab for details.".

(** X16: a load never throws and always ends loading; it changes neither the
    text, the zoom nor the stored objects, and ends either with no error and
    the pictures merged from a mapping, or with the load error, the bucket
    flag unset and the pictures as they were. *)
Theorem X16_loadImagesFromSupabase_outcome (E : environment) (s : state) (images : list string) :
  exists s',
    NinePictureGrid.loadImagesFromSupabase images E s = (Normal tt, s') /\
    Grid.isLoading (ui s') = false /\
    Grid.text (ui s') = Grid.text (ui s) /\
    Grid.zoomedImage (ui s') = Grid.zoomedImage (ui s) /\
    alerts s' = alerts s /\
    objects (remote s') = objects (remote s) /\
    ((Grid.error (ui s') = None /\ bucketInitialized (svc s') = true /\
      exists m, Grid.images (ui s') = NinePictureGrid.merge images m) \/
     (Grid.error (ui s') = Some load_failed /\ bucketInitialized (svc s') = false /\
      Grid.images (ui s') = Grid.images (ui s))).
Proof.
  handlers. plumb. norm.
  ensure_here. destruct Hext as [Hui _ Hal _ _ _ _ _]. norm.
  destruct Hsp as [_ _ Hobj _ Hflag Hcached _ _ _ _ _]. norm.
  destruct b; norm.
  - destruct (getGridImages_reads E s0) as (m & s2 & _ & _ & Hrun2 & _ & _ & _ & _ & Hobj2 & _).
    pose proof (extends_getGridImages E s0) as Hext2.
    rewrite Hrun2 in *. cbn [snd] in Hext2.
    destruct Hext2 as [Hui2 _ Hal2 _ _ Hinit2 _ _]. norm.
    eexists. split; [ reflexivity | ]. norm. rewrite Hui2, Hui, Hal2, Hal, Hobj2, Hobj. cbn.
    repeat split. left. split; [ reflexivity | ].
    split; [ apply Hinit2; rewrite Hflag; apply orb_true_r | ].
    eexists; reflexivity.
  - eexists. split; [ reflexivity | ]. norm. rewrite Hui, Hal, Hobj. cbn.
    repeat split. right. split; [ reflexivity | ]. split; [ | reflexivity ].
    rewrite Hflag, orb_false_r.
    destruct (bucketInitialized (svc s)) eqn:Hs; [ | reflexivity ].
    destruct (Hcached eq_refl) as [Hb _]. discriminate Hb.
Qed.

(** With the bucket flag set, a listing that fails gives the empty mapping. *)
Lemma getGridImages_listing_fails E s :
  bucketInitialized (svc s) = true ->
  has_config E = false \/ faults E (List.length (trace s)) <> Answers ->
  exists s',
    SupabaseService.getGridImages E s = (Normal Obj.empty, s') /\
    ui s' = ui s /\ remote s' = remote s /\ svc s' = svc s /\ alerts s' = alerts s /\
    exists l, logs s' = (l ++ logs s)%list.
Proof.
  intros Hi Hbad. unfold SupabaseService.getGridImages.
  plumb. destruct (has_config E) eqn:C.
  - destruct Hbad as [ | Hf ]; [ discriminate | ].
    rewrite (ensureBucketExists_cached E s Hi). cbn [negb]. rewrite !log_run.
    unfold external.
    destruct (faults E (List.length (trace (logged _ Info s)))) eqn:F;
      autorewrite with state in F; [ congruence | | ]; norm; plumb; rewrite !log_run; norm.
    + eexists. split; [ reflexivity | ]. norm. repeat split.
      eexists. rewrite !app_assoc. reflexivity.
    + eexists. split; [ reflexivity | ]. norm. repeat split.
      eexists. rewrite !app_assoc. reflexivity.
  - rewrite !log_run. eexists. split; [ reflexivity | ]. norm. repeat split.
    eexists. reflexivity.
Qed.

Lemma merge_empty images : NinePictureGrid.merge images Obj.empty = images.
Proof. reflexivity. Qed.

(** X17: a listing that fails is not reported: with the bucket flag set, a
    load whose listing fails shows no error, keeps the pictures it was given
    and logs success. *)
Theorem X17_load_hides_listing_failure (E : environment) (s : state) (images : list string) :
  bucketInitialized (svc s) = true ->
  has_config E = false \/ faults E (List.length (trace s)) <> Answers ->
  exists s',
    NinePictureGrid.loadImagesFromSupabase images E s = (Normal tt, s') /\
    Grid.error (ui s') = None /\
    Grid.images (ui s') = images /\
    Grid.isLoading (ui s') = false /\
    hd_error (logs s') =
      Some {| message := "Images loaded successfully from Supabase"; severity := Success |} /\
    remote s' = remote s.
Proof.
  intros Hi Hbad. handlers. plumb. norm.
  match goal with
  | |- context [SupabaseService.ensureBucketExists ?E ?s0] =>
      rewrite (ensureBucketExists_cached E s0) by exact Hi
  end.
  cbn [negb].
  match goal with
  | |- context [SupabaseService.getGridImages ?E ?s0] =>
      destruct (getGridImages_listing_fails E s0) as (s1 & Hrun & Hui & Hrem & _ & _ & _);
        [ exact Hi | exact Hbad | rewrite Hrun ]
  end.
  norm. eexists. split; [ reflexivity | ]. norm. rewrite Hui, Hrem. cbn. repeat split.
Qed.

Lemma X17_load_hides_listing_failure_witness :
  let s := snd (SupabaseService.ensureBucketExists (sample_env None)
                  (start (sample_store ["slot-0-100.jpg"]))) in
  let images := sample_url "slot-0-100.jpg" :: List.repeat EmptyString 8 in
  exists s',
    NinePictureGrid.loadImagesFromSupabase images (with_faults (sample_env None) failing_all) s
    = (Normal tt, s') /\
    Grid.error (ui s') = None /\
    Grid.images (ui s') = images /\
    Grid.isLoading (ui s') = false /\
    hd_error (logs s') =
      Some {| message := "Images loaded successfully from Supabase"; severity := Success |} /\
    remote s' = remote s.
Proof.
  cbv zeta.
  apply (X17_load_hides_listing_failure (with_faults (sample_env None) failing_all)).
  - reflexivity.
  - right. discriminate.
Defined.

(** ** The handlers of the grid *)

Definition upload_failed : string := "Failed to upload image. Check the Debug tab for details.".

(** X18: for a signed-in user an upload never throws and ends in one of two
    ways: the slot shows the public URL of the object just stored, named
    after the slot and the clock, and the error is as before; or the
    pictures are as before and the error is the upload error. *)
Theorem X18_handleImageUpload_outcome (E : environment) (s : state) (images : list string)
    (u : string) (index : nat) (imageDataUrl : string) :
  exists s',
    NinePictureGrid.handleImageUpload images (Some u) index imageDataUrl E s = (Normal tt, s') /\
    Grid.text (ui s') = Grid.text (ui s) /\
    Grid.isLoading (ui s') = Grid.isLoading (ui s) /\
    ((exists url t now bytes,
        url <> EmptyString /\
        url = public_url E (bucketName (svc s)) (upload_name (JS.Int (Z.of_nat index)) now) /\
        trace s' =
          (trace s ++ (AuthGetSession, Resolved) :: t ++
           [ (StorageUpload (bucketName (svc s)) (upload_name (JS.Int (Z.of_nat index)) now)
                {| blob_bytes := bytes; blob_type := "image/jpeg" |} true "image/jpeg",
              Resolved) ])%list /\
        Grid.images (ui s') = array_set images index url /\
        Grid.error (ui s') = Grid.error (ui s)) \/
     (Grid.images (ui s') = Grid.images (ui s) /\
      Grid.error (ui s') = Some upload_failed)).
Proof.
  handlers. plumb. norm.
  match goal with
  | |- context [SupabaseService.uploadImage ?d ?n ?E ?s0] =>
      destruct (uploadImage_result E s0 d n) as (r & s1 & Hrun & Hres);
      pose proof (extends_uploadImage d n E s0) as Hext;
      rewrite Hrun in *; cbn [snd] in Hext; destruct Hext as [Hext _ _ _ _ _ _ _]
  end.
  norm.
  destruct r as [[ | c url] | ]; norm.
  - eexists. split; [ reflexivity | ]. norm. rewrite Hext. cbn. repeat split.
    right. split; reflexivity.
  - destruct (Hres _ eq_refl) as (t & now & bytes & b64 & Htr & Hurl & _). norm.
    eexists. split; [ reflexivity | ]. norm. rewrite Hext. cbn. repeat split.
    left. exists (String c url), t, now, bytes.
    split; [ discriminate | ]. split; [ exact Hurl | ]. split; [ exact Htr | ].
    split; reflexivity.
  - eexists. split; [ reflexivity | ]. norm. rewrite Hext. cbn. repeat split.
    right. split; reflexivity.
Qed.

(** X19: for a signed-in user a removal empties the slot on the page and
    leaves the error as it was, whatever the provider did, also when nothing
    was removed. *)
Theorem X19_handleImageRemove_always_clears (E : environment) (s : state)
    (images : list string) (u : string) (index : nat) :
  exists s',
    NinePictureGrid.handleImageRemove images (Some u) index E s = (Normal tt, s') /\
    Grid.images (ui s') = array_set images index EmptyString /\
    Grid.error (ui s') = Grid.error (ui s) /\
    Grid.text (ui s') = Grid.text (ui s) /\
    (session E = None -> remote s' = remote s).
Proof.
  handlers. plumb. norm.
  match goal with
  | |- context [SupabaseService.deleteImage ?n ?E ?s0] =>
      destruct (deleteImage_total E s0 n) as (r & s1 & Hrun);
      pose proof (extends_deleteImage n E s0) as Hext;
      pose proof (fun H => deleteImage_no_session E s0 n H) as Hno;
      rewrite Hrun in *; cbn [snd] in Hext; destruct Hext as [Hext _ _ _ _ _ _ _]
  end.
  norm. eexists. split; [ reflexivity | ]. norm. rewrite Hext. cbn. repeat split.
  intros Hs. destruct (Hno Hs) as (s2 & [= _ <-] & Hrem & _). exact Hrem.
Qed.

(** Nothing to clear, nothing called. *)
Lemma clear_from_empty images n :
  forall i E s,
    (forall j, (i <= j < i + n)%nat -> array_get images j = EmptyString) ->
    NinePictureGrid.clear_from images i n E s = (Normal tt, s).
Proof.
  induction n as [ | n IH ]; intros i E s H; cbn [NinePictureGrid.clear_from].
  - reflexivity.
  - plumb. rewrite (H i) by lia. apply IH. intros j Hj. apply H. lia.
Qed.

Lemma extends_clear_from images n :
  forall i, preserves extends (NinePictureGrid.clear_from images i n).
Proof.
  induction n as [ | n IH ]; intros i; cbn [NinePictureGrid.clear_from].
  - frame.
  - refine (preserves_bind _ _ _ _ _); [ | intros; apply IH ].
    destruct (array_get images i); frame. apply extends_deleteImage.
Qed.

(** X20: for a signed-in user a reset always ends with nine empty slots and
    no text, the error being as it was; over empty slots it calls nothing. *)
Theorem X20_handleReset_outcome (E : environment) (s : state) (images : list string)
    (u : string) :
  exists s',
    NinePictureGrid.handleReset images (Some u) E s = (Normal tt, s') /\
    Grid.images (ui s') = List.repeat EmptyString 9 /\
    Grid.text (ui s') = EmptyString /\
    Grid.error (ui s') = Grid.error (ui s) /\
    ((forall j, (j < 9)%nat -> array_get images j = EmptyString) ->
     trace s' = trace s /\ remote s' = remote s).
Proof.
  handlers. plumb. norm.
  match goal with
  | |- context [NinePictureGrid.clear_from ?a ?i ?n ?E ?s0] =>
      destruct (clear_from_spec a n i E s0) as (s1 & Hrun);
      pose proof (clear_from_empty a n i E s0) as Hempty;
      pose proof (extends_clear_from a n i E s0) as Hext
  end.
  rewrite Hrun in Hext. cbn [snd] in Hext. destruct Hext as [Hui _ _ _ _ _ _ _].
  rewrite Hrun. norm. eexists. split; [ reflexivity | ]. norm. rewrite Hui. cbn.
  repeat split.
  - rewrite Hempty in Hrun by (intros j Hj; apply H; lia). injection Hrun as <-. reflexivity.
  - rewrite Hempty in Hrun by (intros j Hj; apply H; lia). injection Hrun as <-. reflexivity.
Qed.

(** ** Reloading over names with plain slot numbers *)

Lemma loadImagesFromSupabase_clear E s images :
  has_config E = true ->
  (forall i, faults E i = Answers) ->
  Storage.has_bucket (remote s) (bucketName (svc s)) = true ->
  exists s',
    NinePictureGrid.loadImagesFromSupabase images E s = (Normal tt, s') /\
    Grid.images (ui s') =
      NinePictureGrid.merge images
        (SupabaseService.collect (public_url E (bucketName (svc s)))
           (Storage.listing (remote s) (bucketName (svc s)))) /\
    Grid.error (ui s') = None /\
    Grid.isLoading (ui s') = false.
Proof.
  intros Hc Hall Hb. handlers. plumb. norm.
  ensure_here. destruct Hext as [Hui _ _ _ Hname _ _ _]. norm.
  destruct Hsp as [_ _ Hobj Hbk _ _ _ _ _ Hclear _]. norm.
  assert (b = true) as -> by (apply Hclear; auto).
  assert (Hb0 : Storage.has_bucket (remote s0) (bucketName (svc s0)) = true)
    by (rewrite Hname; apply Hbk, Hb).
  assert (Hl0 : Storage.listing (remote s0) (bucketName (svc s0))
                = Storage.listing (remote s) (bucketName (svc s)))
    by (unfold Storage.listing, Storage.names in *; rewrite Hobj, Hname; reflexivity).
  cbn [negb].
  destruct (getGridImages_clear E s0 Hc Hall Hb0) as (s2 & Hrun2).
  pose proof (extends_getGridImages E s0) as Hext2. rewrite Hrun2 in Hext2.
  cbn [snd] in Hext2. destruct Hext2 as [Hui2 _ _ _ _ _ _ _].
  rewrite Hrun2. norm. eexists. split; [ reflexivity | ]. norm.
  rewrite Hl0, Hname, Hui2, Hui. repeat split.
Qed.

Lemma insert_index_keeps i e l x : In x l -> In x (Obj.insert_index i e l).
Proof.
  induction l as [ | [j e'] r IH ]; cbn; [ intros [] | ].
  destruct (i <? j); cbn.
  - intros H. right. exact H.
  - intros [<- | H]; [ left; reflexivity | right; apply IH, H ].
Qed.

Lemma insert_index_has i e l : In (i, e) (Obj.insert_index i e l).
Proof.
  induction l as [ | [j e'] r IH ]; cbn; [ left; reflexivity | ].
  destruct (i <? j); cbn; [ left; reflexivity | right; exact IH ].
Qed.

(** [Object.entries] leaves no property out. *)
Lemma entries_complete o x : In x o -> In x (Obj.entries o).
Proof.
  intros Hin. unfold Obj.entries. apply in_or_app.
  destruct (Obj.is_index x) eqn:Hx.
  - left. unfold Obj.is_index in Hx.
    destruct (Obj.array_index (fst x)) as [ i | ] eqn:Hi; [ | discriminate ].
    apply in_map_iff. exists (i, x). split; [ reflexivity | ].
    clear Hx. induction o as [ | [k v] r IH ]; [ destruct Hin | ].
    cbn [Obj.index_entries]. destruct Hin as [<- | Hin].
    + cbn [fst] in Hi. rewrite Hi. apply insert_index_has.
    + destruct (Obj.array_index k); [ apply insert_index_keeps | ]; apply IH, Hin.
  - right. apply filter_In. split; [ exact Hin | rewrite Hx; reflexivity ].
Qed.

Lemma get_In o k v : Obj.get o k = Some v -> In (k, v) o.
Proof.
  induction o as [ | [k' v'] r IH ]; cbn [Obj.get]; [ discriminate | ].
  destruct (String.eqb_spec k' k) as [-> | Hne].
  - intros H. injection H as ->. left. reflexivity.
  - intros H. right. apply IH, H.
Qed.

(** A property name occurs once. *)
Definition keys_once (o : Obj.t) : Prop := List.NoDup (List.map fst o).

Lemma set_keys_once o k v : keys_once o -> keys_once (Obj.set o k v).
Proof.
  unfold keys_once. induction o as [ | [k' v'] r IH ]; cbn; intros H.
  - constructor; [ intros [] | constructor ].
  - inversion H as [ | x l Hnot Hr ]; subst.
    destruct (String.eqb_spec k' k) as [-> | Hne]; cbn.
    + constructor; assumption.
    + constructor; [ | apply IH, Hr ].
      intros Hin. apply in_map_iff in Hin. destruct Hin as ([k0 v0] & Hk & Hin0). cbn in Hk. subst k0.
      apply set_keys in Hin0. destruct Hin0 as [Hin0 | Heq]; [ | cbn in Heq; congruence ].
      apply Hnot. apply in_map_iff. exists (k', v0). split; [ reflexivity | exact Hin0 ].
Qed.

Lemma collect_keys_once url files : keys_once (SupabaseService.collect url files).
Proof.
  unfold SupabaseService.collect.
  assert (G : forall o, keys_once o -> keys_once (fold_left (SupabaseService.add_file url) files o)).
  { induction files as [ | f rest IH ]; intros o Ho; cbn [fold_left]; [ exact Ho | ].
    apply IH. unfold SupabaseService.add_file. destruct (match_slot f); [ | exact Ho ].
    apply set_keys_once, Ho. }
  apply G. constructor.
Qed.

Lemma In_get o k v : keys_once o -> In (k, v) o -> Obj.get o k = Some v.
Proof.
  unfold keys_once. induction o as [ | [k' v'] r IH ]; cbn; intros H Hin; [ destruct Hin | ].
  inversion H as [ | x l Hnot Hr ]; subst.
  destruct Hin as [[= -> ->] | Hin].
  - rewrite String.eqb_refl. reflexivity.
  - destruct (String.eqb_spec k' k) as [-> | Hne]; [ | apply IH; assumption ].
    exfalso. apply Hnot. apply in_map_iff. exists (k, v). split; [ reflexivity | exact Hin ].
Qed.

Lemma array_get_set_same a i x : array_get (array_set a i x) i = x.
Proof.
  unfold array_get, array_set.
  destruct (i <? List.length a)%nat eqn:Hi.
  - apply Nat.ltb_lt in Hi. revert i Hi.
    induction a as [ | y a IH ]; intros i Hi; cbn in Hi; [ lia | ].
    destruct i as [ | i ]; [ reflexivity | ]. cbn. apply IH. lia.
  - apply Nat.ltb_ge in Hi.
    rewrite app_nth2 by exact Hi. rewrite app_nth2 by (rewrite repeat_length; lia).
    rewrite repeat_length. replace (i - List.length a - (i - List.length a))%nat with 0%nat by lia.
    reflexivity.
Qed.

Lemma number_eq_dec (x y : JS.number) : {x = y} + {x <> y}.
Proof.
  destruct x as [ | a | a ], y as [ | b | b ]; try (right; discriminate); try (left; reflexivity).
  - destruct (Bool.bool_dec a b) as [-> | H]; [ left; reflexivity | right; congruence ].
  - destruct (Z.eq_dec a b) as [-> | H]; [ left; reflexivity | right; congruence ].
Qed.

(** An entry changes the slot its key reads as, and no other. *)
Lemma apply_entry_other a e i :
  JS.parseInt (fst e) <> JS.Int (Z.of_nat i) ->
  array_get (NinePictureGrid.apply_entry a e) i = array_get a i.
Proof.
  intros H. unfold NinePictureGrid.apply_entry. destruct e as [slotStr imageUrl]. cbn [fst] in H.
  destruct (JS.parseInt slotStr) as [ | neg | z ];
    cbn [JS.isNaN JS.geb JS.ltb negb andb]; try reflexivity.
  - destruct neg; reflexivity.
  - destruct (0 <=? z) eqn:H0; [ | reflexivity ].
    destruct (z <? 9) eqn:H9; [ | reflexivity ].
    cbn [andb JS.index]. apply array_get_set_other.
    intros ->. apply H. rewrite Z2Nat.id by lia. reflexivity.
Qed.

Lemma apply_entry_same a k v i :
  (i < 9)%nat -> JS.parseInt k = JS.Int (Z.of_nat i) ->
  array_get (NinePictureGrid.apply_entry a (k, v)) i = v.
Proof.
  intros Hi Hk. unfold NinePictureGrid.apply_entry. rewrite Hk.
  cbn [JS.isNaN JS.geb JS.ltb negb JS.index].
  destruct (0 <=? Z.of_nat i) eqn:H0; [ | apply Z.leb_gt in H0; lia ].
  destruct (Z.of_nat i <? 9) eqn:H9; [ | apply Z.ltb_ge in H9; lia ].
  cbn [andb]. rewrite Nat2Z.id. apply array_get_set_same.
Qed.

(** After the [forEach], a slot holds the value of the entries that read as
    it, when they agree. *)
Lemma fold_written L :
  forall a i v,
    (i < 9)%nat ->
    (exists k, In (k, v) L /\ JS.parseInt k = JS.Int (Z.of_nat i)) ->
    (forall k' v', In (k', v') L -> JS.parseInt k' = JS.Int (Z.of_nat i) -> v' = v) ->
    array_get (fold_left NinePictureGrid.apply_entry L a) i = v.
Proof.
  induction L as [ | e L IH ] using rev_ind; intros a i v Hi (k & Hin & Hk) Hsame.
  - destruct Hin.
  - rewrite fold_left_app. cbn [fold_left]. destruct e as [k' v'].
    destruct (number_eq_dec (JS.parseInt k') (JS.Int (Z.of_nat i))) as [Heq | Hne].
    + rewrite (Hsame k' v') by (try apply in_or_app; auto; right; left; reflexivity).
      apply apply_entry_same; assumption.
    + rewrite apply_entry_other by exact Hne.
      apply IH; [ exact Hi | | ].
      * exists k. split; [ | exact Hk ].
        apply in_app_or in Hin. destruct Hin as [Hin | [[= <- <-] | []]]; [ exact Hin | ].
        contradiction.
      * intros k0 v0 Hin0. apply Hsame. apply in_or_app. left. exact Hin0.
Qed.

Lemma parseInt_captured f d :
  match_slot f = Some d -> JS.digits_value d < 2 ^ 53 ->
  JS.parseInt d = JS.Int (JS.digits_value d).
Proof.
  intros Hm Hv. destruct (match_slot_digits f d Hm) as (c & r & -> & Hc & Hd).
  rewrite parseInt_digits by assumption.
  assert (H0 : 0 <= JS.digits_value (String c r))
    by (apply digits_value_from_nonneg; [ exact Hd | lia ]).
  apply to_double_small. lia.
Qed.

(** X21: with slot numbers below [2^53], a reload leaves alone every slot
    that is the number of no listed object. *)
Theorem X21_reload_keeps_other_slots (E : environment) (s : state) (images : list string)
    (i : nat) :
  has_config E = true ->
  (forall k, faults E k = Answers) ->
  Storage.has_bucket (remote s) (bucketName (svc s)) = true ->
  (forall f d, In f (Storage.listing (remote s) (bucketName (svc s))) ->
               match_slot f = Some d ->
               JS.digits_value d < 2 ^ 53 /\ JS.digits_value d <> Z.of_nat i) ->
  exists s',
    NinePictureGrid.loadImagesFromSupabase images E s = (Normal tt, s') /\
    Grid.error (ui s') = None /\
    array_get (Grid.images (ui s')) i = array_get images i.
Proof.
  intros Hc Hall Hb Hplain.
  destruct (loadImagesFromSupabase_clear E s images Hc Hall Hb) as (s' & Hrun & Him & Herr & _).
  exists s'. split; [ exact Hrun | ]. split; [ exact Herr | ].
  rewrite Him. apply reload_keeps_other_slots. exact Hplain.
Qed.

Lemma X21_reload_keeps_other_slots_witness :
  let E := sample_env None in
  let s := start (sample_store ["slot-0-100.jpg"; "slot-12-5.jpg"; "readme.md"]) in
  let images :=
    (List.repeat EmptyString 4 ++ sample_url "slot-4-1.jpg" :: List.repeat EmptyString 4)%list in
  exists s',
    NinePictureGrid.loadImagesFromSupabase images E s = (Normal tt, s') /\
    Grid.error (ui s') = None /\
    array_get (Grid.images (ui s')) 4 = array_get images 4.
Proof.
  cbv zeta.
  apply (X21_reload_keeps_other_slots (sample_env None)
           (start (sample_store ["slot-0-100.jpg"; "slot-12-5.jpg"; "readme.md"]))).
  - reflexivity.
  - intros k. reflexivity.
  - reflexivity.
  - intros f d [<- | [<- | [<- | []]]] Hm; vm_compute in Hm; try discriminate Hm;
      injection Hm as <-;
      (split; [ reflexivity | intros H; vm_compute in H; discriminate H ]).
Defined.

(** X22: with slot numbers below [2^53], a reload shows in a slot the last
    listed object of that slot. *)
Theorem X22_reload_shows_last_listed (E : environment) (s : state) (images : list string)
    (before after : list string) (name : string) (i : nat) :
  has_config E = true ->
  (forall k, faults E k = Answers) ->
  Storage.has_bucket (remote s) (bucketName (svc s)) = true ->
  Storage.listing (remote s) (bucketName (svc s)) = (before ++ name :: after)%list ->
  (i < 9)%nat ->
  slot_key name = Some (JS.number_to_string (JS.Int (Z.of_nat i))) ->
  (forall n, In n after -> slot_key n <> Some (JS.number_to_string (JS.Int (Z.of_nat i)))) ->
  (forall f d, In f (before ++ name :: after)%list -> match_slot f = Some d ->
               JS.digits_value d < 2 ^ 53) ->
  exists s',
    NinePictureGrid.loadImagesFromSupabase images E s = (Normal tt, s') /\
    array_get (Grid.images (ui s')) i = public_url E (bucketName (svc s)) name.
Proof.
  intros Hc Hall Hb Hl Hi Hk Hafter Hplain.
  destruct (loadImagesFromSupabase_clear E s images Hc Hall Hb) as (s' & Hrun & Him & _).
  exists s'. split; [ exact Hrun | ]. rewrite Him, Hl.
  set (url := public_url E (bucketName (svc s))).
  set (m := SupabaseService.collect url (before ++ name :: after)).
  assert (Hget : Obj.get m (JS.number_to_string (JS.Int (Z.of_nat i))) = Some (url name))
    by (apply collect_last_listed; assumption).
  assert (Hread : JS.parseInt (JS.number_to_string (JS.Int (Z.of_nat i))) = JS.Int (Z.of_nat i)).
  { apply parseInt_number_to_string. split; [ lia | ].
    apply Z.lt_trans with 9; [ lia | reflexivity ]. }
  unfold NinePictureGrid.merge. apply fold_written; [ exact Hi | | ].
  - exists (JS.number_to_string (JS.Int (Z.of_nat i))). split; [ | exact Hread ].
    apply entries_complete, get_In, Hget.
  - intros k' v' Hin Hk'. apply entries_In in Hin.
    destruct (collect_keys url _ _ Hin) as (f & d & Hf & Hm & Hkey). cbn [fst] in Hkey.
    pose proof (Hplain f d Hf Hm) as Hv.
    assert (Hd : JS.digits_value d = Z.of_nat i).
    { rewrite Hkey, (plain_key_reads_back f d Hm Hv) in Hk'. congruence. }
    rewrite (parseInt_captured f d Hm Hv), Hd in Hkey. subst k'.
    pose proof (In_get m _ _ (collect_keys_once url _) Hin) as Hget'.
    congruence.
Qed.

Lemma X22_reload_shows_last_listed_witness :
  let E := sample_env None in
  let s := start (sample_store ["slot-2-100.jpg"; "slot-10-5.jpg"; "slot-2-50.jpg"]) in
  exists s',
    NinePictureGrid.loadImagesFromSupabase (List.repeat EmptyString 9) E s = (Normal tt, s') /\
    array_get (Grid.images (ui s')) 2 = public_url E (bucketName (svc s)) "slot-2-50.jpg".
Proof.
  cbv zeta.
  apply (X22_reload_shows_last_listed (sample_env None)
           (start (sample_store ["slot-2-100.jpg"; "slot-10-5.jpg"; "slot-2-50.jpg"]))
           (List.repeat EmptyString 9) ["slot-10-5.jpg"; "slot-2-100.jpg"] [] "slot-2-50.jpg" 2).
  - reflexivity.
  - intros k. reflexivity.
  - reflexivity.
  - reflexivity.
  - lia.
  - reflexivity.
  - intros n [].
  - intros f d [<- | [<- | [<- | []]]] Hm; vm_compute in Hm; injection Hm as <-;
      reflexivity.
Defined.

(** ** Dropping and choosing files *)

(** Nothing but the log and the slots has changed. *)
Definition page_untouched (s s' : state) : Prop :=
  ui s' = ui s /\ trace s' = trace s /\ remote s' = remote s /\ alerts s' = alerts s /\
  svc s' = svc s.

(** Slot [slot] shows [message]. *)
Definition slot_shows (s' : state) (slot : nat) (message : string) : Prop :=
  exists u, slot_ui s' !! slot = Some u /\ Slot.uploadError u = Some message.

(** Whether slot [slot] shows its spinner. *)
Definition spinner (s : state) (slot : nat) : option bool :=
  Slot.isUploading <$> slot_ui s !! slot.

(** [m] ends with the page untouched, [message] in the slot and the spinner
    as it was. *)
Definition turns_away (m : M unit) (E : environment) (s : state) (slot : nat)
    (message : string) : Prop :=
  exists s', m E s = (Normal tt, s') /\ page_untouched s s' /\ slot_shows s' slot message /\
             spinner s' slot = spinner s slot.

(** [m] ends with the page untouched, [message] in the slot and no spinner. *)
Definition rejects (m : M unit) (E : environment) (s : state) (slot : nat)
    (message : string) : Prop :=
  exists s', m E s = (Normal tt, s') /\ page_untouched s s' /\ slot_shows s' slot message /\
             spinner s' slot = Some false.

Ltac slot_handlers :=
  unfold ImageUploadSlot.handleDrop, ImageUploadSlot.handleFileInput,
    ImageUploadSlot.handleFile, ImageUploadSlot.reader_onload,
    ImageUploadSlot.reader_onerror, ImageUploadSlot.setIsDragging,
    ImageUploadSlot.setUploadError, ImageUploadSlot.setIsUploading,
    ImageUploadSlot.update, addLog.

Ltac slot_done u Hu :=
  eexists; split; [ reflexivity | ]; norm;
  split; [ repeat split | ];
  unfold slot_shows, spinner; cbn [slot_ui set_slot_ui set_logs];
  rewrite !list_lookup_alter, Hu; repeat case_decide; try congruence;
  split; [ eexists; split; reflexivity | reflexivity ].

Lemma slot_exists (s : state) slot :
  (slot < List.length (slot_ui s))%nat -> exists u, slot_ui s !! slot = Some u.
Proof. intros H. apply lookup_lt_is_Some_2 in H. destruct H as [u Hu]. exists u. exact Hu. Qed.

Ltac slot_run :=
  unfold rejects, turns_away; slot_handlers;
  unfold ImageUploadSlot.processImageToSquare, ImageUploadSlot.img_onerror,
    ImageUploadSlot.img_onload, ImageUploadSlot.setUploadError,
    ImageUploadSlot.setIsUploading, ImageUploadSlot.update, addLog;
  plumb.

(** The message of a failed read. *)
Definition read_error (message : option string) : string :=
  match message with
  | Some (String c r) => String c r
  | _ => "Error reading file"
  end.

(** X23: a drop or a chosen file is refused with a message in the slot, the
    page, the store and the trace being left alone: without a signed-in
    user, without a file, with a file that is no image, and with a file that
    cannot be read or decoded; in the last three cases the spinner is off. *)
Theorem X23_slot_refuses (E : environment) (s : state) (slot : nat)
    (onImageUpload : string -> M unit)
    (readAsDataURL : ImageUploadSlot.File -> ImageUploadSlot.reading)
    (enter : bool -> list ImageUploadSlot.File -> M unit) (no_file : string) :
  (slot < List.length (slot_ui s))%nat ->
  (enter = ImageUploadSlot.handleDrop slot onImageUpload readAsDataURL /\
   no_file = "No file found in drop event") \/
  (enter = ImageUploadSlot.handleFileInput slot onImageUpload readAsDataURL /\
   no_file = "No file selected") ->
  (forall files,
     turns_away (enter false files) E s slot "Authentication required to upload images") /\
  turns_away (enter true []) E s slot no_file /\
  (forall file rest,
     JS.includes (ImageUploadSlot.type file) "image" = false ->
     rejects (enter true (file :: rest)) E s slot "Please select an image file") /\
  (forall file rest,
     JS.includes (ImageUploadSlot.type file) "image" = true ->
     readAsDataURL file = ImageUploadSlot.LoadedOther ->
     rejects (enter true (file :: rest)) E s slot "Failed to read file data") /\
  (forall file rest message,
     JS.includes (ImageUploadSlot.type file) "image" = true ->
     readAsDataURL file = ImageUploadSlot.Failed message ->
     rejects (enter true (file :: rest)) E s slot (read_error message)) /\
  (forall file rest dataUrl,
     JS.includes (ImageUploadSlot.type file) "image" = true ->
     readAsDataURL file = ImageUploadSlot.Loaded dataUrl ->
     decode E dataUrl = None ->
     rejects (enter true (file :: rest)) E s slot "Error loading image for processing").
Proof.
  intros Hslot Henter. destruct (slot_exists s slot Hslot) as (u & Hu).
  destruct Henter as [[-> ->] | [-> ->]].
  - repeat split.
    + intros files. slot_run. slot_done u Hu.
    + slot_run. slot_done u Hu.
    + intros file rest Ht. slot_run. rewrite Ht. norm. slot_done u Hu.
    + intros file rest Ht Hr. slot_run. rewrite Ht, Hr. norm. slot_done u Hu.
    + intros file rest message Ht Hr. slot_run. rewrite Ht, Hr. norm.
      destruct message as [[ | c r] | ]; slot_done u Hu.
    + intros file rest dataUrl Ht Hr Hd. slot_run. rewrite Ht, Hr. norm. rewrite Hd. norm.
      slot_done u Hu.
  - repeat split.
    + intros files. slot_run. slot_done u Hu.
    + slot_run. slot_done u Hu.
    + intros file rest Ht. slot_run. rewrite Ht. norm. slot_done u Hu.
    + intros file rest Ht Hr. slot_run. rewrite Ht, Hr. norm. slot_done u Hu.
    + intros file rest message Ht Hr. slot_run. rewrite Ht, Hr. norm.
      destruct message as [[ | c r] | ]; slot_done u Hu.
    + intros file rest dataUrl Ht Hr Hd. slot_run. rewrite Ht, Hr. norm. rewrite Hd. norm.
      slot_done u Hu.
Qed.

(** The slot with its spinner turned off. *)
Definition spinner_off (slot : nat) (s : state) : state :=
  set_slot_ui s (alter (fun u =>
    {| Slot.isDragging := Slot.isDragging u; Slot.isUploading := false;
       Slot.uploadError := Slot.uploadError u |}) slot (slot_ui s)).

(** X24: an image file that reads and decodes reaches the callback once, as
    the JPEG of its centre square. *)
Theorem X24_slot_accepts (E : environment) (s : state) (slot : nat)
    (onImageUpload : string -> M unit)
    (readAsDataURL : ImageUploadSlot.File -> ImageUploadSlot.reading)
    (enter : bool -> list ImageUploadSlot.File -> M unit)
    (file : ImageUploadSlot.File) (rest : list ImageUploadSlot.File)
    (dataUrl : string) (w h : Z) :
  (slot < List.length (slot_ui s))%nat ->
  enter = ImageUploadSlot.handleDrop slot onImageUpload readAsDataURL \/
  enter = ImageUploadSlot.handleFileInput slot onImageUpload readAsDataURL ->
  JS.includes (ImageUploadSlot.type file) "image" = true ->
  readAsDataURL file = ImageUploadSlot.Loaded dataUrl ->
  decode E dataUrl = Some (w, h) ->
  context2d E = true ->
  exists s1,
    page_untouched s s1 /\
    spinner s1 slot = Some true /\
    (exists u, slot_ui s1 !! slot = Some u /\ Slot.uploadError u = None) /\
    enter true (file :: rest) E s =
      (Normal tt,
       spinner_off slot
         (snd (onImageUpload
                 (toDataURL E (ImageUploadSlot.square_canvas dataUrl w h) "image/jpeg"
                    ImageUploadSlot.jpeg_quality) E s1))).
Proof.
  intros Hslot Henter Ht Hr Hd Hc. destruct (slot_exists s slot Hslot) as (u & Hu).
  destruct Henter as [-> | ->].
  - slot_run. rewrite Ht, Hr. norm. rewrite Hd. norm. rewrite Hc. norm.
    eexists. split; [ | split; [ | split; [ | unfold spinner_off; reflexivity ] ] ].
    + repeat split.
    + unfold spinner. cbn [slot_ui set_slot_ui set_logs].
      rewrite !list_lookup_alter, Hu. repeat case_decide; try congruence. reflexivity.
    + cbn [slot_ui set_slot_ui set_logs].
      rewrite !list_lookup_alter, Hu. repeat case_decide; try congruence.
      eexists. split; reflexivity.
  - slot_run. rewrite Ht, Hr. norm. rewrite Hd. norm. rewrite Hc. norm.
    eexists. split; [ | split; [ | split; [ | unfold spinner_off; reflexivity ] ] ].
    + repeat split.
    + unfold spinner. cbn [slot_ui set_slot_ui set_logs].
      rewrite !list_lookup_alter, Hu. repeat case_decide; try congruence. reflexivity.
    + cbn [slot_ui set_slot_ui set_logs].
      rewrite !list_lookup_alter, Hu. repeat case_decide; try congruence.
      eexists. split; reflexivity.
Qed.

Definition sample_file (type : string) : ImageUploadSlot.File :=
  {| ImageUploadSlot.name := "photo"; ImageUploadSlot.size := 3; ImageUploadSlot.type := type |}.

Lemma X23_slot_refuses_witness :
  let E := sample_env None in
  let s := mounted (sample_store []) in
  let images := List.repeat EmptyString 9 in
  let read := fun _ : ImageUploadSlot.File => ImageUploadSlot.Loaded "data:image/png;base64,QUJD" in
  turns_away (slot_drop images None 4 read [sample_file "image/png"]) E s 4
    "Authentication required to upload images" /\
  rejects (slot_drop images (Some "ann") 4 read [sample_file "text/plain"]) E s 4
    "Please select an image file".
Proof.
  cbv zeta. split.
  - apply (X23_slot_refuses (sample_env None) (mounted (sample_store [])) 4
             (NinePictureGrid.handleImageUpload (List.repeat EmptyString 9) None 4)
             (fun _ => ImageUploadSlot.Loaded "data:image/png;base64,QUJD")
             _ "No file found in drop event").
    + vm_compute. lia.
    + left. split; reflexivity.
  - apply (X23_slot_refuses (sample_env None) (mounted (sample_store [])) 4
             (NinePictureGrid.handleImageUpload (List.repeat EmptyString 9) (Some "ann") 4)
             (fun _ => ImageUploadSlot.Loaded "data:image/png;base64,QUJD")
             _ "No file found in drop event").
    + vm_compute. lia.
    + left. split; reflexivity.
    + reflexivity.
Defined.

Lemma X24_slot_accepts_witness :
  let E := sample_env (Some "ann") in
  let s := mounted (sample_store []) in
  let images := List.repeat EmptyString 9 in
  let d := "data:image/png;base64,QUJD" in
  let read := fun _ : ImageUploadSlot.File => ImageUploadSlot.Loaded d in
  exists s1,
    page_untouched s s1 /\
    spinner s1 4 = Some true /\
    (exists u, slot_ui s1 !! 4%nat = Some u /\ Slot.uploadError u = None) /\
    slot_file_input images (Some "ann") 4 read [sample_file "image/png"] E s =
      (Normal tt,
       spinner_off 4
         (snd (NinePictureGrid.handleImageUpload images (Some "ann") 4
                 (toDataURL E (ImageUploadSlot.square_canvas d 400 300) "image/jpeg"
                    ImageUploadSlot.jpeg_quality) E s1))).
Proof.
  cbv zeta.
  apply (X24_slot_accepts (sample_env (Some "ann")) (mounted (sample_store [])) 4
           (NinePictureGrid.handleImageUpload (List.repeat EmptyString 9) (Some "ann") 4)
           (fun _ => ImageUploadSlot.Loaded "data:image/png;base64,QUJD")
           _ (sample_file "image/png") [] "data:image/png;base64,QUJD" 400 300).
  - vm_compute. lia.
  - right. reflexivity.
  - reflexivity.
  - reflexivity.
  - reflexivity.
  - reflexivity.
Defined.

(** ** Zooming *)

(** X25: a press on an empty slot does nothing; a press on a picture zooms it,
    and the release ends the zoom, the pictures and the store being left as
    they were. *)
Theorem X25_zoom_press_and_release (images : list string) (index : nat)
    (E : environment) (s : state) :
  match array_get images index with
  | EmptyString => slot_mouse_down images index E s = (Normal tt, s)
  | String c r =>
      exists s1 s2,
        slot_mouse_down images index E s = (Normal tt, s1) /\
        Grid.zoomedImage (ui s1) = Some (String c r) /\
        NinePictureGrid.handleZoomEnd E s1 = (Normal tt, s2) /\
        Grid.zoomedImage (ui s2) = None /\
        Grid.images (ui s2) = Grid.images (ui s) /\
        Grid.text (ui s2) = Grid.text (ui s) /\
        Grid.error (ui s2) = Grid.error (ui s) /\
        Grid.isLoading (ui s2) = Grid.isLoading (ui s) /\
        trace s2 = trace s /\ remote s2 = remote s /\ alerts s2 = alerts s
  end.
Proof.
  unfold slot_mouse_down, ImageUploadSlot.handleMouseDown.
  destruct (array_get images index) as [ | c r ]; [ reflexivity | ].
  unfold NinePictureGrid.handleImageZoom, NinePictureGrid.handleZoomEnd,
    NinePictureGrid.setZoomedImage, addLog.
  plumb. do 2 eexists. repeat split.
Qed.

(** ** The client singleton *)

Lemma getSupabaseClient_reuses e v c :
  SupabaseClient.supabaseInstance v = Some c ->
  SupabaseClient.getSupabaseClient e v = (Normal c, v).
Proof. intros H. unfold SupabaseClient.getSupabaseClient. rewrite H. reflexivity. Qed.

Lemma getSupabaseClient_installs e v c v1 :
  SupabaseClient.getSupabaseClient e v = (Normal c, v1) ->
  SupabaseClient.supabaseInstance v1 = Some c.
Proof.
  unfold SupabaseClient.getSupabaseClient.
  destruct (SupabaseClient.supabaseInstance v) as [c0 | ] eqn:Hi.
  - intros [= <- <-]. exact Hi.
  - destruct (SupabaseClient.truthy _); [ destruct (SupabaseClient.truthy _) | ];
      intros [= <- <-]; reflexivity.
Qed.

(** X26: a client once made is the one every later call returns until a reset,
    whatever has become of the variables of the environment. *)
Theorem X26_client_is_reused (e e' : SupabaseClient.env) (v v1 : SupabaseClient.vars)
    (c : SupabaseClient.client) (rs : list SupabaseClient.request) :
  SupabaseClient.getSupabaseClient e v = (Normal c, v1) ->
  List.Forall (fun r => r <> SupabaseClient.Reset) rs ->
  SupabaseClient.serve_all e' rs v1 = v1 /\
  SupabaseClient.getSupabaseClient e' (SupabaseClient.serve_all e' rs v1) = (Normal c, v1).
Proof.
  intros Hget Hrs. apply getSupabaseClient_installs in Hget.
  assert (Hsame : SupabaseClient.serve_all e' rs v1 = v1).
  { unfold SupabaseClient.serve_all. induction Hrs as [ | r rs Hr _ IH ]; [ reflexivity | ].
    cbn [fold_left]. destruct r; cbn [SupabaseClient.serve].
    - rewrite (getSupabaseClient_reuses e' v1 c Hget). exact IH.
    - exact IH.
    - contradiction Hr; reflexivity. }
  split; [ exact Hsame | ]. rewrite Hsame. apply getSupabaseClient_reuses. exact Hget.
Qed.

Definition sample_vars : SupabaseClient.env :=
  {| SupabaseClient.NEXT_PUBLIC_SUPABASE_URL := Some "https://x.supabase.co";
     SupabaseClient.NEXT_PUBLIC_SUPABASE_ANON_KEY := Some "anon" |}.

Definition no_vars : SupabaseClient.env :=
  {| SupabaseClient.NEXT_PUBLIC_SUPABASE_URL := None;
     SupabaseClient.NEXT_PUBLIC_SUPABASE_ANON_KEY := None |}.

Lemma X26_client_is_reused_witness :
  let c := {| SupabaseClient.supabaseUrl := "https://x.supabase.co";
              SupabaseClient.supabaseAnonKey := "anon"; SupabaseClient.made_by := 0 |} in
  let v1 := {| SupabaseClient.supabaseInstance := Some c; SupabaseClient.instanceCount := 0;
               SupabaseClient.created := 1 |} in
  let rs := [SupabaseClient.Get; SupabaseClient.Count; SupabaseClient.Get] in
  SupabaseClient.serve_all no_vars rs v1 = v1 /\
  SupabaseClient.getSupabaseClient no_vars (SupabaseClient.serve_all no_vars rs v1) =
    (Normal c, v1).
Proof.
  cbv zeta.
  apply (X26_client_is_reused sample_vars no_vars SupabaseClient.initial).
  - reflexivity.
  - repeat constructor; discriminate.
Defined.

(** The resets among the requests. *)
Definition resets (rs : list SupabaseClient.request) : nat :=
  List.length (List.filter
    (fun r => match r with SupabaseClient.Reset => true | _ => false end) rs).

Definition holds (v : SupabaseClient.vars) : nat :=
  match SupabaseClient.supabaseInstance v with Some _ => 1 | None => 0 end.

Lemma serve_all_bound e rs v :
  (SupabaseClient.created (SupabaseClient.serve_all e rs v) +
     (1 - holds (SupabaseClient.serve_all e rs v))
   <= SupabaseClient.created v + (1 - holds v) + resets rs)%nat /\
  (SupabaseClient.instanceCount v = 0 ->
   SupabaseClient.instanceCount (SupabaseClient.serve_all e rs v) = 0).
Proof.
  unfold SupabaseClient.serve_all. revert v.
  induction rs as [ | r rs IH ]; intros v; cbn [fold_left].
  - split; [ unfold resets; cbn; lia | auto ].
  - destruct (IH (SupabaseClient.serve e r v)) as [IH1 IH2].
    assert (Hstep :
      (SupabaseClient.created (SupabaseClient.serve e r v) +
         (1 - holds (SupabaseClient.serve e r v))
       <= SupabaseClient.created v + (1 - holds v) +
          match r with SupabaseClient.Reset => 1 | _ => 0 end)%nat /\
      (SupabaseClient.instanceCount v = 0 ->
       SupabaseClient.instanceCount (SupabaseClient.serve e r v) = 0)).
    { destruct r; cbn [SupabaseClient.serve].
      - unfold SupabaseClient.getSupabaseClient, holds.
        destruct (SupabaseClient.supabaseInstance v) eqn:Hi; cbn [snd].
        + rewrite Hi. split; [ lia | auto ].
        + destruct (SupabaseClient.truthy _); [ destruct (SupabaseClient.truthy _) | ];
            cbn [snd SupabaseClient.created SupabaseClient.supabaseInstance
                 SupabaseClient.instanceCount]; try rewrite Hi; split; try lia; auto.
      - split; [ lia | auto ].
      - unfold SupabaseClient.__resetSupabaseClient, holds.
        cbn [SupabaseClient.created SupabaseClient.supabaseInstance
             SupabaseClient.instanceCount].
        destruct (SupabaseClient.supabaseInstance v); split; try lia; auto. }
    destruct Hstep as [H1 H2]. split.
    + unfold resets in *. cbn [List.filter]. destruct r; cbn [List.length] in *; lia.
    + intros H0. apply IH2, H2, H0.
Qed.

(** X27: whatever is asked of the module, at most one client is made between
    two resets, and the instance counter stays at 0. *)
Theorem X27_singleton_bookkeeping (e : SupabaseClient.env)
    (rs : list SupabaseClient.request) :
  (SupabaseClient.created (SupabaseClient.serve_all e rs SupabaseClient.initial)
   <= 1 + resets rs)%nat /\
  SupabaseClient.__getInstanceCount
    (SupabaseClient.serve_all e rs SupabaseClient.initial) = 0.
Proof.
  destruct (serve_all_bound e rs SupabaseClient.initial) as [H H0]. split.
  - unfold holds in H at 2. cbn in H. lia.
  - unfold SupabaseClient.__getInstanceCount. apply H0. reflexivity.
Qed.

(** ** Tabs *)

Lemma visible_absent tabs a :
  ~ In a (List.map Tabs.id tabs) -> Tabs.visible tabs a = [].
Proof.
  unfold Tabs.visible. induction tabs as [ | t tabs IH ]; intros H; [ reflexivity | ].
  cbn [List.filter]. destruct (String.eqb_spec a (Tabs.id t)) as [-> | Hne].
  - contradiction H; left; reflexivity.
  - apply IH. intros Hin. apply H. right. exact Hin.
Qed.

(** X28: with distinct ids one tab is shown, the one whose id is active, and
    no tab is shown when no tab has the active id; without a default id the
    first tab is the one shown at the start. *)
Theorem X28_tabs_show_one (tabs : list Tabs.Tab) (activeTab : string) :
  List.NoDup (List.map Tabs.id tabs) ->
  (In activeTab (List.map Tabs.id tabs) ->
   exists t, In t tabs /\ Tabs.id t = activeTab /\ Tabs.visible tabs activeTab = [t]) /\
  (~ In activeTab (List.map Tabs.id tabs) -> Tabs.visible tabs activeTab = []) /\
  (forall t rest, tabs = t :: rest ->
     Tabs.initial tabs None = Normal (Tabs.id t) /\ Tabs.visible tabs (Tabs.id t) = [t]).
Proof.
  intros Hnd. split; [ | split; [ apply visible_absent | ] ].
  - induction tabs as [ | t tabs IH ]; intros Hin; [ contradiction Hin | ].
    cbn [List.map] in Hnd. apply List.NoDup_cons_iff in Hnd. destruct Hnd as [Hfresh Hnd].
    unfold Tabs.visible. cbn [List.filter].
    destruct (String.eqb_spec activeTab (Tabs.id t)) as [-> | Hne].
    + exists t. split; [ left; reflexivity | split; [ reflexivity | ] ].
      f_equal. apply visible_absent. exact Hfresh.
    + destruct Hin as [Heq | Hin]; [ congruence | ].
      destruct (IH Hnd Hin) as (t' & Hin' & Hid & Hvis).
      exists t'. split; [ right; exact Hin' | split; [ exact Hid | exact Hvis ] ].
  - intros t rest ->. split; [ reflexivity | ].
    cbn [List.map] in Hnd. apply List.NoDup_cons_iff in Hnd. destruct Hnd as [Hfresh _].
    unfold Tabs.visible. cbn [List.filter]. rewrite String.eqb_refl.
    f_equal. apply visible_absent. exact Hfresh.
Qed.

Lemma X28_tabs_show_one_witness :
  let tabs := [ {| Tabs.id := "grid"; Tabs.label := "Grid" |};
                {| Tabs.id := "logs"; Tabs.label := "Logs" |} ] in
  (In "logs" (List.map Tabs.id tabs) ->
   exists t, In t tabs /\ Tabs.id t = "logs" /\ Tabs.visible tabs "logs" = [t]) /\
  (~ In "logs" (List.map Tabs.id tabs) -> Tabs.visible tabs "logs" = []) /\
  (forall t rest, tabs = t :: rest ->
     Tabs.initial tabs None = Normal (Tabs.id t) /\ Tabs.visible tabs (Tabs.id t) = [t]).
Proof.
  cbv zeta. apply X28_tabs_show_one.
  repeat constructor; cbn; intuition discriminate.
Defined.

(** ** Signing in *)

(** What the form shows after a submission that succeeded. *)
Definition welcome (m : AuthForm.AuthMode) : string :=
  match m with
  | AuthForm.signin => "Signed in successfully!"
  | AuthForm.signup => "Signed up successfully! Please check your email for verification."
  end.

(** The message a reply of the provider leaves the form with, if any. *)
Definition complaint (m : AuthForm.AuthMode) (r : AuthContext.reply) : option string :=
  match r with
  | AuthContext.Data (Some _) => None
  | AuthContext.Data None =>
      match m with
      | AuthForm.signin => Some "TypeError: Cannot read properties of null"
      | AuthForm.signup => None
      end
  | AuthContext.Refused message => Some message
  | AuthContext.Raised message => Some message
  end.

Ltac auth_run :=
  unfold AuthForm.handleSubmit, AuthContext.signIn, AuthContext.signUp, AuthContext.await,
    AuthForm.failed, AuthForm.shown, addLog;
  plumb.

(** X29: a submission ends with the spinner off and one banner: the message of
    the failure when it has one, the welcome otherwise. *)
Theorem X29_handleSubmit_outcome (r : AuthContext.reply) (f : AuthForm.state)
    (E : environment) (s : state) :
  exists f' s',
    AuthForm.handleSubmit r f E s = (Normal f', s') /\
    AuthForm.loading f' = false /\
    AuthForm.mode f' = AuthForm.mode f /\
    AuthForm.email f' = AuthForm.email f /\
    AuthForm.password f' = AuthForm.password f /\
    match complaint (AuthForm.mode f) r with
    | Some (String c m) =>
        AuthForm.error f' = Some (String c m) /\ AuthForm.success f' = None
    | _ =>
        AuthForm.error f' = None /\ AuthForm.success f' = Some (welcome (AuthForm.mode f))
    end.
Proof.
  destruct f as [m e p l er su]. cbn [AuthForm.mode AuthForm.email AuthForm.password].
  destruct m; destruct r as [[u | ] | [ | c msg] | [ | c msg]];
    auth_run; do 2 eexists; (split; [ reflexivity | ]); cbn; repeat split.
Qed.

(** ** Restoring the session *)

(** X30: initialisation asks for the session once and ends loading, whatever
    the answer; the user becomes the one of the session found, and stays as
    it was when none is found or the call fails. *)
Theorem X30_initAuth_outcome (a : AuthContext.state) (E : environment) (s : state) :
  exists a' s' o,
    AuthContext.initAuth a E s = (Normal a', s') /\
    AuthContext.loading a' = false /\
    trace s' = (trace s ++ [(AuthGetSession, o)])%list /\
    remote s' = remote s /\
    match faults E (List.length (trace s)), session E with
    | Answers, Some u =>
        o = Resolved /\ AuthContext.user a' = Some u /\ AuthContext.session a' = Some u
    | Answers, None =>
        o = Resolved /\ AuthContext.user a' = AuthContext.user a /\
        AuthContext.session a' = AuthContext.session a
    | _, _ =>
        o <> Resolved /\ AuthContext.user a' = AuthContext.user a /\
        AuthContext.session a' = AuthContext.session a
    end.
Proof.
  unfold AuthContext.initAuth, AuthContext.getSession, AuthContext.setLoading,
    AuthContext.setSession, addLog.
  plumb. unfold external.
  cbn [trace set_logs].
  destruct (faults E (List.length (trace s))) as [ | e | e ].
  - destruct (session E) as [u | ]; cbn;
      do 3 eexists; (split; [ reflexivity | ]); cbn; repeat split.
  - cbn. do 3 eexists. (split; [ reflexivity | ]); cbn; repeat split. discriminate.
  - cbn. do 3 eexists. (split; [ reflexivity | ]); cbn; repeat split. discriminate.
Qed.
